(** * ClassicJSMinus (cjsminus.js): a shallow embedding and its properties

    The module is a single JavaScript file.  Its functions are embedded as
    functions of an explicit world (object store, module-level WeakMaps and
    the bindings of the identifiers the file reads without declaring) in a
    state-and-exception monad.  Function values defined outside the module
    are applied through a section variable [call].

    Objects carry data properties only (no accessors, no proxies).  The file
    is a CommonJS script without a strict-mode directive, so a refused
    assignment is dropped silently.  What is embedded is the evaluation of
    the code; of parsing, only the check of the declarations of each
    function body is modelled, which decides whether the file loads. *)

From Stdlib Require Import ZArith String List Lia DecimalString.
From stdpp Require Import base tactics option list strings.

Local Open Scope string_scope.
Local Open Scope list_scope.

(** ** Values *)

(** Locations index the object store. *)
Abbreviation loc := nat.

(** Property keys: strings and symbols (symbols are numbered as minted). *)
Inductive Key : Type :=
| KStr (s : string)
| KSym (n : nat).

(** The host objects the module touches. *)
Inductive Intrinsic : Type :=
| IObject            (* the Object constructor *)
| IObjectPrototype   (* Object.prototype *)
| IHasOwnProperty    (* Object.prototype.hasOwnProperty *)
| IFreeze.           (* Object.freeze *)

(** Numbers are the integer-valued ones and NaN; an integer stands for the
    number of the language up to 2^53 in absolute value, where the numbers
    of the language are exact. *)
Inductive Value : Type :=
| VUndef
| VNull
| VBool (b : bool)
| VNum (z : Z)
| VNaN
| VStr (s : string)
| VSym (n : nat)
| VObj (l : loc)
| VFun (l : loc)
| VIntrinsic (i : Intrinsic).

#[global] Instance Key_eq_dec : EqDecision Key.
Proof. solve_decision. Defined.
#[global] Instance Intrinsic_eq_dec : EqDecision Intrinsic.
Proof. solve_decision. Defined.
#[global] Instance Value_eq_dec : EqDecision Value.
Proof. solve_decision. Defined.

Inductive Error : Type :=
| TypeError (msg : string)
| SyntaxError (msg : string)
| ReferenceError (msg : string)
| Raised (v : Value).        (* a value thrown by code outside the module *)

Inductive Outcome (A : Type) : Type :=
| Ret (a : A)
| Throw (e : Error).
Arguments Ret {A} a.
Arguments Throw {A} e.

(** An object: its [[Prototype]], its own data properties in own-key order,
    and whether Object.freeze was applied to it.  Property attributes other
    than the ones freezing implies are not modelled. *)
Record JSObj : Type := mkObj {
  proto : Value;
  props : list (Key * Value);
  frozen : bool
}.

(** The world a call runs in.  [stack], [proxyMap], [PVT_DATA], [prototype],
    [Obj] and [Classic] are identifiers the file reads but never declares:
    [None] means the identifier is unbound and reading it raises a
    ReferenceError. *)
Record World : Type := mkWorld {
  heap : list JSObj;
  classDefs : list (Value * Value);
  initFns : list (Value * Value);
  owners : list (Value * Value);
  connections : list (Value * Value);
  stack : option (list Value);
  proxyMap : option (list (Value * Value));
  PVT_DATA : option Value;
  prototype : option Value;
  Obj : option Value;
  Classic : option Value
}.

Definition withHeap (h : list JSObj) (w : World) : World :=
  mkWorld h (classDefs w) (initFns w) (owners w) (connections w)
          (stack w) (proxyMap w) (PVT_DATA w) (prototype w) (Obj w) (Classic w).

Definition withInitFns (m : list (Value * Value)) (w : World) : World :=
  mkWorld (heap w) (classDefs w) m (owners w) (connections w)
          (stack w) (proxyMap w) (PVT_DATA w) (prototype w) (Obj w) (Classic w).

Definition withOwners (m : list (Value * Value)) (w : World) : World :=
  mkWorld (heap w) (classDefs w) (initFns w) m (connections w)
          (stack w) (proxyMap w) (PVT_DATA w) (prototype w) (Obj w) (Classic w).

Definition withStack (s : list Value) (w : World) : World :=
  mkWorld (heap w) (classDefs w) (initFns w) (owners w) (connections w)
          (Some s) (proxyMap w) (PVT_DATA w) (prototype w) (Obj w) (Classic w).

(** ** The monad *)

(** Computations over a state [S] that return or throw. *)
Definition SE (S A : Type) : Type := S -> Outcome A * S.

Definition ret {S A} (a : A) : SE S A := fun w => (Ret a, w).
Definition throw {S A} (e : Error) : SE S A := fun w => (Throw e, w).
Definition bind {S A B} (m : SE S A) (f : A -> SE S B) : SE S B :=
  fun w => match m w with
           | (Ret a, w') => f a w'
           | (Throw e, w') => (Throw e, w')
           end.

Notation "x <- m ;; k" := (bind m (fun x => k))
  (at level 100, m at next level, right associativity).
Notation "m ;;; k" := (bind m (fun _ => k))
  (at level 100, right associativity).

Definition M (A : Type) : Type := SE World A.

Definition getWorld : M World := fun w => (Ret w, w).

(** for (let x of xs) body(x) *)
Fixpoint forEach {A} (xs : list A) (body : A -> M unit) : M unit :=
  match xs with
  | [] => ret tt
  | x :: rest => body x ;;; forEach rest body
  end.

(** ** Primitive operations of the language *)

Definition typeof (v : Value) : string :=
  match v with
  | VUndef => "undefined"
  | VNull => "object"
  | VBool _ => "boolean"
  | VNum _ | VNaN => "number"
  | VStr _ => "string"
  | VSym _ => "symbol"
  | VObj _ => "object"
  | VFun _ => "function"
  | VIntrinsic IObjectPrototype => "object"
  | VIntrinsic _ => "function"
  end.

(** ToBoolean *)
Definition truthy (v : Value) : bool :=
  match v with
  | VUndef | VNull | VNaN => false
  | VBool b => b
  | VNum z => negb (Z.eqb z 0)
  | VStr s => negb (String.eqb s EmptyString)
  | _ => true
  end.

Definition isObject (v : Value) : bool :=
  match v with
  | VObj _ | VFun _ | VIntrinsic _ => true
  | _ => false
  end.

(** Strict equality (===): structural, except that NaN differs from itself. *)
Definition strictEq (a b : Value) : bool :=
  match a, b with
  | VNaN, _ | _, VNaN => false
  | _, _ => bool_decide (a = b)
  end.

(** Array.prototype.includes and Set membership compare with SameValueZero,
    which on these values is equality. *)
Definition includes (xs : list Value) (v : Value) : bool :=
  bool_decide (v ∈ xs).

Definition dquote : string := String (Ascii.ascii_of_nat 34) EmptyString.

Definition natToString (n : nat) : string :=
  NilZero.string_of_uint (Nat.to_uint n).
Definition intToString (z : Z) : string :=
  NilZero.string_of_int (Z.to_int z).

(** ToString, as a template literal applies it.  A symbol cannot be
    converted.  Objects are rendered as Object.prototype.toString renders an
    ordinary object; the source text of a function is not modelled. *)
Definition toStringJS (v : Value) : M string :=
  match v with
  | VUndef => ret "undefined"
  | VNull => ret "null"
  | VBool true => ret "true"
  | VBool false => ret "false"
  | VNum z => ret (intToString z)
  | VNaN => ret "NaN"
  | VStr s => ret s
  | VSym _ => throw (TypeError "Cannot convert a Symbol value to a string")
  | VObj _ | VIntrinsic IObjectPrototype => ret "[object Object]"
  | VFun _ | VIntrinsic _ => ret "function () { [code] }"
  end.

(** ToPropertyKey: symbols stay symbols, everything else goes through
    ToString.  A number is written in decimal, as the language writes the
    integers below 10^21. *)
Definition toPropertyKey (v : Value) : Key :=
  match v with
  | VSym n => KSym n
  | VUndef => KStr "undefined"
  | VNull => KStr "null"
  | VBool true => KStr "true"
  | VBool false => KStr "false"
  | VNum z => KStr (intToString z)
  | VNaN => KStr "NaN"
  | VStr s => KStr s
  | VObj _ | VIntrinsic IObjectPrototype => KStr "[object Object]"
  | VFun _ | VIntrinsic _ => KStr "function () { [code] }"
  end.

Definition keyValue (k : Key) : Value :=
  match k with
  | KStr s => VStr s
  | KSym n => VSym n
  end.

Definition isStringKey (k : Key) : bool :=
  match k with KStr _ => true | KSym _ => false end.

(** ** The object store *)

Fixpoint lookupProp (k : Key) (ps : list (Key * Value)) : option Value :=
  match ps with
  | [] => None
  | (k', v) :: rest => if bool_decide (k' = k) then Some v else lookupProp k rest
  end.

(** Overwrite in place, or append as the newest own property. *)
Fixpoint updateProp (k : Key) (v : Value) (ps : list (Key * Value))
  : list (Key * Value) :=
  match ps with
  | [] => [(k, v)]
  | (k', v') :: rest =>
      if bool_decide (k' = k) then (k, v) :: rest
      else (k', v') :: updateProp k v rest
  end.

Definition stringChars (s : string) : list (Key * Value) :=
  imap (fun i c => (KStr (natToString i), VStr (String c EmptyString)))
       (list_ascii_of_string s).

(** Own properties of a value once ToObject is applied to it.  Of the own
    properties of Object.prototype and Object, the ones the module reads
    are listed; all of them have string keys. *)
Definition ownProps (h : list JSObj) (v : Value) : list (Key * Value) :=
  match v with
  | VObj l | VFun l =>
      match h !! l with
      | Some o => props o
      | None => []
      end
  | VStr s => stringChars s ++ [(KStr "length", VNum (Z.of_nat (String.length s)))]
  | VIntrinsic IObjectPrototype =>
      [(KStr "constructor", VIntrinsic IObject);
       (KStr "hasOwnProperty", VIntrinsic IHasOwnProperty)]
  | VIntrinsic IObject =>
      [(KStr "prototype", VIntrinsic IObjectPrototype);
       (KStr "freeze", VIntrinsic IFreeze)]
  | _ => []
  end.

(** [[GetPrototypeOf]]; wrapper and function prototypes are passed over,
    their chains end in Object.prototype. *)
Definition protoOf (h : list JSObj) (v : Value) : Value :=
  match v with
  | VObj l | VFun l =>
      match h !! l with
      | Some o => proto o
      | None => VNull
      end
  | VIntrinsic IObjectPrototype => VNull
  | VUndef | VNull => VNull
  | _ => VIntrinsic IObjectPrototype
  end.

Definition isFrozenObj (h : list JSObj) (v : Value) : bool :=
  match v with
  | VObj l | VFun l =>
      match h !! l with
      | Some o => frozen o
      | None => false
      end
  | _ => false
  end.

(** Walk the prototype chain for key [k]; returns the holder and the value. *)
Fixpoint findProp (fuel : nat) (h : list JSObj) (v : Value) (k : Key)
  : option (Value * Value) :=
  match lookupProp k (ownProps h v) with
  | Some x => Some (v, x)
  | None =>
      match fuel with
      | 0 => None
      | S fuel' =>
          match protoOf h v with
          | VNull | VUndef => None
          | p => findProp fuel' h p k
          end
      end
  end.

(** A chain without cycles visits each stored object at most once and then
    at most the one intrinsic. *)
Definition chainFuel (h : list JSObj) : nat := S (S (length h)).

Definition getV (h : list JSObj) (v : Value) (k : Key) : Value :=
  match findProp (chainFuel h) h v k with
  | Some (_, x) => x
  | None => VUndef
  end.

Definition hasOwn (h : list JSObj) (v : Value) (k : Key) : bool :=
  match lookupProp k (ownProps h v) with
  | Some _ => true
  | None => false
  end.

(** o[k]; the messages of the errors the host raises are abridged. *)
Definition Get (o : Value) (k : Key) : M Value :=
  match o with
  | VUndef | VNull =>
      throw (TypeError "Cannot read properties of undefined or null")
  | _ => fun w => (Ret (getV (heap w) o k), w)
  end.

(** k in o *)
Definition In_ (k : Key) (o : Value) : M bool :=
  if isObject o
  then fun w => (Ret (bool_decide (is_Some (findProp (chainFuel (heap w)) (heap w) o k))), w)
  else throw (TypeError "Cannot use 'in' operator to search in a non-object").

Definition setOwn (h : list JSObj) (l : loc) (k : Key) (v : Value) : list JSObj :=
  match h !! l with
  | Some o => <[l := mkObj (proto o) (updateProp k v (props o)) (frozen o)]> h
  | None => h
  end.

(** o[k] = v in sloppy mode: a write that [[Set]] refuses is dropped
    silently.  A frozen receiver refuses, and so does a frozen holder up the
    chain.  The intrinsics are immutable here. *)
Definition Put (o : Value) (k : Key) (v : Value) : M unit :=
  match o with
  | VUndef | VNull =>
      throw (TypeError "Cannot set properties of undefined or null")
  | VObj l | VFun l =>
      fun w =>
        let h := heap w in
        let blocked :=
          match findProp (chainFuel h) h o k with
          | Some (holder, _) => isFrozenObj h holder
          | None => false
          end in
        if isFrozenObj h o || blocked then (Ret tt, w)
        else (Ret tt, withHeap (setOwn h l k v) w)
  | _ => ret tt
  end.

(** An object literal: a fresh ordinary object with the given properties. *)
Definition newObject (ps : list (Key * Value)) : M Value :=
  fun w =>
    let h := heap w in
    (Ret (VObj (length h)),
     withHeap (h ++ [mkObj (VIntrinsic IObjectPrototype) ps false]) w).

Definition getOwnPropertyNames (o : Value) : M (list Key) :=
  match o with
  | VUndef | VNull =>
      throw (TypeError "Cannot convert undefined or null to object")
  | _ => fun w => (Ret (filter (fun k => isStringKey k = true) (map fst (ownProps (heap w) o))), w)
  end.

Definition getOwnPropertySymbols (o : Value) : M (list Key) :=
  match o with
  | VUndef | VNull =>
      throw (TypeError "Cannot convert undefined or null to object")
  | _ => fun w => (Ret (filter (fun k => isStringKey k = false) (map fst (ownProps (heap w) o))), w)
  end.

(** Object.freeze (shallow) *)
Definition freeze (o : Value) : M Value :=
  match o with
  | VObj l | VFun l =>
      fun w =>
        let h := heap w in
        match h !! l with
        | Some ob => (Ret o, withHeap (<[l := mkObj (proto ob) (props ob) true]> h) w)
        | None => (Ret o, w)
        end
  | _ => ret o
  end.

(** Object.isFrozen: a primitive counts as frozen. *)
Definition isFrozen (o : Value) : M bool :=
  if isObject o then fun w => (Ret (isFrozenObj (heap w) o), w) else ret true.

Definition getPrototypeOf (o : Value) : M Value :=
  match o with
  | VUndef | VNull =>
      throw (TypeError "Cannot convert undefined or null to object")
  | _ => fun w => (Ret (protoOf (heap w) o), w)
  end.

Fixpoint inChain (fuel : nat) (h : list JSObj) (v target : Value) : bool :=
  if bool_decide (v = target) then true
  else match fuel with
       | 0 => false
       | S fuel' =>
           match protoOf h v with
           | VNull | VUndef => false
           | p => inChain fuel' h p target
           end
       end.

(** Object.setPrototypeOf(o, p) *)
Definition setPrototypeOf (o p : Value) : M Value :=
  match o with
  | VUndef | VNull =>
      throw (TypeError "Object.setPrototypeOf called on null or undefined")
  | _ =>
      if negb (isObject p || bool_decide (p = VNull))
      then throw (TypeError "Object prototype may only be an Object or null")
      else
        match o with
        | VObj l | VFun l =>
            fun w =>
              let h := heap w in
              match h !! l with
              | Some ob =>
                  if bool_decide (proto ob = p) then (Ret o, w)
                  else if frozen ob
                  then (Throw (TypeError "#<Object> is not extensible"), w)
                  else if inChain (chainFuel h) h p o
                  then (Throw (TypeError "Cyclic __proto__ value"), w)
                  else (Ret o, withHeap (<[l := mkObj p (props ob) (frozen ob)]> h) w)
              | None => (Ret o, w)
              end
        | VIntrinsic _ =>
            fun w => if bool_decide (protoOf (heap w) o = p) then (Ret o, w)
                     else (Throw (TypeError "Immutable prototype object cannot have its prototype set"), w)
        | _ => ret o
        end
  end.

(** WeakMap has / get / set, keyed by object identity. *)
Definition wmHas (m : list (Value * Value)) (k : Value) : bool :=
  bool_decide (k ∈ map fst m).

Fixpoint wmGet (m : list (Value * Value)) (k : Value) : Value :=
  match m with
  | [] => VUndef
  | (k', v) :: rest => if bool_decide (k' = k) then v else wmGet rest k
  end.

Fixpoint wmSet (m : list (Value * Value)) (k v : Value) : list (Value * Value) :=
  match m with
  | [] => [(k, v)]
  | (k', v') :: rest =>
      if bool_decide (k' = k) then (k, v) :: rest else (k', v') :: wmSet rest k v
  end.

(** ** Module constants and the static API of ClassicM *)

(** The symbols minted by the first nine Symbol(...) calls of the file
    (lines 66-80), numbered in evaluation order. *)
Module AccessLevels.
Definition Private : Value := VSym 0.
Definition Protected : Value := VSym 1.
Definition Public : Value := VSym 2.
Definition Static : Value := VSym 3.
End AccessLevels.

Module ClassConfigKeys.
Definition ClassName : Value := VSym 4.
Definition InheritMode : Value := VSym 5.
End ClassConfigKeys.

Module ClassConstants.
Definition CLASS : Value := VSym 6.
Definition ABSTRACT : Value := VSym 7.
Definition FINAL : Value := VSym 8.
End ClassConstants.

(** What reading ClassicM.STATIC, ClassicM.PRIVATE, ... yields. *)
Record Vocabulary : Type := mkVocabulary {
  STATIC : Value;
  PRIVATE : Value;
  PROTECTED : Value;
  PUBLIC : Value;
  CLASSNAME : Value;
  INHERITMODE : Value;
  CLASS : Value;
  ABSTRACT : Value;
  FINAL : Value
}.

(** The getters of lines 486-570. *)
Definition staticAPI (useStrings : bool) : Vocabulary :=
  {| STATIC := if useStrings then VStr "static" else AccessLevels.Static;
     PRIVATE := if useStrings then VStr "private" else AccessLevels.Private;
     PROTECTED := if useStrings then VStr "protected" else AccessLevels.Protected;
     PUBLIC := if useStrings then VStr "public" else AccessLevels.Public;
     CLASSNAME := if useStrings then VStr "className" else ClassConfigKeys.ClassName;
     INHERITMODE := if useStrings then VStr "inheritMode" else ClassConfigKeys.InheritMode;
     CLASS := if useStrings then VStr "cla$$" else ClassConstants.CLASS;
     ABSTRACT := if useStrings then VStr "abstract" else ClassConstants.ABSTRACT;
     FINAL := if useStrings then VStr "final" else ClassConstants.FINAL |}.

(** Before line 452 has run ClassicM carries none of these properties. *)
Definition noStaticAPI : Vocabulary :=
  mkVocabulary VUndef VUndef VUndef VUndef VUndef VUndef VUndef VUndef VUndef.

(** ClassicM.PLACEHOLDER: the static API defines no such property. *)
Definition ClassicM_PLACEHOLDER : Value := VUndef.

(** new Set([...]): insertion order, first occurrence kept. *)
Fixpoint newSet (xs : list Value) : list Value :=
  match xs with
  | [] => []
  | x :: rest => x :: filter (fun y => y <> x) (newSet rest)
  end.

Definition setDelete (x : Value) (s : list Value) : list Value :=
  filter (fun y => y <> x) s.

Definition arg (n : nat) (args : list Value) : Value :=
  match args !! n with Some v => v | None => VUndef end.

(** ToNumber, [None] standing for NaN.  A non-empty string and an object
    are taken as not numeric. *)
Definition toNumber (v : Value) : M (option Z) :=
  match v with
  | VNum z => ret (Some z)
  | VBool true => ret (Some 1%Z)
  | VBool false | VNull => ret (Some 0%Z)
  | VStr s => ret (if String.eqb s EmptyString then Some 0%Z else None)
  | VSym _ => throw (TypeError "Cannot convert a Symbol value to a number")
  | _ => ret None
  end.

Definition numberValue (n : option Z) : Value :=
  match n with Some z => VNum z | None => VNaN end.

Definition readStack : M (list Value) :=
  fun w => match stack w with
           | Some s => (Ret s, w)
           | None => (Throw (ReferenceError "stack is not defined"), w)
           end.

Definition readProxyMap : M (list (Value * Value)) :=
  fun w => match proxyMap w with
           | Some m => (Ret m, w)
           | None => (Throw (ReferenceError "proxyMap is not defined"), w)
           end.

Definition readPVT_DATA : M Value :=
  fun w => match PVT_DATA w with
           | Some v => (Ret v, w)
           | None => (Throw (ReferenceError "PVT_DATA is not defined"), w)
           end.

Definition readPrototype : M Value :=
  fun w => match prototype w with
           | Some v => (Ret v, w)
           | None => (Throw (ReferenceError "prototype is not defined"), w)
           end.

Definition readObj : M Value :=
  fun w => match Obj w with
           | Some v => (Ret v, w)
           | None => (Throw (ReferenceError "Obj is not defined"), w)
           end.

Definition readClassic : M Value :=
  fun w => match Classic w with
           | Some v => (Ret v, w)
           | None => (Throw (ReferenceError "Classic is not defined"), w)
           end.

(** stack.push(x) and stack.pop() *)
Definition stackPush (x : Value) : M unit :=
  s <- readStack ;; fun w => (Ret tt, withStack (s ++ [x]) w).

Definition stackPop : M unit :=
  s <- readStack ;; fun w => (Ret tt, withStack (removelast s) w).

(** A new function object. *)
Definition newFunction (ps : list (Key * Value)) : M Value :=
  fun w =>
    let h := heap w in
    (Ret (VFun (length h)),
     withHeap (h ++ [mkObj (VIntrinsic IObjectPrototype) ps false]) w).

(** A property definition of an object literal under construction. *)
Definition defineOwn (o : Value) (k : Key) (v : Value) : M unit :=
  match o with
  | VObj l | VFun l => fun w => (Ret tt, withHeap (setOwn (heap w) l k v) w)
  | _ => ret tt
  end.

Section Functions.

(** How a function value defined outside the module behaves when applied
    to a receiver and arguments. *)
Variable call : Value -> Value -> list Value -> M Value.

(** The constants of lines 83-85. *)
Variable PLACEHOLDER : Value.
Variable PRIVATE_LAYER : Value.
Variable CLASS_ID : Value.

(** f.call(this, ...args) *)
Definition invoke (f this : Value) (args : list Value) : M Value :=
  match f with
  | VIntrinsic IHasOwnProperty =>
      match this with
      | VUndef | VNull =>
          throw (TypeError "Cannot convert undefined or null to object")
      | _ => fun w => (Ret (VBool (hasOwn (heap w) this (toPropertyKey (arg 0 args)))), w)
      end
  | VIntrinsic IFreeze => freeze (arg 0 args)
  | VFun _ | VIntrinsic IObject => call f this args
  | _ => throw (TypeError "is not a function")
  end.

(** o.hasOwnProperty(k) *)
Definition hasOwnProperty (o k : Value) : M Value :=
  f <- Get o (KStr "hasOwnProperty") ;; invoke f o [k].

(** lines 95-99 *)
Definition getAllKeys (obj : Value) : M (list Key) :=
  names <- getOwnPropertyNames obj ;;
  syms <- getOwnPropertySymbols obj ;;
  ret (names ++ syms).

(** The function that makePvtName evaluates into being (lines 124-130);
    [self] is that function, which its own name denotes in its body.  The
    receiver is taken as it is given: what entering a function does to a
    receiver that is not an object is not modelled. *)
Definition wrapper (self fn : Value) (this : Value) (args : list Value) : M Value :=
  pm <- readProxyMap ;;
  let mapped := wmGet pm this in
  let inst := if truthy mapped then mapped else this in
  stackPush self ;;;
  retval <- invoke fn inst args ;;
  stackPop ;;;
  ret retval.

(** lines 121-161; [name] is the result of makeFnName().  The descriptor
    objects of the defineProperties call are not allocated, and the own
    properties a function expression is born with (length, name,
    prototype) are not modelled: the wrapper holds what lines 133-159
    define. *)
Definition makePvtName (name : string) (fn owner : Value) : M Value :=
  retval <- newFunction [] ;;
  fnName <- Get fn (KStr "name") ;;
  shown <- toStringJS fnName ;;
  bindFn <- newFunction [] ;;
  toStringFn <- newFunction [] ;;
  len <- Get fn (KStr "length") ;;
  defineOwn retval (KStr "displayName") (VStr (shown +:+ " wrapper (as " +:+ name +:+ ")")) ;;;
  defineOwn retval (KStr "owner") owner ;;;
  defineOwn retval (KStr "bind") bindFn ;;;
  defineOwn retval (KStr "toString") toStringFn ;;;
  defineOwn retval (KStr "length") len ;;;
  (fun w => (Ret tt, withOwners (wmSet (owners w) retval owner) w)) ;;;
  ret retval.

(** *** fixupData (lines 206-259) *)

(** The template literal of line 215. *)
Definition duplicateMessage (key : Key) : M string :=
  s <- toStringJS (keyValue key) ;;
  ret ("Class definition contains duplicate key name: " +:+ s).

(** The loop of checkForDuplicates over the keys; [duplicates] is the
    set the closure shares with fixupData. *)
Fixpoint checkKeys (keys : list Key) (duplicates : list Key) : M (list Key) :=
  match keys with
  | [] => ret duplicates
  | key :: rest =>
      if bool_decide (key ∈ duplicates)
      then msg <- duplicateMessage key ;; throw (SyntaxError msg)
      else checkKeys rest (key :: duplicates)
  end.

Definition checkForDuplicates (duplicates : list Key) (obj : Value) : M (list Key) :=
  keys <- getAllKeys obj ;;
  checkKeys keys duplicates.

(** The callback of lines 227-239, threading the duplicate set. *)
Definition visitInstance (data retval : Value) (duplicates : list Key) (entry : Value)
  : M (list Key) :=
  present <- hasOwnProperty data entry ;;
  if truthy present then
    item <- Get data (toPropertyKey entry) ;;
    (if truthy item && negb (String.eqb (typeof item) "object")
     then s <- toStringJS entry ;;
          throw (TypeError ("Expected property " +:+ dquote +:+ "data." +:+ s +:+ dquote +:+ " to be an object."))
     else ret tt) ;;;
    duplicates' <- checkForDuplicates duplicates item ;;
    Put retval (toPropertyKey entry) item ;;;
    ret duplicates'
  else
    Put retval (toPropertyKey entry) VUndef ;;;
    ret duplicates.

(** The callback of lines 244-256. *)
Definition visitStatic (V : Vocabulary) (data retval : Value) (duplicates : list Key)
           (entry : Value) : M (list Key) :=
  statics <- Get data (toPropertyKey (STATIC V)) ;;
  present <- (if truthy statics
              then statics' <- Get data (toPropertyKey (STATIC V)) ;;
                   hasOwnProperty statics' entry
              else ret statics) ;;
  if truthy present then
    statics'' <- Get data (toPropertyKey (STATIC V)) ;;
    item <- Get statics'' (toPropertyKey entry) ;;
    (if truthy item && negb (String.eqb (typeof item) "object")
     then s <- toStringJS entry ;;
          throw (TypeError ("Expected property " +:+ dquote +:+ "data[ClassicM.STATIC]." +:+ s +:+ dquote +:+ " to be an object."))
     else ret tt) ;;;
    duplicates' <- checkForDuplicates duplicates item ;;
    Put retval (toPropertyKey entry) item ;;;
    ret duplicates'
  else
    target <- Get retval (toPropertyKey (STATIC V)) ;;
    Put target (toPropertyKey entry) VUndef ;;;
    ret duplicates.

(** a.forEach(callback) with the duplicate set carried along *)
Fixpoint forEachEntry (visit : list Key -> Value -> M (list Key))
         (entries : list Value) (duplicates : list Key) : M (list Key) :=
  match entries with
  | [] => ret duplicates
  | entry :: rest =>
      duplicates' <- visit duplicates entry ;;
      forEachEntry visit rest duplicates'
  end.

Definition fixupData (V : Vocabulary) (data : Value) : M Value :=
  retval <- newObject [] ;;
  inner <- newObject [] ;;
  defineOwn retval (toPropertyKey (STATIC V)) inner ;;;
  let a := newSet [STATIC V; PRIVATE V; PROTECTED V; PUBLIC V] in
  let duplicates := [] in
  name <- Get data (toPropertyKey (CLASSNAME V)) ;;
  Put retval (toPropertyKey (CLASSNAME V)) (if truthy name then name else VStr "ClassBase") ;;;
  mode <- Get data (toPropertyKey (INHERITMODE V)) ;;
  (if includes [ABSTRACT V; FINAL V; VUndef] mode
   then mode' <- Get data (toPropertyKey (INHERITMODE V)) ;;
        Put retval (toPropertyKey (INHERITMODE V)) mode'
   else Put retval (toPropertyKey (INHERITMODE V)) VUndef) ;;;
  _ <- forEachEntry (visitInstance data retval) a duplicates ;;
  let a := setDelete (STATIC V) a in
  let duplicates := [] in
  statics <- Get retval (toPropertyKey (STATIC V)) ;;
  (if truthy statics
   then _ <- forEachEntry (visitStatic V data retval) a duplicates ;; ret tt
   else ret tt) ;;;
  ret retval.

(** *** The layer connector (lines 261-311) *)

(** lines 261-263: the body is empty, the call yields undefined. *)
Definition validateAccess (obj depth : Value) : M Value := ret VUndef.

(** lines 275-289, the part of connect behind its guard *)
Definition connectBody (obj id : Value) : M unit :=
  w <- getWorld ;;
  let instanceData := wmGet (connections w) obj in
  prototype <- getPrototypeOf obj ;;
  pvt <- readPVT_DATA ;;
  inObj <- In_ (toPropertyKey pvt) obj ;;
  if negb inObj then
    host <- readObj ;;
    freezeFn <- Get host (KStr "freeze") ;;
    layer <- newObject [] ;;
    pvt' <- readPVT_DATA ;;
    record <- newObject [(KStr "count", VNum 1); (KStr "prototype", prototype)] ;;
    defineOwn layer (toPropertyKey pvt') record ;;;
    slot <- Get instanceData (toPropertyKey id) ;;
    defineOwn layer (toPropertyKey id) slot ;;;
    frozenLayer <- invoke freezeFn host [layer] ;;
    _ <- setPrototypeOf obj frozenLayer ;;
    ret tt
  else
    current <- Get obj (toPropertyKey id) ;;
    if negb (String.eqb (typeof current) "object") then
      slot <- Get instanceData (toPropertyKey id) ;;
      Put obj (toPropertyKey id) slot ;;;
      pvt' <- readPVT_DATA ;;
      record <- Get obj (toPropertyKey pvt') ;;
      count <- Get record (KStr "count") ;;
      n <- toNumber count ;;
      Put record (KStr "count") (numberValue (option_map Z.succ n))
    else ret tt.

(** connect with the access check it calls left open. *)
Definition connectGuarded (validate : Value -> Value -> M Value)
           (this obj id : Value) : M unit :=
  ok <- validate this (VNum 1) ;;
  w <- getWorld ;;
  if negb (truthy ok) || negb (wmHas (connections w) obj)
  then throw (TypeError "Inaccessible")
  else connectBody obj id.

(** lines 271-290 *)
Definition connect (this obj id : Value) : M unit :=
  connectGuarded validateAccess this obj id.

(** lines 299-311 *)
Definition disconnect (obj id : Value) : M unit :=
  if includes [VNull; VUndef] id then
    target <- readPrototype ;;
    _ <- setPrototypeOf obj target ;;
    ret tt
  else
    pvt <- readPVT_DATA ;;
    inObj <- In_ (toPropertyKey pvt) obj ;;
    if inObj then
      Put obj (toPropertyKey id) VUndef ;;;
      pvt' <- readPVT_DATA ;;
      record <- Get obj (toPropertyKey pvt') ;;
      count <- Get record (KStr "count") ;;
      n <- toNumber count ;;
      Put record (KStr "count") (numberValue (option_map Z.pred n)) ;;;
      pvt'' <- readPVT_DATA ;;
      record' <- Get obj (toPropertyKey pvt'') ;;
      count' <- Get record' (KStr "count") ;;
      if negb (truthy count') then
        target <- readPrototype ;;
        _ <- setPrototypeOf obj target ;;
        ret tt
      else ret tt
    else ret tt.

(** *** The class factory (lines 387-431) *)

(** eval("()"): the text is not a program, the call raises a
    SyntaxError. *)
Definition evalEmptyParens : M Value :=
  throw (SyntaxError "Unexpected token ')'").

(** The argument switch of lines 389-415: the base and the data in use. *)
Definition arguments (args : list Value) : M (Value * Value) :=
  match args with
  | [] =>
      data <- newObject [] ;;
      ret (VIntrinsic IObject, data)
  | [base] =>
      if String.eqb (typeof base) "function" then
        data <- newObject [] ;;
        ret (base, data)
      else if String.eqb (typeof base) "object" then
        data <- (if truthy base then ret base else newObject []) ;;
        ret (VIntrinsic IObject, data)
      else throw (TypeError "Invalid argument.")
  | base :: data :: _ =>
      (if strictEq (VBool (negb (truthy (VStr (typeof base))))) (VStr "function")
       then throw (TypeError "Parameter 'base' must be a constructor function or undefined.")
       else ret tt) ;;;
      (if negb (truthy data && String.eqb (typeof data) "object")
       then throw (TypeError "Parameter 'base' must be a constructor function or undefined.")
       else ret tt) ;;;
      ret (base, data)
  end.

(** lines 420-422 *)
Definition rejectFinalBase (V : Vocabulary) (base : Value) : M unit :=
  w <- getWorld ;;
  if wmHas (classDefs w) base then
    mode <- Get (wmGet (classDefs w) base) (toPropertyKey (INHERITMODE V)) ;;
    classic <- readClassic ;;
    final <- Get classic (KStr "FINAL") ;;
    if strictEq mode final
    then throw (TypeError "Cannot extend a final class.")
    else ret tt
  else ret tt.

(** ClassicM up to line 431, where the eval call raises; lines 432-631
    are never reached. *)
Definition ClassicM (V : Vocabulary) (args : list Value) : M Value :=
  bd <- arguments args ;;
  let base := fst bd in
  let data := snd bd in
  definition <- fixupData V data ;;
  rejectFinalBase V base ;;;
  name <- Get data (toPropertyKey (CLASSNAME V)) ;;
  let className := if truthy name then name else VStr EmptyString in
  newClass <- evalEmptyParens ;;
  ret newClass.

(** *** The placeholder registry (lines 581-626) *)

Definition init (fn : Value) : M Value :=
  if negb (String.eqb (typeof fn) "function")
  then throw (TypeError "Init must be passed an initialization function!")
  else
    marker <- newObject [] ;;
    inner <- newObject [(KStr "value", VUndef)] ;;
    defineOwn marker (toPropertyKey PLACEHOLDER) inner ;;;
    retval <- freeze marker ;;
    (fun w => (Ret tt, withInitFns (wmSet (initFns w) retval fn) w)) ;;;
    ret retval.

(** The && chain of lines 603-609: the first falsy operand is the
    result. *)
Definition isPlaceHolder (val : Value) : M Value :=
  if negb (truthy val) then ret val else
  if negb (String.eqb (typeof val) "object") then ret (VBool false) else
  isFrz <- isFrozen val ;;
  if negb isFrz then ret (VBool false) else
  names <- getOwnPropertyNames val ;;
  if negb (Nat.eqb (length names) 0) then ret (VBool false) else
  syms <- getOwnPropertySymbols val ;;
  if negb (Nat.eqb (length syms) 1) then ret (VBool false) else
  own <- hasOwnProperty val ClassicM_PLACEHOLDER ;;
  if negb (truthy own) then ret own else
  held <- Get val (toPropertyKey PLACEHOLDER) ;;
  if negb (strictEq held VUndef) then ret (VBool false) else
  w <- getWorld ;;
  ret (VBool (wmHas (initFns w) val)).

Definition getInitValue (placeholder : Value) : M Value :=
  w <- getWorld ;;
  if wmHas (initFns w) placeholder
  then invoke (wmGet (initFns w) placeholder) VUndef []
  else ret VUndef.

End Functions.

(** ** Parsing the file: the declarations of each function body

    A script is checked as a whole before any of it runs.  In one function
    body a name declared with let or const may be declared only once, and
    may not also be a parameter of the function or the name of a function
    declared at the top of that body; a body that breaks the rule makes the
    whole file a SyntaxError.  The file has no var statement.  Blocks,
    arrow functions and the accessors of object literals have scopes of
    their own, which are not listed: an early error in one body already
    rejects the file.  The texts handed to eval on lines 123 and 431 are
    strings while the file is parsed. *)
Module Parse.

Record Body : Type := mkBody {
  fname : string;            (* the function whose body it is *)
  params : list string;
  lexicals : list string;    (* let and const at the top of the body *)
  functions : list string    (* function declarations at the top of the body *)
}.

(** The first name that is declared although it is already taken. *)
Fixpoint firstClash (taken names : list string) : option string :=
  match names with
  | [] => None
  | x :: rest =>
      if bool_decide (x ∈ taken) then Some x else firstClash (x :: taken) rest
  end.

Definition earlyError (b : Body) : option string :=
  firstClash (params b ++ functions b) (lexicals b).

(** The bodies of the file in source order; the first is the file itself,
    which Node wraps in a function of five parameters. *)
Definition bodies : list Body :=
  [ mkBody "cjsminus.js"
      ["exports"; "require"; "module"; "__filename"; "__dirname"]
      ["classDefs"; "initFns"; "owners"; "connections"; "AccessLevels";
       "ClassConfigKeys"; "ClassConstants"; "PLACEHOLDER"; "PRIVATE_LAYER";
       "CLASS_ID"]
      ["getAllKeys"; "makeFnName"; "makePvtName"; "clone"; "fixupData";
       "validateAccess"; "connect"; "disconnect"; "initProtectedPrototype";
       "initPublicPrototype"; "generatePrototypes"; "ClassicM"];
    mkBody "getAllKeys" ["obj"] [] [];
    mkBody "makeFnName" [] [] ["getBigRandom"];
    mkBody "getBigRandom" [] [] [];
    mkBody "makePvtName" ["fn"; "owner"] ["name"; "retval"] [];
    mkBody "bind" ["that"; "args"] [] [];
    mkBody "clone" ["owner"; "dest"; "src"; "isPvt"] [] [];
    mkBody "fixupData" ["data"] ["retval"; "a"; "duplicates"] ["checkForDuplicates"];
    mkBody "checkForDuplicates" ["obj"] ["keys"] [];
    mkBody "validateAccess" ["obj"; "depth"] [] [];
    mkBody "connect" ["obj"; "id"] ["instanceData"; "prototype"] [];
    mkBody "disconnect" ["obj"; "id"] [] [];
    mkBody "initProtectedPrototype" ["pvt"; "src"; "owner"] ["retval"; "keys"]
      ["makeProtectedValueGetter"; "makeProtectedValueSetter"];
    mkBody "makeProtectedValueGetter" ["key"] [] [];
    mkBody "getProtectedValue" [] ["classId"; "retval"] [];
    mkBody "makeProtectedValueSetter" ["key"] [] [];
    mkBody "setProtectedValue" ["value"] ["classId"; "retval"] [];
    mkBody "initPublicPrototype" ["pub"; "src"; "owner"] [] [];
    mkBody "generatePrototypes" ["data"; "base"; "owner"] ["retval"; "pvt"; "key"] [];
    mkBody "ClassicM" ["base"; "data"]
      ["definition"; "className"; "newClass"; "prototypes"] ["newClass"];
    mkBody "newClass" ["args"] [] [];
    mkBody "init" ["fn"] ["retval"] [];
    mkBody "isPlaceHolder" ["val"] [] [];
    mkBody "getInitValue" ["placeholder"] [] [] ].

(** The early error of the first body that has one. *)
Fixpoint firstError (bs : list Body) : option string :=
  match bs with
  | [] => None
  | b :: rest =>
      match earlyError b with
      | Some x => Some x
      | None => firstError rest
      end
  end.

Definition redeclaration (x : string) : Error :=
  SyntaxError ("Identifier '" ++ x ++ "' has already been declared").

End Parse.

(** ** Loading the module: parsing, then the top level of the file
    (lines 42-85)

    Everything below line 85 is a function declaration; the assignment to
    module.exports stands inside the body of ClassicM (line 631). *)
Module TopLevel.

Record ModuleState : Type := mkModuleState {
  declared : list (string * Value);   (* const bindings initialised so far *)
  minted : nat;                       (* symbols minted so far *)
  store : list JSObj;                 (* objects created so far *)
  exported : list (Key * Value)       (* own properties of module.exports *)
}.

Definition T (A : Type) : Type := SE ModuleState A.

(** new WeakMap() *)
Definition newWeakMap : T Value :=
  fun st => (Ret (VObj (length (store st))),
             mkModuleState (declared st) (minted st)
               (store st ++ [mkObj (VIntrinsic IObjectPrototype) [] false])
               (exported st)).

(** Symbol(description): a call mints a fresh symbol. *)
Definition Symbol (description : string) : T Value :=
  fun st => (Ret (VSym (minted st)),
             mkModuleState (declared st) (S (minted st)) (store st) (exported st)).

(** new Symbol(description): Symbol refuses to be constructed. *)
Definition newSymbol (description : string) : T Value :=
  throw (TypeError "Symbol is not a constructor").

Definition objectLiteral (ps : list (Key * Value)) : T Value :=
  fun st => (Ret (VObj (length (store st))),
             mkModuleState (declared st) (minted st)
               (store st ++ [mkObj (VIntrinsic IObjectPrototype) ps false])
               (exported st)).

(** const name = initialiser; *)
Definition const (name : string) (initialiser : T Value) : T unit :=
  v <- initialiser ;;
  fun st => (Ret tt,
             mkModuleState (declared st ++ [(name, v)]) (minted st) (store st)
               (exported st)).

Definition topLevel : T unit :=
  const "classDefs" newWeakMap ;;;
  const "initFns" newWeakMap ;;;
  const "owners" newWeakMap ;;;
  const "connections" newWeakMap ;;;
  const "AccessLevels"
    (private <- Symbol "ClassicJSMinus::PRIVATE" ;;
     protected <- Symbol "ClassicJSMinus::PROTECTED" ;;
     public <- Symbol "ClassicJSMinus::PUBLIC" ;;
     static <- Symbol "ClassicJSMinus::STATIC" ;;
     objectLiteral [(KStr "Private", private); (KStr "Protected", protected);
                    (KStr "Public", public); (KStr "Static", static)]) ;;;
  const "ClassConfigKeys"
    (className <- Symbol "ClassicJSMinus::CLASSNAME" ;;
     inheritMode <- Symbol "ClassicJSMinus::INHERITMODE" ;;
     objectLiteral [(KStr "ClassName", className); (KStr "InheritMode", inheritMode)]) ;;;
  const "ClassConstants"
    (class <- Symbol "ClassicJSMinus::CLASS" ;;
     abstract <- Symbol "ClassicJSMinus::ABSTRACT" ;;
     final <- Symbol "ClassicJSMinus::FINAL" ;;
     objectLiteral [(KStr "CLASS", class); (KStr "ABSTRACT", abstract);
                    (KStr "FINAL", final)]) ;;;
  const "PLACEHOLDER" (newSymbol "ClassicJSMinus::PLACEHOLDER") ;;;
  const "PRIVATE_LAYER" (newSymbol "ClassicJSMinus::PRIVATE_LAYER") ;;;
  const "CLASS_ID" (newSymbol "ClassicJSMinus::CLASS_ID").

(** require("./cjsminus"): parse the file, run the top level, then hand
    module.exports to the caller. *)
Definition require : T (list (Key * Value)) :=
  match Parse.firstError Parse.bodies with
  | Some x => throw (Parse.redeclaration x)
  | None =>
      topLevel ;;;
      fun st => (Ret (exported st), st)
  end.

(** A fresh module record: nothing declared, module.exports empty. *)
Definition fresh (symbolsSoFar : nat) (objects : list JSObj) : ModuleState :=
  mkModuleState [] symbolsSoFar objects [].

End TopLevel.

(** ** Concrete worlds used by the examples *)
Module Examples.

(** No function defined outside the module is involved. *)
Definition noCall : Value -> Value -> list Value -> M Value :=
  fun _ _ _ => ret VUndef.

(** A function that throws the string "boom", whatever it is given. *)
Definition callThrows : Value -> Value -> list Value -> M Value :=
  fun _ _ _ => throw (Raised (VStr "boom")).

(** A function that returns 7 and touches nothing. *)
Definition callSeven : Value -> Value -> list Value -> M Value :=
  fun _ _ _ => ret (VNum 7).

Definition plain (ps : list (Key * Value)) : JSObj :=
  mkObj (VIntrinsic IObjectPrototype) ps false.

Definition emptyWorld : World :=
  mkWorld [] [] [] [] [] None None None None None None.

(** stack = [], proxyMap = new WeakMap() *)
Definition traceWorld : World :=
  mkWorld [] [] [] [] [] (Some []) (Some []) None None None None.

(** An instance (object 3) whose prototype is object 0, registered in
    connections with instance data (object 2) holding the private slot
    (object 1) of the class identified by Symbol 20; PVT_DATA is
    Symbol 10 and Obj is Object. *)
Definition classId : Value := VSym 20.
Definition instance : Value := VObj 3.
Definition instanceWorld : World :=
  mkWorld
    [ plain [(KStr "greet", VNum 7)];
      plain [(KStr "secret", VNum 42)];
      plain [(KSym 20, VObj 1)];
      mkObj (VObj 0) [] false ]
    [] [] [] [(VObj 3, VObj 2)]
    None None (Some (VSym 10)) None (Some (VIntrinsic IObject)) None.

(** An access check that lets every caller through, and one that turns
    every caller away. *)
Definition allowAll (obj depth : Value) : M Value := ret (VBool true).
Definition denyAll (obj depth : Value) : M Value := ret (VBool false).

(** { private: { [s]: 1 }, public: { [s]: 2 } } with s = Symbol 50,
    the definition being object 2. *)
Definition symbolDuplicate : World :=
  withHeap [ plain [(KSym 50, VNum 1)];
             plain [(KSym 50, VNum 2)];
             plain [(KStr "private", VObj 0); (KStr "public", VObj 1)] ]
           emptyWorld.

(** { private: { x: 1 }, public: { x: 2 } } *)
Definition stringDuplicate : World :=
  withHeap [ plain [(KStr "x", VNum 1)];
             plain [(KStr "x", VNum 2)];
             plain [(KStr "private", VObj 0); (KStr "public", VObj 1)] ]
           emptyWorld.

(** { private: 0 }, the definition being object 0 *)
Definition zeroRegion : World :=
  withHeap [ plain [(KStr "private", VNum 0)] ] emptyWorld.

(** The same in token mode: the regions are keyed by the symbols of
    AccessLevels. *)
Definition symbolDuplicateTokens : World :=
  withHeap [ plain [(KSym 50, VNum 1)];
             plain [(KSym 50, VNum 2)];
             plain [(KSym 0, VObj 0); (KSym 2, VObj 1)] ]
           emptyWorld.

(** { public: { a: 1 }, static: { public: { a: 2 } } }, the definition
    being object 3 *)
Definition staticPublic : World :=
  withHeap [ plain [(KStr "a", VNum 1)];
             plain [(KStr "a", VNum 2)];
             plain [(KStr "public", VObj 1)];
             plain [(KStr "public", VObj 0); (KStr "static", VObj 2)] ]
           emptyWorld.

(** { public: { a: 1 }, static: { private: { a: 2 }, public: { a: 3 } } } *)
Definition staticDuplicate : World :=
  withHeap [ plain [(KStr "a", VNum 1)];
             plain [(KStr "a", VNum 2)];
             plain [(KStr "a", VNum 3)];
             plain [(KStr "private", VObj 1); (KStr "public", VObj 2)];
             plain [(KStr "public", VObj 0); (KStr "static", VObj 3)] ]
           emptyWorld.

(** { private: 0, public: { a: 1 }, static: { public: { a: 2 } } }, the
    definition being object 3 *)
Definition mixedRegions : World :=
  withHeap [ plain [(KStr "a", VNum 1)];
             plain [(KStr "a", VNum 2)];
             plain [(KStr "public", VObj 1)];
             plain [(KStr "private", VNum 0); (KStr "public", VObj 0);
                    (KStr "static", VObj 2)] ]
           emptyWorld.

(** A class (function 0) recorded in classDefs with a definition
    (object 1) whose inheritance mode is "final"; the new definition is
    the empty object 2. *)
Definition finalBase : World :=
  mkWorld
    [ plain []; plain [(KStr "inheritMode", VStr "final")]; plain [] ]
    [(VFun 0, VObj 1)] [] [] []
    None None None None None None.

End Examples.

(** ** Vocabulary for stating the properties of fixupData *)

(** The own property [k] of [v], if it has one. *)
Definition ownProp (h : list JSObj) (v : Value) (k : Key) : option Value :=
  lookupProp k (ownProps h v).

(** What the shape test of lines 230 and 247 rejects. *)
Definition malformed (item : Value) : bool :=
  truthy item && negb (String.eqb (typeof item) "object").

Definition nullish (v : Value) : bool :=
  match v with
  | VUndef | VNull => true
  | _ => false
  end.

Definition instanceEntries (V : Vocabulary) : list Value :=
  [STATIC V; PRIVATE V; PROTECTED V; PUBLIC V].

Definition staticEntries (V : Vocabulary) : list Value :=
  [PRIVATE V; PROTECTED V; PUBLIC V].

(** The regions present in [holder], in the order the entries are visited. *)
Definition regions (h : list JSObj) (holder : Value) (entries : list Value)
  : list Value :=
  omap (fun entry => ownProp h holder (toPropertyKey entry)) entries.

(** The keys getAllKeys lists for [item]. *)
Definition keysOf (h : list JSObj) (item : Value) : list Key :=
  filter (fun k => isStringKey k = true) (map fst (ownProps h item))
  ++ filter (fun k => isStringKey k = false) (map fst (ownProps h item)).

Definition levelKeys (h : list JSObj) (items : list Value) : list Key :=
  concat (map (keysOf h) items).

(** An object literal that does not redefine hasOwnProperty. *)
Definition plainObject (h : list JSObj) (v : Value) : Prop :=
  exists l o, v = VObj l /\ h !! l = Some o
              /\ proto o = VIntrinsic IObjectPrototype
              /\ lookupProp (KStr "hasOwnProperty") (props o) = None.

Definition inStore (h : list JSObj) (v : Value) : Prop :=
  match v with
  | VObj l | VFun l => l < length h
  | _ => True
  end.

(** One level of a definition written as nested object literals: the
    holder is a plain object, none of its regions is null, undefined or the
    holder itself, and no key occurs twice among the keys of its regions. *)
Record cleanLevel (h : list JSObj) (holder : Value) (entries : list Value)
  : Prop := mkCleanLevel {
  level_holder : plainObject h holder;
  level_regions :
    Forall (fun item => nullish item = false /\ inStore h item /\ item <> holder)
           (regions h holder entries);
  level_names : NoDup (levelKeys h (regions h holder entries))
}.

(** Some region that fixupData visits is truthy and not of typeof object:
    at instance level, or inside a truthy STATIC. *)
Definition malformedRegion (V : Vocabulary) (h : list JSObj) (data : Value)
  : Prop :=
  Exists (fun item => malformed item = true) (regions h data (instanceEntries V))
  \/ exists statics,
       ownProp h data (toPropertyKey (STATIC V)) = Some statics
       /\ truthy statics = true
       /\ Exists (fun item => malformed item = true)
                 (regions h statics (staticEntries V)).

(** The first key of [keys], read from the left, that is in [seen] or
    occurred before it in [keys]. *)
Fixpoint firstDuplicate (seen keys : list Key) : option Key :=
  match keys with
  | [] => None
  | key :: rest =>
      if bool_decide (key ∈ seen) then Some key
      else firstDuplicate (key :: seen) rest
  end.

(** What the throw statement of line 215 raises for a repeated key: the
    SyntaxError for a string, and for a symbol the TypeError of the
    conversion its message needs. *)
Definition duplicateError (key : Key) : Error :=
  match key with
  | KStr s => SyntaxError ("Class definition contains duplicate key name: " +:+ s)
  | KSym _ => TypeError "Cannot convert a Symbol value to a string"
  end.

(** Every region of the level passes the shape test and can be listed:
    none is null, undefined, malformed or the holder itself. *)
Definition wellShaped (h : list JSObj) (holder : Value) (entries : list Value)
  : Prop :=
  Forall (fun item => nullish item = false /\ inStore h item /\ item <> holder
                      /\ malformed item = false)
         (regions h holder entries).

(** The store while fixupData scans the instance level: the caller's
    objects are as they were, and the result object sits right behind
    them. *)
Definition scanning (h h' : list JSObj) : Prop :=
  (forall l o, h !! l = Some o -> h' !! l = Some o)
  /\ exists oR, h' !! length h = Some oR
                /\ proto oR = VIntrinsic IObjectPrototype /\ frozen oR = false.

(** The store while the static level is scanned: the STATIC object (at [s])
    may have gained properties, but none under a key of [keep]; the
    definition (at [d]) still names it, and so does the result. *)
Definition scanningStatic (V : Vocabulary) (h : list JSObj) (d s : nat)
           (oS : JSObj) (keep : list Key) (h' : list JSObj) : Prop :=
  (forall l o, h !! l = Some o -> l <> s -> h' !! l = Some o)
  /\ (exists oS', h' !! s = Some oS'
                  /\ proto oS' = VIntrinsic IObjectPrototype
                  /\ frozen oS' = frozen oS
                  /\ forall k, k ∈ keep -> lookupProp k (props oS') = lookupProp k (props oS))
  /\ (exists od', h' !! d = Some od'
                  /\ lookupProp (toPropertyKey (STATIC V)) (props od') = Some (VObj s))
  /\ (exists oR, h' !! length h = Some oR
                 /\ proto oR = VIntrinsic IObjectPrototype /\ frozen oR = false
                 /\ lookupProp (toPropertyKey (STATIC V)) (props oR) = Some (VObj s)).

(** ** Further vocabulary *)

(** ** The settings behind the static API (lines 458-570)

    [TRIGGER] and [useStrings] are assigned and read by the accessors of
    the static API but declared nowhere in the file: the assignment of a
    setter creates the global binding, and a read before it raises a
    ReferenceError. *)
Module StaticAPI.

Record Settings : Type := mkSettings {
  TRIGGER : option Value;
  useStrings : option Value
}.

Definition A (T : Type) : Type := SE Settings T.

Definition readTRIGGER : A Value :=
  fun st => match TRIGGER st with
            | Some v => (Ret v, st)
            | None => (Throw (ReferenceError "TRIGGER is not defined"), st)
            end.

Definition readUseStrings : A Value :=
  fun st => match useStrings st with
            | Some v => (Ret v, st)
            | None => (Throw (ReferenceError "useStrings is not defined"), st)
            end.

(** lines 460-469; v.length is read off the string itself. *)
Definition getPrivateAccessSpecifier : A Value := readTRIGGER.

Definition setPrivateAccessSpecifier (v : Value) : A unit :=
  if String.eqb (typeof v) "string"
     && strictEq (getV [] v (KStr "length")) (VNum 1)
     && includes [VStr "_"; VStr "$"] v
  then fun st => (Ret tt, mkSettings (Some v) (useStrings st))
  else throw (TypeError "Invalid private access specifier. Not altered.").

(** lines 478-479 *)
Definition getUseStrings : A Value := readUseStrings.

Definition setUseStrings (v : Value) : A unit :=
  fun st => (Ret tt, mkSettings (TRIGGER st) (Some (VBool (negb (negb (truthy v)))))).

(** The getters of lines 486-570, each reading [useStrings] anew. *)
Definition getSTATIC : A Value :=
  u <- readUseStrings ;; ret (if truthy u then VStr "static" else AccessLevels.Static).
Definition getPRIVATE : A Value :=
  u <- readUseStrings ;; ret (if truthy u then VStr "private" else AccessLevels.Private).
Definition getPROTECTED : A Value :=
  u <- readUseStrings ;; ret (if truthy u then VStr "protected" else AccessLevels.Protected).
Definition getPUBLIC : A Value :=
  u <- readUseStrings ;; ret (if truthy u then VStr "public" else AccessLevels.Public).
Definition getCLASSNAME : A Value :=
  u <- readUseStrings ;; ret (if truthy u then VStr "className" else ClassConfigKeys.ClassName).
Definition getINHERITMODE : A Value :=
  u <- readUseStrings ;;
  ret (if truthy u then VStr "inheritMode" else ClassConfigKeys.InheritMode).
Definition getCLASS : A Value :=
  u <- readUseStrings ;; ret (if truthy u then VStr "cla$$" else ClassConstants.CLASS).
Definition getABSTRACT : A Value :=
  u <- readUseStrings ;; ret (if truthy u then VStr "abstract" else ClassConstants.ABSTRACT).
Definition getFINAL : A Value :=
  u <- readUseStrings ;; ret (if truthy u then VStr "final" else ClassConstants.FINAL).

(** Reading the nine constants one after the other. *)
Definition vocabulary : A Vocabulary :=
  static <- getSTATIC ;;
  private <- getPRIVATE ;;
  protected <- getPROTECTED ;;
  public <- getPUBLIC ;;
  className <- getCLASSNAME ;;
  inheritMode <- getINHERITMODE ;;
  class <- getCLASS ;;
  abstract <- getABSTRACT ;;
  final <- getFINAL ;;
  ret (mkVocabulary static private protected public className inheritMode class
         abstract final).

(** Neither identifier bound: the state before any setter has run. *)
Definition unset : Settings := mkSettings None None.

End StaticAPI.

(** The own properties of the result object as lines 207-225 leave it. *)
Definition preludeProps (V : Vocabulary) (h : list JSObj) (data : Value)
  : list (Key * Value) :=
  updateProp (toPropertyKey (INHERITMODE V))
    (if includes [ABSTRACT V; FINAL V; VUndef] (getV h data (toPropertyKey (INHERITMODE V)))
     then getV h data (toPropertyKey (INHERITMODE V)) else VUndef)
    (updateProp (toPropertyKey (CLASSNAME V))
       (if truthy (getV h data (toPropertyKey (CLASSNAME V)))
        then getV h data (toPropertyKey (CLASSNAME V)) else VStr "ClassBase")
       [(toPropertyKey (STATIC V), VObj (S (length h)))]).

(** [w'] differs from [w] at most in the object store: the WeakMaps of
    lines 42-61 and the bindings of the undeclared identifiers are the
    same. *)
Definition storeOnly (w w' : World) : Prop := w' = withHeap (heap w') w.

(** A computation that touches nothing but the object store. *)
Definition frames {A : Type} (m : M A) : Prop := forall w, storeOnly w (snd (m w)).

(** The first connection of an instance (lines 278-284): the layer, its
    record, and the store once both are allocated behind the objects of [h]
    and the layer is the prototype of the instance at [l]. *)
Definition layerObject (h : list JSObj) (pvt id slot : Value) : JSObj :=
  mkObj (VIntrinsic IObjectPrototype)
    (updateProp (toPropertyKey id) slot [(toPropertyKey pvt, VObj (S (length h)))]) true.

Definition layerRecord (o : JSObj) : JSObj :=
  mkObj (VIntrinsic IObjectPrototype)
    [(KStr "count", VNum 1); (KStr "prototype", proto o)] false.

Definition connectedStore (h : list JSObj) (l : nat) (o : JSObj) (pvt id slot : Value)
  : list JSObj :=
  <[l := mkObj (VObj (length h)) (props o) false]>
    (h ++ [layerObject h pvt id slot; layerRecord o]).




(** * Properties *)

Lemma removelast_snoc {A : Type} (s : list A) (x : A) : removelast (s ++ [x]) = s.
Proof. apply removelast_last. Qed.

Lemma bind_ret_l {S A B : Type} (m : SE S A) (f : A -> SE S B) (w w' : S) (a : A) :
  m w = (Ret a, w') -> bind m f w = f a w'.
Proof. intros H. unfold bind. now rewrite H. Qed.

Lemma bind_throw_l {S A B : Type} (m : SE S A) (f : A -> SE S B) (w w' : S) (e : Error) :
  m w = (Throw e, w') -> bind m f w = (Throw e, w').
Proof. intros H. unfold bind. now rewrite H. Qed.

Lemma lookup_middle2 {A : Type} (h : list A) (a b : A) :
  (h ++ [a; b]) !! length h = Some a.
Proof. now rewrite list_lookup_middle. Qed.

Lemma insert_middle2 {A : Type} (h : list A) (a b c : A) :
  <[length h := c]> (h ++ [a; b]) = h ++ [c; b].
Proof. rewrite insert_app_r_alt by lia. now rewrite Nat.sub_diag. Qed.

(** ** The function identity wrapper *)

Lemma stackPush_bound (x : Value) (w : World) (s : list Value) :
  stack w = Some s -> stackPush x w = (Ret tt, withStack (s ++ [x]) w).
Proof. intros H. unfold stackPush, bind, readStack. now rewrite H. Qed.

Lemma stackPop_bound (w : World) (s : list Value) :
  stack w = Some s -> stackPop w = (Ret tt, withStack (removelast s) w).
Proof. intros H. unfold stackPop, bind, readStack. now rewrite H. Qed.

(** C1, as the code has it: with the trace and the substitution table bound,
    the wrapper pushes its own identity before it applies fn; when fn
    returns having left the trace as it found it, the identity is popped and
    the trace is exactly what it was before the call; when fn throws, the
    exception leaves the wrapper at once and nothing is popped. *)
Theorem wrapper_trace_discipline
        (call : Value -> Value -> list Value -> M Value)
        (self fn this : Value) (args : list Value)
        (w : World) (s : list Value) (pm : list (Value * Value)) :
  stack w = Some s ->
  proxyMap w = Some pm ->
  let inst := if truthy (wmGet pm this) then wmGet pm this else this in
  let entered := withStack (s ++ [self]) w in
  (forall v w1,
      invoke call fn inst args entered = (Ret v, w1) ->
      stack w1 = Some (s ++ [self]) ->
      wrapper call self fn this args w = (Ret v, withStack s w1)
      /\ stack (withStack s w1) = stack w)
  /\ (forall e w1,
      invoke call fn inst args entered = (Throw e, w1) ->
      wrapper call self fn this args w = (Throw e, w1)).
Proof.
  intros Hs Hpm inst entered. split.
  - intros v w1 Hfn Hbal. split; [|now rewrite Hs].
    unfold wrapper.
    erewrite bind_ret_l by (unfold readProxyMap; rewrite Hpm; reflexivity).
    erewrite bind_ret_l by (apply stackPush_bound; exact Hs).
    erewrite bind_ret_l by exact Hfn.
    erewrite bind_ret_l by (apply stackPop_bound; exact Hbal).
    now rewrite removelast_snoc.
  - intros e w1 Hfn. unfold wrapper.
    erewrite bind_ret_l by (unfold readProxyMap; rewrite Hpm; reflexivity).
    erewrite bind_ret_l by (apply stackPush_bound; exact Hs).
    now erewrite bind_throw_l by exact Hfn.
Qed.

Lemma wrapper_trace_discipline_witness :
  wrapper Examples.callSeven (VFun 0) (VFun 1) VUndef [] Examples.traceWorld
  = (Ret (VNum 7), withStack [] (withStack [VFun 0] Examples.traceWorld))
  /\ wrapper Examples.callThrows (VFun 0) (VFun 1) VUndef [] Examples.traceWorld
     = (Throw (Raised (VStr "boom")), withStack [VFun 0] Examples.traceWorld).
Proof.
  split.
  - apply (wrapper_trace_discipline Examples.callSeven (VFun 0) (VFun 1) VUndef []
             Examples.traceWorld [] [] eq_refl eq_refl); reflexivity.
  - apply (wrapper_trace_discipline Examples.callThrows (VFun 0) (VFun 1) VUndef []
             Examples.traceWorld [] [] eq_refl eq_refl); reflexivity.
Defined.

(** C1 as stated fails: a wrapped function that throws leaves the wrapper's
    identity on the trace, which is then not what it was before the call. *)
Lemma wrapper_throw_keeps_identity :
  let w := Examples.traceWorld in
  let r := wrapper Examples.callThrows (VFun 0) (VFun 1) VUndef [] w in
  fst r = Throw (Raised (VStr "boom"))
  /\ stack w = Some []
  /\ stack (snd r) = Some [VFun 0]
  /\ stack (snd r) <> stack w.
Proof. cbv. repeat split; discriminate. Qed.

(** ** The layer connector *)

(** C2: connect goes past its guard only when the access check gives a
    truthy answer; when the answer is falsy it throws TypeError
    "Inaccessible" and changes nothing.  validateAccess, whose body is empty,
    answers undefined, so connect as written throws for every caller and
    leaves the world, the instance's prototype chain included, as it was. *)
Theorem connect_requires_access
        (call : Value -> Value -> list Value -> M Value) :
  (forall (validate : Value -> Value -> M Value) this obj id w v w1,
      validate this (VNum 1) w = (Ret v, w1) ->
      truthy v = false ->
      connectGuarded call validate this obj id w
      = (Throw (TypeError "Inaccessible"), w1))
  /\ (forall this obj id w,
      connect call this obj id w = (Throw (TypeError "Inaccessible"), w)).
Proof.
  split.
  - intros validate this obj id w v w1 Hv Hf.
    unfold connectGuarded. erewrite bind_ret_l by exact Hv.
    unfold bind, getWorld. now rewrite Hf.
  - intros. reflexivity.
Qed.

Lemma connect_requires_access_witness :
  connectGuarded Examples.noCall Examples.denyAll VUndef Examples.instance
                 Examples.classId Examples.instanceWorld
  = (Throw (TypeError "Inaccessible"), Examples.instanceWorld).
Proof.
  apply (proj1 (connect_requires_access Examples.noCall)) with (v := VBool false);
    reflexivity.
Defined.

(** With an access check that answers true, the guard lets the registered
    instance through and the first connect installs the frozen layer that
    holds counter 1 and the saved prototype. *)
Example connectGuarded_allowAll :
  let r := connectGuarded Examples.noCall Examples.allowAll VUndef
             Examples.instance Examples.classId Examples.instanceWorld in
  fst r = Ret tt
  /\ protoOf (heap (snd r)) Examples.instance = VObj 4
  /\ isFrozenObj (heap (snd r)) (VObj 4) = true
  /\ getV (heap (snd r)) Examples.instance (KSym 20) = VObj 1.
Proof. vm_compute. repeat split. Qed.

(** ** The definition normalizer *)

(** A symbol-keyed member name repeated in the private and the public
    region is detected, but building the message of the SyntaxError converts
    the symbol to a string, which raises a TypeError, and that is what
    fixupData throws, in string mode and in token mode alike.  The same
    definition with the string name x fails with the duplicate-name
    SyntaxError. *)
Example fixupData_symbol_duplicate :
  fst (fixupData Examples.noCall (staticAPI true) (VObj 2) Examples.symbolDuplicate)
  = Throw (TypeError "Cannot convert a Symbol value to a string")
  /\ fst (fixupData Examples.noCall (staticAPI false) (VObj 2)
            Examples.symbolDuplicateTokens)
     = Throw (TypeError "Cannot convert a Symbol value to a string")
  /\ fst (fixupData Examples.noCall (staticAPI true) (VObj 2) Examples.stringDuplicate)
     = Throw (SyntaxError "Class definition contains duplicate key name: x").
Proof. vm_compute. repeat split. Qed.

(** C5 as stated fails: the private region is present, is not null and is
    not an object (it is the number 0), and fixupData returns normally. *)
Lemma fixupData_accepts_zero_region :
  let w := Examples.zeroRegion in
  let r := fixupData Examples.noCall (staticAPI true) (VObj 0) w in
  hasOwn (heap w) (VObj 0) (KStr "private") = true
  /\ getV (heap w) (VObj 0) (KStr "private") = VNum 0
  /\ VNum 0 <> VNull
  /\ typeof (VNum 0) <> "object"
  /\ fst r = Ret (VObj 1)
  /\ getV (heap (snd r)) (VObj 1) (KStr "private") = VNum 0.
Proof. vm_compute. repeat split; discriminate. Qed.

(** The static level at a concrete definition.  The name a occurs once in
    the instance-level public region (object 0) and once in the public
    region inside STATIC (object 1): no duplicate is reported.  Repeated in
    two regions inside STATIC it is reported.  Line 251 writes the validated
    static region to the instance-level key of the result: the normalized
    definition's public region is the static one, and the instance-level
    region is gone from it. *)
Example fixupData_static_public :
  let w := Examples.staticPublic in
  let r := fixupData Examples.noCall (staticAPI true) (VObj 3) w in
  getV (heap w) (VObj 3) (KStr "public") = VObj 0
  /\ getV (heap w) (VObj 3) (KStr "static") = VObj 2
  /\ getV (heap w) (VObj 2) (KStr "public") = VObj 1
  /\ fst r = Ret (VObj 4)
  /\ getV (heap (snd r)) (VObj 4) (KStr "public") = VObj 1
  /\ getV (heap (snd r)) (VObj 4) (KStr "static") = VObj 2
  /\ fst (fixupData Examples.noCall (staticAPI true) (VObj 4) Examples.staticDuplicate)
     = Throw (SyntaxError "Class definition contains duplicate key name: a").
Proof. vm_compute. repeat split. Qed.

(** ** The shape test of fixupData *)

Lemma getV_own (h : list JSObj) (l : nat) (o : JSObj) (k : Key) (x : Value) :
  h !! l = Some o -> lookupProp k (props o) = Some x -> getV h (VObj l) k = x.
Proof.
  intros Hl Hk. unfold getV, chainFuel. simpl. rewrite Hl, Hk. reflexivity.
Qed.

Lemma getV_plain_absent (h : list JSObj) (l : nat) (o : JSObj) (k : Key) :
  h !! l = Some o -> proto o = VIntrinsic IObjectPrototype ->
  lookupProp k (props o) = None ->
  getV h (VObj l) k
  = match lookupProp k (ownProps h (VIntrinsic IObjectPrototype)) with
    | Some x => x
    | None => VUndef
    end.
Proof.
  intros Hl Hp Hk. unfold getV, chainFuel. simpl. rewrite Hl, Hk, Hp. simpl.
  repeat case_bool_decide; reflexivity.
Qed.

Lemma hasOwnProperty_plain call (w : World) (l : nat) (o : JSObj) (entry : Value) :
  heap w !! l = Some o -> proto o = VIntrinsic IObjectPrototype ->
  lookupProp (KStr "hasOwnProperty") (props o) = None ->
  hasOwnProperty call (VObj l) entry w
  = (Ret (VBool (hasOwn (heap w) (VObj l) (toPropertyKey entry))), w).
Proof.
  intros Hl Hp Hk. unfold hasOwnProperty, bind, Get.
  rewrite (getV_plain_absent _ _ _ _ Hl Hp Hk). reflexivity.
Qed.

Lemma findProp_plain_holder (fuel : nat) (h : list JSObj) (l : nat) (o : JSObj) (k : Key) holder x :
  h !! l = Some o -> proto o = VIntrinsic IObjectPrototype ->
  findProp fuel h (VObj l) k = Some (holder, x) ->
  holder = VObj l \/ holder = VIntrinsic IObjectPrototype.
Proof.
  intros Hl Hp. destruct fuel as [|fuel]; simpl; rewrite Hl.
  - destruct (lookupProp k (props o)); [|discriminate]. intros [= <- _]. now left.
  - destruct (lookupProp k (props o)); [intros [= <- _]; now left|].
    rewrite Hp. destruct fuel; simpl; repeat case_bool_decide; intros [= <- _] || discriminate; now right.
Qed.

Lemma Put_plain (w : World) (l : nat) (o : JSObj) (k : Key) (v : Value) :
  heap w !! l = Some o -> proto o = VIntrinsic IObjectPrototype ->
  Put (VObj l) k v w
  = (Ret tt,
     if frozen o then w
     else withHeap (<[l := mkObj (proto o) (updateProp k v (props o)) (frozen o)]> (heap w)) w).
Proof.
  intros Hl Hp. unfold Put. cbv zeta.
  assert (Hfz : isFrozenObj (heap w) (VObj l) = frozen o) by (simpl; now rewrite Hl).
  rewrite Hfz. destruct (frozen o) eqn:Hf; [reflexivity|].
  rewrite orb_false_l. unfold setOwn. rewrite Hl, Hf.
  destruct (findProp _ _ _ _) as [[holder x]|] eqn:E; [|reflexivity].
  destruct (findProp_plain_holder _ _ _ _ _ _ _ Hl Hp E) as [-> | ->].
  - rewrite Hfz. reflexivity.
  - reflexivity.
Qed.

Lemma getAllKeys_ok (item : Value) (w : World) :
  nullish item = false ->
  getAllKeys item w = (Ret (keysOf (heap w) item), w).
Proof.
  intros Hn. unfold getAllKeys, bind, getOwnPropertyNames, getOwnPropertySymbols.
  destruct item; try discriminate; reflexivity.
Qed.

Lemma checkKeys_ok (keys dups : list Key) (w : World) :
  NoDup (keys ++ dups) ->
  checkKeys keys dups w = (Ret (rev keys ++ dups), w).
Proof.
  revert dups. induction keys as [|k keys IH]; intros dups Hnd; simpl.
  - reflexivity.
  - apply NoDup_cons in Hnd as [Hk Hnd].
    rewrite bool_decide_eq_false_2 by (intros Hin; apply Hk, elem_of_app; now right).
    rewrite IH.
    + now rewrite <- app_assoc.
    + apply NoDup_app in Hnd as (H1 & H2 & H3). apply NoDup_app. repeat split; auto.
      * intros x Hx Hx'. apply elem_of_cons in Hx' as [->|Hx'].
        -- apply Hk, elem_of_app. now left.
        -- now apply (H2 x).
      * apply NoDup_cons. split; auto. intros Hin. apply Hk, elem_of_app. now right.
Qed.

(** toStringJS either yields a string or raises a TypeError. *)
Lemma shape_error_thrown (entry : Value) (f : string -> string) (w : World) :
  exists m, (s <- toStringJS entry ;; throw (A := unit) (TypeError (f s))) w
            = (Throw (TypeError m), w).
Proof.
  unfold bind. destruct entry as [| |[]|z| |s|n|l|l|[]]; simpl; eauto.
Qed.

Lemma Get_object (l : nat) (k : Key) (w : World) :
  Get (VObj l) k w = (Ret (getV (heap w) (VObj l) k), w).
Proof. reflexivity. Qed.

Lemma visitInstance_step call (d n : nat) (od oR : JSObj) (dups : list Key)
      (entry : Value) (w : World) :
  heap w !! d = Some od -> proto od = VIntrinsic IObjectPrototype ->
  lookupProp (KStr "hasOwnProperty") (props od) = None ->
  heap w !! n = Some oR -> proto oR = VIntrinsic IObjectPrototype -> frozen oR = false ->
  match lookupProp (toPropertyKey entry) (props od) with
  | None =>
      visitInstance call (VObj d) (VObj n) dups entry w
      = (Ret dups,
         withHeap (<[n := mkObj (proto oR)
                             (updateProp (toPropertyKey entry) VUndef (props oR))
                             (frozen oR)]> (heap w)) w)
  | Some item =>
      if malformed item
      then exists m, visitInstance call (VObj d) (VObj n) dups entry w
                     = (Throw (TypeError m), w)
      else nullish item = false ->
           NoDup (keysOf (heap w) item ++ dups) ->
           visitInstance call (VObj d) (VObj n) dups entry w
           = (Ret (rev (keysOf (heap w) item) ++ dups),
              withHeap (<[n := mkObj (proto oR)
                                  (updateProp (toPropertyKey entry) item (props oR))
                                  (frozen oR)]> (heap w)) w)
  end.
Proof.
  intros Hd Hpd Hhd Hn Hpn Hfn. unfold visitInstance.
  erewrite bind_ret_l by (eapply hasOwnProperty_plain; eauto).
  unfold hasOwn, ownProps. rewrite Hd.
  destruct (lookupProp (toPropertyKey entry) (props od)) as [item|] eqn:Hitem;
    cbn [truthy]; cbv iota.
  - assert (Hget : Get (VObj d) (toPropertyKey entry) w = (Ret item, w)).
    { rewrite Get_object. now rewrite (getV_own _ _ _ _ _ Hd Hitem). }
    destruct (malformed item) eqn:Hm.
    + destruct (shape_error_thrown entry
                  (fun s => "Expected property " +:+ dquote +:+ "data." +:+ s +:+ dquote +:+ " to be an object.") w)
        as [m Hthrow].
      exists m. erewrite bind_ret_l by exact Hget.
      change (truthy item && negb (String.eqb (typeof item) "object")) with (malformed item).
      rewrite Hm. now erewrite bind_throw_l by exact Hthrow.
    + intros Hnull Hnd.
      erewrite bind_ret_l by exact Hget.
      change (truthy item && negb (String.eqb (typeof item) "object")) with (malformed item).
      rewrite Hm.
      erewrite bind_ret_l by reflexivity.
      unfold checkForDuplicates.
      erewrite bind_ret_l
        by (erewrite bind_ret_l by (now apply getAllKeys_ok); now apply checkKeys_ok).
      erewrite bind_ret_l by (eapply Put_plain; eauto).
      rewrite Hfn. reflexivity.
  - erewrite bind_ret_l by (eapply Put_plain; eauto).
    rewrite Hfn. reflexivity.
Qed.

Lemma lookupProp_updateProp (k k' : Key) (v : Value) (ps : list (Key * Value)) :
  lookupProp k (updateProp k' v ps)
  = if bool_decide (k' = k) then Some v else lookupProp k ps.
Proof.
  induction ps as [|[k0 v0] ps IH]; simpl.
  - reflexivity.
  - destruct (bool_decide (k0 = k')) eqn:E0; simpl.
    + apply bool_decide_eq_true in E0. subst k0.
      destruct (bool_decide (k' = k)); reflexivity.
    + apply bool_decide_eq_false in E0.
      destruct (bool_decide (k0 = k)) eqn:E1.
      * apply bool_decide_eq_true in E1. subst k0.
        now rewrite bool_decide_eq_false_2.
      * exact IH.
Qed.

Lemma scanning_ownProps (h h' : list JSObj) (item : Value) :
  scanning h h' -> inStore h item -> ownProps h' item = ownProps h item.
Proof.
  intros [Hext _] Hin. destruct item; try reflexivity; simpl in *.
  - destruct (lookup_lt_is_Some_2 h l Hin) as [o Ho]. now rewrite Ho, (Hext _ _ Ho).
  - destruct (lookup_lt_is_Some_2 h l Hin) as [o Ho]. now rewrite Ho, (Hext _ _ Ho).
Qed.

Lemma scanning_keysOf (h h' : list JSObj) (item : Value) :
  scanning h h' -> inStore h item -> keysOf h' item = keysOf h item.
Proof. intros Hs Hin. unfold keysOf. now rewrite (scanning_ownProps _ _ _ Hs Hin). Qed.

Lemma scanning_write (h h' : list JSObj) (oR : JSObj) (ps : list (Key * Value)) :
  scanning h h' -> h' !! length h = Some oR ->
  scanning h (<[length h := mkObj (VIntrinsic IObjectPrototype) ps false]> h').
Proof.
  intros [Hext _] HoR. split.
  - intros l o Ho. rewrite list_lookup_insert_ne; [now apply Hext|].
    apply lookup_lt_Some in Ho. lia.
  - eexists. rewrite list_lookup_insert_eq by (now apply lookup_lt_Some in HoR).
    split; [reflexivity|]. now split.
Qed.

Lemma ownProp_stored (h : list JSObj) (l : nat) (o : JSObj) (k : Key) :
  h !! l = Some o -> ownProp h (VObj l) k = lookupProp k (props o).
Proof. intros Hl. unfold ownProp, ownProps. now rewrite Hl. Qed.

Lemma regions_cons (h : list JSObj) (holder e : Value) (es : list Value) :
  regions h holder (e :: es)
  = match ownProp h holder (toPropertyKey e) with
    | Some item => item :: regions h holder es
    | None => regions h holder es
    end.
Proof. reflexivity. Qed.

Lemma NoDup_step (ks rest dups : list Key) :
  NoDup ((ks ++ rest) ++ dups) -> NoDup (ks ++ dups) /\ NoDup (rest ++ rev ks ++ dups).
Proof.
  intros H. split.
  - apply (sublist_NoDup _ _ H).
    apply sublist_app; [|reflexivity]. apply sublist_inserts_r. reflexivity.
  - assert (Hp : rest ++ rev ks ++ dups ≡ₚ (ks ++ rest) ++ dups).
    { rewrite <- (Permutation_rev ks). rewrite app_assoc.
      now rewrite (Permutation_app_comm rest ks). }
    now rewrite Hp.
Qed.

Lemma instance_loop call (h : list JSObj) (d : nat) (od : JSObj) (es : list Value) :
  h !! d = Some od -> proto od = VIntrinsic IObjectPrototype ->
  lookupProp (KStr "hasOwnProperty") (props od) = None ->
  NoDup (map toPropertyKey es) ->
  Forall (fun item => nullish item = false /\ inStore h item) (regions h (VObj d) es) ->
  forall dups w,
    scanning h (heap w) ->
    NoDup (levelKeys h (regions h (VObj d) es) ++ dups) ->
    (Exists (fun item => malformed item = true) (regions h (VObj d) es) ->
     exists m w',
       forEachEntry (visitInstance call (VObj d) (VObj (length h))) es dups w
       = (Throw (TypeError m), w'))
    /\ (~ Exists (fun item => malformed item = true) (regions h (VObj d) es) ->
        exists dups' w',
          forEachEntry (visitInstance call (VObj d) (VObj (length h))) es dups w
          = (Ret dups', w')
          /\ scanning h (heap w')
          /\ (forall k, k ∉ map toPropertyKey es ->
                ownProp (heap w') (VObj (length h)) k
                = ownProp (heap w) (VObj (length h)) k)
          /\ (forall e, e ∈ es ->
                ownProp (heap w') (VObj (length h)) (toPropertyKey e)
                = Some (default VUndef (ownProp h (VObj d) (toPropertyKey e))))).
Proof.
  intros Hd Hpd Hhd. induction es as [|e es IH]; intros Hkeys Hreg dups w Hscan Hnd.
  - split.
    + intros Hex. inversion Hex.
    + intros _. exists dups, w. split; [reflexivity|]. split; [exact Hscan|].
      split; [reflexivity|]. intros e He. inversion He.
  - apply NoDup_cons in Hkeys as [Hke Hkeys].
    destruct Hscan as [Hext (oR & HoR & HpR & HfR)].
    pose proof (visitInstance_step call d (length h) od oR dups e w
                  (Hext _ _ Hd) Hpd Hhd HoR HpR HfR) as Hstep.
    rewrite regions_cons, (ownProp_stored _ _ _ _ Hd) in *.
    assert (Hscan' : forall x,
               scanning h (heap (withHeap
                 (<[length h := mkObj (proto oR) (updateProp (toPropertyKey e) x (props oR))
                                      (frozen oR)]> (heap w)) w))).
    { intros x. simpl. rewrite HpR, HfR. eapply scanning_write; eauto. split; eauto. }
    assert (Hwritten : forall x k,
               ownProp (heap (withHeap
                 (<[length h := mkObj (proto oR) (updateProp (toPropertyKey e) x (props oR))
                                      (frozen oR)]> (heap w)) w)) (VObj (length h)) k
               = if bool_decide (toPropertyKey e = k) then Some x
                 else ownProp (heap w) (VObj (length h)) k).
    { intros x k. unfold ownProp, ownProps. simpl.
      rewrite list_lookup_insert_eq by (now apply lookup_lt_Some in HoR).
      rewrite HoR. simpl. apply lookupProp_updateProp. }
    destruct (lookupProp (toPropertyKey e) (props od)) as [item|] eqn:Hitem.
    + apply Forall_cons in Hreg as [[Hnull Hin] Hreg].
      destruct (malformed item) eqn:Hm.
      * split.
        -- intros _. destruct Hstep as [m Hstep]. exists m, w.
           simpl. now erewrite bind_throw_l by exact Hstep.
        -- intros Hno. exfalso. apply Hno. now apply Exists_cons_hd.
      * unfold levelKeys in Hnd. simpl in Hnd.
        apply NoDup_step in Hnd as [Hnd1 Hnd2].
        assert (Hk : keysOf (heap w) item = keysOf h item).
        { apply scanning_keysOf; auto. split; eauto. }
        rewrite Hk in Hstep. specialize (Hstep Hnull Hnd1).
        destruct (IH Hkeys Hreg _ _ (Hscan' item) Hnd2) as [IH1 IH2].
        split.
        -- intros Hex. apply Exists_cons in Hex as [Hex|Hex]; [congruence|].
           destruct (IH1 Hex) as (m & w' & Hrun). exists m, w'.
           simpl. now erewrite bind_ret_l by exact Hstep.
        -- intros Hno.
           destruct IH2 as (dups' & w' & Hrun & Hs & Hframe & Hwr).
           { intros Hex. apply Hno. now apply Exists_cons_tl. }
           exists dups', w'. split; [simpl; now erewrite bind_ret_l by exact Hstep|].
           split; [exact Hs|]. split.
           ++ intros k Hk'. rewrite Hframe, Hwritten.
              ** rewrite bool_decide_eq_false_2; [reflexivity|].
                 intros <-. apply Hk'. simpl. apply list_elem_of_here.
              ** intros Hin'. apply Hk'. simpl. now apply list_elem_of_further.
           ++ intros e' He'. apply elem_of_cons in He' as [->|He'].
              ** rewrite Hframe by exact Hke. rewrite Hwritten.
                 rewrite bool_decide_eq_true_2 by reflexivity.
                 now rewrite (ownProp_stored _ _ _ _ Hd), Hitem.
              ** now apply Hwr.
    + destruct (IH Hkeys Hreg _ _ (Hscan' VUndef) Hnd) as [IH1 IH2].
      split.
      * intros Hex. destruct (IH1 Hex) as (m & w' & Hrun). exists m, w'.
        simpl. now erewrite bind_ret_l by exact Hstep.
      * intros Hno.
        destruct (IH2 Hno) as (dups' & w' & Hrun & Hs & Hframe & Hwr).
        exists dups', w'. split; [simpl; now erewrite bind_ret_l by exact Hstep|].
        split; [exact Hs|]. split.
        -- intros k Hk'. rewrite Hframe, Hwritten.
           ++ rewrite bool_decide_eq_false_2; [reflexivity|].
              intros <-. apply Hk'. simpl. apply list_elem_of_here.
           ++ intros Hin'. apply Hk'. simpl. now apply list_elem_of_further.
        -- intros e' He'. apply elem_of_cons in He' as [->|He'].
           ++ rewrite Hframe by exact Hke. rewrite Hwritten.
              rewrite bool_decide_eq_true_2 by reflexivity.
                 now rewrite (ownProp_stored _ _ _ _ Hd), Hitem.
           ++ now apply Hwr.
Qed.

Section StaticScan.

Variable call : Value -> Value -> list Value -> M Value.
Variable V : Vocabulary.
Variable h : list JSObj.
Variables d s : nat.
Variables od oS : JSObj.

Hypothesis data_stored : h !! d = Some od.
Hypothesis statics_stored : h !! s = Some oS.
Hypothesis statics_method : lookupProp (KStr "hasOwnProperty") (props oS) = None.

Lemma scanningStatic_ownProps (keep : list Key) (h' : list JSObj) (item : Value) :
  scanningStatic V h d s oS keep h' -> inStore h item -> item <> VObj s ->
  nullish item = false -> malformed item = false ->
  ownProps h' item = ownProps h item.
Proof.
  intros (Hext & _) Hin Hne Hnull Hm. destruct item; try reflexivity; simpl in *.
  - destruct (lookup_lt_is_Some_2 h l Hin) as [o Ho].
    rewrite Ho, (Hext _ _ Ho); [reflexivity|]. congruence.
  - discriminate.
Qed.

Lemma scanningStatic_weaken (keep keep' : list Key) (h' : list JSObj) :
  scanningStatic V h d s oS keep h' -> keep' ⊆ keep -> scanningStatic V h d s oS keep' h'.
Proof.
  intros (Hext & (oS' & HoS' & HpS' & HfS' & Hkeep) & Hd & HR) Hsub.
  split; [exact Hext|]. split; [|now split].
  exists oS'. repeat split; auto.
Qed.

Lemma visitStatic_step (keep : list Key) (dups : list Key) (entry : Value) (w : World) :
  scanningStatic V h d s oS keep (heap w) ->
  (toPropertyKey (STATIC V)) ∈ keep -> KStr "hasOwnProperty" ∈ keep -> toPropertyKey entry ∈ keep ->
  toPropertyKey entry <> (toPropertyKey (STATIC V)) ->
  match lookupProp (toPropertyKey entry) (props oS) with
  | None =>
      exists w', visitStatic call V (VObj d) (VObj (length h)) dups entry w = (Ret dups, w')
                 /\ forall keep', keep' ⊆ keep -> toPropertyKey entry ∉ keep' ->
                                  scanningStatic V h d s oS keep' (heap w')
  | Some item =>
      if malformed item
      then exists m, visitStatic call V (VObj d) (VObj (length h)) dups entry w
                     = (Throw (TypeError m), w)
      else nullish item = false -> inStore h item -> item <> VObj s ->
           NoDup (keysOf h item ++ dups) ->
           exists w', visitStatic call V (VObj d) (VObj (length h)) dups entry w
                      = (Ret (rev (keysOf h item) ++ dups), w')
                      /\ forall keep', keep' ⊆ keep -> scanningStatic V h d s oS keep' (heap w')
  end.
Proof.
  intros Hscan HkS Hhop Hke Hne.
  pose proof Hscan as (Hext & (oS' & HoS' & HpS' & HfS' & Hkeep) & (od' & Hod' & Hdata) & (oR & HoR & HpR & HfR & HR)).
  assert (Hget : Get (VObj d) (toPropertyKey (STATIC V)) w = (Ret (VObj s), w)).
  { rewrite Get_object. now rewrite (getV_own _ _ _ _ _ Hod' Hdata). }
  assert (Hhas : hasOwnProperty call (VObj s) entry w
                 = (Ret (VBool (hasOwn (heap w) (VObj s) (toPropertyKey entry))), w)).
  { eapply hasOwnProperty_plain; eauto. rewrite Hkeep by exact Hhop. exact statics_method. }
  assert (Hown : hasOwn (heap w) (VObj s) (toPropertyKey entry)
                 = match lookupProp (toPropertyKey entry) (props oS) with
                   | Some _ => true | None => false end).
  { unfold hasOwn, ownProps. rewrite HoS'. now rewrite Hkeep by exact Hke. }
  assert (Hsn : s <> length h) by (apply lookup_lt_Some in statics_stored; lia).
  unfold visitStatic.
  erewrite bind_ret_l by exact Hget. cbn [truthy]. cbv iota.
  erewrite bind_ret_l
    by (erewrite bind_ret_l by exact Hget; exact Hhas).
  rewrite Hown.
  destruct (lookupProp (toPropertyKey entry) (props oS)) as [item|] eqn:Hitem;
    cbn [truthy]; cbv iota.
  - assert (Hget' : Get (VObj s) (toPropertyKey entry) w = (Ret item, w)).
    { rewrite Get_object. rewrite (getV_own _ _ _ _ item HoS'); [reflexivity|].
      now rewrite Hkeep by exact Hke. }
    erewrite bind_ret_l by exact Hget.
    erewrite bind_ret_l by exact Hget'.
    change (truthy item && negb (String.eqb (typeof item) "object")) with (malformed item).
    destruct (malformed item) eqn:Hm; cbv iota.
    + destruct (shape_error_thrown entry
                  (fun s => "Expected property " +:+ dquote +:+ "data[ClassicM.STATIC]." +:+ s +:+ dquote +:+ " to be an object.") w)
        as [m Hthrow].
      exists m. now erewrite bind_throw_l by exact Hthrow.
    + intros Hnull Hin Hns Hnd.
      erewrite bind_ret_l by reflexivity.
      unfold checkForDuplicates.
      assert (Hk : keysOf (heap w) item = keysOf h item).
      { unfold keysOf. now rewrite (scanningStatic_ownProps keep _ _ Hscan Hin Hns Hnull Hm). }
      erewrite bind_ret_l
        by (erewrite bind_ret_l by (now apply getAllKeys_ok); rewrite Hk; now apply checkKeys_ok).
      erewrite bind_ret_l by (eapply Put_plain; eauto).
      rewrite HfR. eexists. split; [reflexivity|].
      intros keep' Hsub. simpl.
      assert (Hlen : length h < length (heap w)) by (now apply lookup_lt_Some in HoR).
      split; [|split; [|split]].
      * intros l o Ho Hl. rewrite list_lookup_insert_ne; [now apply Hext|].
        apply lookup_lt_Some in Ho. lia.
      * exists oS'. rewrite list_lookup_insert_ne by auto. repeat split; auto.
      * exists od'. rewrite list_lookup_insert_ne; [auto|].
        apply lookup_lt_Some in data_stored. lia.
      * eexists. rewrite list_lookup_insert_eq by exact Hlen.
        split; [reflexivity|]. simpl. repeat split; auto.
        rewrite lookupProp_updateProp. now rewrite bool_decide_eq_false_2.
  - assert (HgetR : Get (VObj (length h)) (toPropertyKey (STATIC V)) w = (Ret (VObj s), w)).
    { rewrite Get_object. now rewrite (getV_own _ _ _ _ _ HoR HR). }
    erewrite bind_ret_l by exact HgetR.
    erewrite bind_ret_l by (eapply Put_plain; eauto).
    eexists. split; [reflexivity|].
    intros keep' Hsub Hnotin.
    destruct (frozen oS') eqn:Hfz; [now apply (scanningStatic_weaken keep)|].
    simpl.
    assert (Hlen : s < length (heap w)) by (now apply lookup_lt_Some in HoS').
    split; [|split; [|split]].
    + intros l o Ho Hl. rewrite list_lookup_insert_ne by auto. now apply Hext.
    + eexists. rewrite list_lookup_insert_eq by exact Hlen.
      split; [reflexivity|]. simpl. split; [exact HpS'|]. split; [congruence|].
      intros k Hk. rewrite lookupProp_updateProp.
      rewrite bool_decide_eq_false_2 by (intros <-; contradiction).
      apply Hkeep. now apply Hsub.
    + destruct (decide (d = s)) as [Hds|Hds].
      * eexists. rewrite Hds, list_lookup_insert_eq by exact Hlen.
        split; [reflexivity|]. simpl.
        rewrite lookupProp_updateProp, bool_decide_eq_false_2 by exact Hne.
        rewrite Hds in Hod'. congruence.
      * exists od'. now rewrite list_lookup_insert_ne by auto.
    + exists oR. rewrite list_lookup_insert_ne by auto. repeat split; auto.
Qed.

Lemma static_loop (es : list Value) :
  NoDup ((toPropertyKey (STATIC V)) :: KStr "hasOwnProperty" :: map toPropertyKey es) ->
  Forall (fun item => nullish item = false /\ inStore h item /\ item <> VObj s)
         (regions h (VObj s) es) ->
  forall dups w,
    scanningStatic V h d s oS ((toPropertyKey (STATIC V)) :: KStr "hasOwnProperty" :: map toPropertyKey es) (heap w) ->
    NoDup (levelKeys h (regions h (VObj s) es) ++ dups) ->
    (Exists (fun item => malformed item = true) (regions h (VObj s) es) ->
     exists m w',
       forEachEntry (visitStatic call V (VObj d) (VObj (length h))) es dups w
       = (Throw (TypeError m), w'))
    /\ (~ Exists (fun item => malformed item = true) (regions h (VObj s) es) ->
        exists dups' w',
          forEachEntry (visitStatic call V (VObj d) (VObj (length h))) es dups w
          = (Ret dups', w')).
Proof.
  induction es as [|e es IH]; intros Hkeys Hreg dups w Hscan Hnd.
  - split.
    + intros Hex. inversion Hex.
    + intros _. exists dups, w. reflexivity.
  - set (keep := (toPropertyKey (STATIC V)) :: KStr "hasOwnProperty" :: map toPropertyKey (e :: es)) in *.
    set (keep' := (toPropertyKey (STATIC V)) :: KStr "hasOwnProperty" :: map toPropertyKey es).
    assert (Hsub : keep' ⊆ keep).
    { intros k Hk. unfold keep, keep' in *. simpl.
      rewrite !elem_of_cons in Hk. rewrite !elem_of_cons. tauto. }
    assert (Hkeys' : NoDup keep' /\ (toPropertyKey e ∉ keep')
                     /\ toPropertyKey e <> toPropertyKey (STATIC V)).
    { unfold keep, keep' in *. simpl in Hkeys.
      rewrite !NoDup_cons in Hkeys. rewrite !NoDup_cons.
      rewrite !not_elem_of_cons in Hkeys. rewrite !not_elem_of_cons.
      destruct Hkeys as [[H1 [H2 H3]] [[H4 H5] [H6 H7]]]. repeat split; auto. }
    destruct Hkeys' as (Hnd' & Hnotin & Hne).
    pose proof (visitStatic_step keep dups e w Hscan) as Hstep.
    assert (HkS : (toPropertyKey (STATIC V)) ∈ keep) by (unfold keep; apply list_elem_of_here).
    assert (Hhop : KStr "hasOwnProperty" ∈ keep)
      by (unfold keep; apply list_elem_of_further, list_elem_of_here).
    assert (Hke : toPropertyKey e ∈ keep)
      by (unfold keep; simpl; do 2 apply list_elem_of_further; apply list_elem_of_here).
    specialize (Hstep HkS Hhop Hke Hne).
    rewrite regions_cons, (ownProp_stored _ _ _ _ statics_stored) in *.
    destruct (lookupProp (toPropertyKey e) (props oS)) as [item|] eqn:Hitem.
    + apply Forall_cons in Hreg as [(Hnull & Hin & Hns) Hreg].
      destruct (malformed item) eqn:Hm.
      * split.
        -- intros _. destruct Hstep as [m Hstep]. exists m, w.
           simpl. now erewrite bind_throw_l by exact Hstep.
        -- intros Hno. exfalso. apply Hno. now apply Exists_cons_hd.
      * unfold levelKeys in Hnd. simpl in Hnd.
        apply NoDup_step in Hnd as [Hnd1 Hnd2].
        destruct (Hstep Hnull Hin Hns Hnd1) as (w1 & Hrun1 & Hscan1).
        destruct (IH Hnd' Hreg _ _ (Hscan1 keep' Hsub) Hnd2) as [IH1 IH2].
        split.
        -- intros Hex. apply Exists_cons in Hex as [Hex|Hex]; [congruence|].
           destruct (IH1 Hex) as (m & w' & Hrun). exists m, w'.
           simpl. now erewrite bind_ret_l by exact Hrun1.
        -- intros Hno. destruct IH2 as (dups' & w' & Hrun).
           { intros Hex. apply Hno. now apply Exists_cons_tl. }
           exists dups', w'. simpl. now erewrite bind_ret_l by exact Hrun1.
    + destruct Hstep as (w1 & Hrun1 & Hscan1).
      destruct (IH Hnd' Hreg _ _ (Hscan1 keep' Hsub Hnotin) Hnd) as [IH1 IH2].
      split.
      * intros Hex. destruct (IH1 Hex) as (m & w' & Hrun). exists m, w'.
        simpl. now erewrite bind_ret_l by exact Hrun1.
      * intros Hno. destruct (IH2 Hno) as (dups' & w' & Hrun).
        exists dups', w'. simpl. now erewrite bind_ret_l by exact Hrun1.
Qed.

End StaticScan.

Lemma entries_newSet (b : bool) :
  newSet (instanceEntries (staticAPI b)) = instanceEntries (staticAPI b).
Proof. destruct b; vm_compute; reflexivity. Qed.

Lemma entries_setDelete (b : bool) :
  setDelete (STATIC (staticAPI b)) (instanceEntries (staticAPI b))
  = staticEntries (staticAPI b).
Proof. destruct b; vm_compute; reflexivity. Qed.

Lemma entries_keys (b : bool) :
  NoDup (toPropertyKey (STATIC (staticAPI b)) :: KStr "hasOwnProperty"
         :: map toPropertyKey (staticEntries (staticAPI b))).
Proof. destruct b; apply (bool_decide_unpack _); vm_compute; exact I. Qed.

Lemma entries_instance_keys (b : bool) :
  NoDup (map toPropertyKey (instanceEntries (staticAPI b))).
Proof. destruct b; apply (bool_decide_unpack _); vm_compute; exact I. Qed.

Lemma Put_retval (h : list JSObj) (k : Key) (v : Value) (w : World) :
  scanning h (heap w) ->
  exists w', Put (VObj (length h)) k v w = (Ret tt, w') /\ scanning h (heap w').
Proof.
  intros Hscan. pose proof Hscan as [Hext (oR & HoR & HpR & HfR)].
  eexists. split; [eapply Put_plain; eauto|].
  rewrite HpR, HfR. simpl. eapply scanning_write; eauto.
Qed.

(** The statements of lines 207-225 leave the caller's objects alone. *)
Lemma fixupData_prelude (V : Vocabulary) (d : nat) (od : JSObj) (w : World)
      (k : Value -> M Value) :
  heap w !! d = Some od ->
  exists w1,
    scanning (heap w) (heap w1)
    /\ (retval <- newObject [] ;;
        inner <- newObject [] ;;
        defineOwn retval (toPropertyKey (STATIC V)) inner ;;;
        name <- Get (VObj d) (toPropertyKey (CLASSNAME V)) ;;
        Put retval (toPropertyKey (CLASSNAME V))
            (if truthy name then name else VStr "ClassBase") ;;;
        mode <- Get (VObj d) (toPropertyKey (INHERITMODE V)) ;;
        (if includes [ABSTRACT V; FINAL V; VUndef] mode
         then mode' <- Get (VObj d) (toPropertyKey (INHERITMODE V)) ;;
              Put retval (toPropertyKey (INHERITMODE V)) mode'
         else Put retval (toPropertyKey (INHERITMODE V)) VUndef) ;;;
        k retval) w
       = k (VObj (length (heap w))) w1.
Proof.
  intros Hd.
  set (h := heap w).
  set (wA := withHeap (<[length h := mkObj (VIntrinsic IObjectPrototype)
                                     [(toPropertyKey (STATIC V), VObj (S (length h)))] false]>
                        (h ++ [mkObj (VIntrinsic IObjectPrototype) [] false;
                               mkObj (VIntrinsic IObjectPrototype) [] false])) w).
  assert (HA : scanning h (heap wA)).
  { unfold wA. simpl. rewrite insert_middle2. split.
    - intros l o Ho. now apply lookup_app_l_Some.
    - eexists. rewrite lookup_middle2. repeat split. }
  destruct (Put_retval h (toPropertyKey (CLASSNAME V))
              (if truthy (getV (heap wA) (VObj d) (toPropertyKey (CLASSNAME V)))
               then getV (heap wA) (VObj d) (toPropertyKey (CLASSNAME V))
               else VStr "ClassBase") wA HA) as (wB & HputB & HB).
  assert (HC : exists wC,
             (if includes [ABSTRACT V; FINAL V; VUndef]
                          (getV (heap wB) (VObj d) (toPropertyKey (INHERITMODE V)))
              then mode' <- Get (VObj d) (toPropertyKey (INHERITMODE V)) ;;
                   Put (VObj (length h)) (toPropertyKey (INHERITMODE V)) mode'
              else Put (VObj (length h)) (toPropertyKey (INHERITMODE V)) VUndef) wB
             = (Ret tt, wC) /\ scanning h (heap wC)).
  { destruct (includes _ _).
    - destruct (Put_retval h (toPropertyKey (INHERITMODE V))
                  (getV (heap wB) (VObj d) (toPropertyKey (INHERITMODE V))) wB HB)
        as (wC & HputC & HC).
      exists wC. split; [|exact HC].
      now erewrite bind_ret_l by apply Get_object.
    - destruct (Put_retval h (toPropertyKey (INHERITMODE V)) VUndef wB HB)
        as (wC & HputC & HC).
      now exists wC. }
  destruct HC as (wC & HrunC & HC).
  exists wC. split; [exact HC|].
  erewrite bind_ret_l by reflexivity.
  erewrite bind_ret_l by reflexivity.
  erewrite (bind_ret_l _ _ _ wA tt).
  2:{ unfold defineOwn, setOwn, wA. simpl. fold h.
      rewrite <- app_assoc. simpl. rewrite lookup_middle2.
      rewrite length_app. simpl. now rewrite Nat.add_1_r. }
  erewrite bind_ret_l by apply Get_object.
  erewrite bind_ret_l by exact HputB.
  erewrite bind_ret_l by apply Get_object.
  erewrite bind_ret_l by exact HrunC.
  reflexivity.
Qed.

Lemma malformed_false_object (item : Value) :
  malformed item = false -> truthy item = true -> typeof item = "object".
Proof.
  unfold malformed. intros Hm Ht. rewrite Ht in Hm. simpl in Hm.
  apply negb_false_iff in Hm. now apply String.eqb_eq in Hm.
Qed.

Lemma fixupData_outcome call (useStrings : bool) (data : Value) (w : World) :
  let V := staticAPI useStrings in
  let h := heap w in
  cleanLevel h data (instanceEntries V) ->
  (forall statics,
      ownProp h data (toPropertyKey (STATIC V)) = Some statics ->
      truthy statics = true -> typeof statics = "object" ->
      cleanLevel h statics (staticEntries V)) ->
  (malformedRegion V h data ->
   exists m w', fixupData call V data w = (Throw (TypeError m), w'))
  /\ (~ malformedRegion V h data ->
      exists retval w', fixupData call V data w = (Ret retval, w')).
Proof.
  intros V h; subst V; revert h; intros h [(d & od & -> & Hd & Hpd & Hhd) Hreg Hnames] Hstatics.
  set (k := fun retval : Value =>
              _ <- forEachEntry (visitInstance call (VObj d) retval)
                     (newSet [STATIC (staticAPI useStrings); PRIVATE (staticAPI useStrings); PROTECTED (staticAPI useStrings); PUBLIC (staticAPI useStrings)]) [] ;;
              statics <- Get retval (toPropertyKey (STATIC (staticAPI useStrings))) ;;
              (if truthy statics
               then _ <- forEachEntry (visitStatic call (staticAPI useStrings) (VObj d) retval)
                           (setDelete (STATIC (staticAPI useStrings))
                              (newSet [STATIC (staticAPI useStrings); PRIVATE (staticAPI useStrings); PROTECTED (staticAPI useStrings); PUBLIC (staticAPI useStrings)])) [] ;;
                    ret tt
               else ret tt) ;;;
              ret retval).
  destruct (fixupData_prelude (staticAPI useStrings) d od w k Hd) as (w1 & Hscan1 & Hrun).
  assert (Hfix : fixupData call (staticAPI useStrings) (VObj d) w = k (VObj (length h)) w1) by exact Hrun.
  rewrite Hfix. clear Hfix Hrun. unfold k. clear k.
  change [STATIC (staticAPI useStrings); PRIVATE (staticAPI useStrings); PROTECTED (staticAPI useStrings); PUBLIC (staticAPI useStrings)] with (instanceEntries (staticAPI useStrings)).
  rewrite !entries_newSet, entries_setDelete.
  assert (Hreg1 : Forall (fun item => nullish item = false /\ inStore h item)
                         (regions h (VObj d) (instanceEntries (staticAPI useStrings)))).
  { eapply Forall_impl; [exact Hreg|]. intros x (H1 & H2 & _). now split. }
  assert (Hnd1 : NoDup (levelKeys h (regions h (VObj d) (instanceEntries (staticAPI useStrings))) ++ [])).
  { now rewrite app_nil_r. }
  destruct (instance_loop call h d od (instanceEntries (staticAPI useStrings)) Hd Hpd Hhd
              (entries_instance_keys useStrings) Hreg1 [] w1 Hscan1 Hnd1) as [L1 L2].
  destruct (decide (Exists (fun item => malformed item = true)
                           (regions h (VObj d) (instanceEntries (staticAPI useStrings))))) as [Hbad|Hgood].
  { split.
    - intros _. destruct (L1 Hbad) as (m & w' & Hthrow).
      exists m, w'. now erewrite bind_throw_l by exact Hthrow.
    - intros Hno. exfalso. apply Hno. now left. }
  destruct (L2 Hgood) as (dups1 & w2 & Hrun1 & Hscan2 & _ & Hwritten).
  erewrite bind_ret_l by exact Hrun1.
  pose proof Hscan2 as [Hext2 (oR & HoR & HpR & HfR)].
  assert (HgetS : Get (VObj (length h)) (toPropertyKey (STATIC (staticAPI useStrings))) w2
                  = (Ret (default VUndef (ownProp h (VObj d) (toPropertyKey (STATIC (staticAPI useStrings))))), w2)).
  { rewrite Get_object. erewrite getV_own; [reflexivity|exact HoR|].
    rewrite <- (ownProp_stored _ _ _ _ HoR). apply Hwritten. apply list_elem_of_here. }
  erewrite bind_ret_l by exact HgetS.
  destruct (ownProp h (VObj d) (toPropertyKey (STATIC (staticAPI useStrings)))) as [S|] eqn:HS; simpl default.
  2:{ cbn [truthy]. cbv iota. split.
      - intros [Hbad|(S & HS' & _)]; [contradiction|congruence].
      - intros _. eexists _, _. reflexivity. }
  destruct (truthy S) eqn:HtS; cbv iota.
  2:{ split.
      - intros [Hbad|(S' & HS' & HtS' & _)]; [contradiction|congruence].
      - intros _. eexists _, _. reflexivity. }
  assert (HmS : malformed S = false).
  { destruct (malformed S) eqn:E; [|reflexivity]. exfalso. apply Hgood.
    unfold instanceEntries. rewrite regions_cons, HS. now apply Exists_cons_hd. }
  destruct (Hstatics S eq_refl HtS (malformed_false_object S HmS HtS))
    as [(s & oS & -> & HsS & HpS & HhS) HregS HnamesS].
  assert (HdS : lookupProp (toPropertyKey (STATIC (staticAPI useStrings))) (props od) = Some (VObj s)).
  { now rewrite <- (ownProp_stored _ _ _ _ Hd). }
  assert (HscanS : scanningStatic (staticAPI useStrings) h d s oS
                     (toPropertyKey (STATIC (staticAPI useStrings)) :: KStr "hasOwnProperty"
                      :: map toPropertyKey (staticEntries (staticAPI useStrings))) (heap w2)).
  { split; [intros l o Ho _; now apply Hext2|].
    split; [exists oS; repeat split; auto|].
    split; [exists od; split; auto|].
    exists oR. repeat split; auto.
    rewrite <- (ownProp_stored _ _ _ _ HoR).
    rewrite (Hwritten (STATIC (staticAPI useStrings))) by apply list_elem_of_here.
    now rewrite HS. }
  assert (HndS : NoDup (levelKeys h (regions h (VObj s) (staticEntries (staticAPI useStrings))) ++ [])).
  { now rewrite app_nil_r. }
  destruct (static_loop call (staticAPI useStrings) h d s od oS Hd HsS HhS (staticEntries (staticAPI useStrings))
              (entries_keys useStrings) HregS [] w2 HscanS HndS) as [S1 S2].
  destruct (decide (Exists (fun item => malformed item = true)
                           (regions h (VObj s) (staticEntries (staticAPI useStrings))))) as [HbadS|HgoodS].
  - split.
    + intros _. destruct (S1 HbadS) as (m & w' & Hthrow).
      exists m, w'.
      erewrite bind_throw_l; [reflexivity|].
      now erewrite bind_throw_l by exact Hthrow.
    + intros Hno. exfalso. apply Hno. right. exists (VObj s). auto.
  - split.
    + intros [Hbad|(S' & HS' & _ & HbadS)]; [contradiction|].
      exfalso. apply HgoodS. congruence.
    + intros _. destruct (S2 HgoodS) as (dups2 & w3 & Hrun2).
      eexists _, _.
      erewrite bind_ret_l; [reflexivity|].
      now erewrite bind_ret_l by exact Hrun2.
Qed.

Lemma malformedRegion_dec (V : Vocabulary) (h : list JSObj) (data : Value) :
  malformedRegion V h data \/ ~ malformedRegion V h data.
Proof.
  unfold malformedRegion.
  destruct (decide (Exists (fun item => malformed item = true)
                           (regions h data (instanceEntries V)))) as [Hbad|Hgood];
    [now left; left|].
  destruct (ownProp h data (toPropertyKey (STATIC V))) as [statics|] eqn:HS.
  - destruct (truthy statics) eqn:Ht.
    + destruct (decide (Exists (fun item => malformed item = true)
                               (regions h statics (staticEntries V)))) as [Hbad|Hgood'].
      * left. right. now exists statics.
      * right. intros [Hbad|(S' & HS' & _ & Hbad)]; [contradiction|].
        apply Hgood'. congruence.
    + right. intros [Hbad|(S' & HS' & Ht' & _)]; [contradiction|congruence].
  - right. intros [Hbad|(S' & HS' & _)]; [contradiction|discriminate].
Qed.

(** C5, as the code has it, with the static API installed (in string mode or
    in token mode).  Take a definition written as nested object literals: the
    definition and a truthy STATIC object are plain objects, no region is
    null or undefined, and no key occurs twice within a level.  Then
    fixupData fails with a TypeError if and only if some region it visits
    (STATIC, PRIVATE, PROTECTED or PUBLIC of the definition, or PRIVATE,
    PROTECTED or PUBLIC inside a truthy STATIC) is present, truthy and not of
    typeof "object"; and it returns normally if and only if there is no such
    region.  A present region that is falsy, such as 0 or false, is
    accepted. *)
Theorem fixupData_shape_error_iff
        (call : Value -> Value -> list Value -> M Value)
        (useStrings : bool) (data : Value) (w : World) :
  let V := staticAPI useStrings in
  let h := heap w in
  cleanLevel h data (instanceEntries V) ->
  (forall statics,
      ownProp h data (toPropertyKey (STATIC V)) = Some statics ->
      truthy statics = true -> typeof statics = "object" ->
      cleanLevel h statics (staticEntries V)) ->
  ((exists m w', fixupData call V data w = (Throw (TypeError m), w'))
   <-> malformedRegion V h data)
  /\ ((exists retval w', fixupData call V data w = (Ret retval, w'))
      <-> ~ malformedRegion V h data).
Proof.
  intros V h Hclean Hstatics.
  destruct (fixupData_outcome call useStrings data w Hclean Hstatics) as [Hthrow Hret].
  split; split.
  - intros (m & w' & Hrun).
    destruct (malformedRegion_dec V h data) as [Hbad|Hgood]; [exact Hbad|].
    destruct (Hret Hgood) as (retval & w'' & Hrun'). fold V in Hrun'. congruence.
  - exact Hthrow.
  - intros (retval & w' & Hrun) Hbad.
    destruct (Hthrow Hbad) as (m & w'' & Hrun'). fold V in Hrun'. congruence.
  - exact Hret.
Qed.

Lemma fixupData_shape_error_iff_witness :
  ((exists m w',
       fixupData Examples.noCall (staticAPI true) (VObj 3) Examples.mixedRegions
       = (Throw (TypeError m), w'))
   <-> malformedRegion (staticAPI true) (heap Examples.mixedRegions) (VObj 3))
  /\ ((exists retval w',
         fixupData Examples.noCall (staticAPI true) (VObj 3) Examples.mixedRegions
         = (Ret retval, w'))
      <-> ~ malformedRegion (staticAPI true) (heap Examples.mixedRegions) (VObj 3)).
Proof.
  apply (fixupData_shape_error_iff Examples.noCall true (VObj 3) Examples.mixedRegions).
  - split.
    + exists 3, (Examples.plain [(KStr "private", VNum 0); (KStr "public", VObj 0);
                                 (KStr "static", VObj 2)]).
      repeat split.
    + vm_compute. repeat constructor; simpl; try lia; discriminate.
    + apply (bool_decide_unpack _). vm_compute. exact I.
  - intros statics Hs _ _. vm_compute in Hs. injection Hs as <-.
    split.
    + exists 2, (Examples.plain [(KStr "public", VObj 1)]). repeat split.
    + vm_compute. repeat constructor; simpl; try lia; discriminate.
    + apply (bool_decide_unpack _). vm_compute. exact I.
Defined.


(** ** Duplicate names in fixupData *)

Lemma checkKeys_firstDuplicate (keys dups : list Key) (w : World) :
  checkKeys keys dups w
  = match firstDuplicate dups keys with
    | Some key => (Throw (duplicateError key), w)
    | None => (Ret (rev keys ++ dups), w)
    end.
Proof.
  revert dups. induction keys as [|k keys IH]; intros dups; simpl.
  - reflexivity.
  - destruct (bool_decide (k ∈ dups)).
    + destruct k; reflexivity.
    + rewrite IH. destruct (firstDuplicate (k :: dups) keys); [reflexivity|].
      now rewrite <- app_assoc.
Qed.

Lemma firstDuplicate_app (seen ks rest : list Key) :
  firstDuplicate seen (ks ++ rest)
  = match firstDuplicate seen ks with
    | Some key => Some key
    | None => firstDuplicate (rev ks ++ seen) rest
    end.
Proof.
  revert seen. induction ks as [|k ks IH]; intros seen; simpl.
  - reflexivity.
  - destruct (bool_decide (k ∈ seen)); [reflexivity|].
    rewrite IH. destruct (firstDuplicate (k :: seen) ks); [reflexivity|].
    now rewrite <- app_assoc.
Qed.

Lemma visitInstance_present call (d n : nat) (od oR : JSObj) (dups : list Key)
      (entry item : Value) (w : World) :
  heap w !! d = Some od -> proto od = VIntrinsic IObjectPrototype ->
  lookupProp (KStr "hasOwnProperty") (props od) = None ->
  heap w !! n = Some oR -> proto oR = VIntrinsic IObjectPrototype -> frozen oR = false ->
  lookupProp (toPropertyKey entry) (props od) = Some item ->
  malformed item = false -> nullish item = false ->
  visitInstance call (VObj d) (VObj n) dups entry w
  = match firstDuplicate dups (keysOf (heap w) item) with
    | Some key => (Throw (duplicateError key), w)
    | None =>
        (Ret (rev (keysOf (heap w) item) ++ dups),
         withHeap (<[n := mkObj (proto oR)
                             (updateProp (toPropertyKey entry) item (props oR))
                             (frozen oR)]> (heap w)) w)
    end.
Proof.
  intros Hd Hpd Hhd Hn Hpn Hfn Hitem Hm Hnull. unfold visitInstance.
  erewrite bind_ret_l by (eapply hasOwnProperty_plain; eauto).
  unfold hasOwn, ownProps. rewrite Hd, Hitem. cbn [truthy]. cbv iota.
  assert (Hget : Get (VObj d) (toPropertyKey entry) w = (Ret item, w)).
  { rewrite Get_object. now rewrite (getV_own _ _ _ _ _ Hd Hitem). }
  erewrite bind_ret_l by exact Hget.
  change (truthy item && negb (String.eqb (typeof item) "object")) with (malformed item).
  rewrite Hm.
  erewrite bind_ret_l by reflexivity.
  unfold checkForDuplicates.
  pose proof (checkKeys_firstDuplicate (keysOf (heap w) item) dups w) as Hck.
  destruct (firstDuplicate dups (keysOf (heap w) item)) as [key|].
  - erewrite bind_throw_l; [reflexivity|].
    now erewrite bind_ret_l by (now apply getAllKeys_ok).
  - erewrite bind_ret_l
      by (erewrite bind_ret_l by (now apply getAllKeys_ok); exact Hck).
    erewrite bind_ret_l by (eapply Put_plain; eauto).
    rewrite Hfn. reflexivity.
Qed.

Lemma levelKeys_cons (h : list JSObj) (item : Value) (items : list Value) :
  levelKeys h (item :: items) = keysOf h item ++ levelKeys h items.
Proof. reflexivity. Qed.

Lemma instance_loop_duplicates call (h : list JSObj) (d : nat) (od : JSObj)
      (es : list Value) :
  h !! d = Some od -> proto od = VIntrinsic IObjectPrototype ->
  lookupProp (KStr "hasOwnProperty") (props od) = None ->
  Forall (fun item => nullish item = false /\ inStore h item /\ malformed item = false)
         (regions h (VObj d) es) ->
  forall dups w,
    scanning h (heap w) ->
    match firstDuplicate dups (levelKeys h (regions h (VObj d) es)) with
    | Some key =>
        exists w',
          forEachEntry (visitInstance call (VObj d) (VObj (length h))) es dups w
          = (Throw (duplicateError key), w')
    | None =>
        exists w',
          forEachEntry (visitInstance call (VObj d) (VObj (length h))) es dups w
          = (Ret (rev (levelKeys h (regions h (VObj d) es)) ++ dups), w')
          /\ scanning h (heap w')
    end.
Proof.
  intros Hd Hpd Hhd. induction es as [|e es IH]; intros Hreg dups w Hscan.
  - simpl. exists w. now split.
  - pose proof Hscan as [Hext (oR & HoR & HpR & HfR)].
    rewrite regions_cons, (ownProp_stored _ _ _ _ Hd) in *.
    destruct (lookupProp (toPropertyKey e) (props od)) as [item|] eqn:Hitem.
    + apply Forall_cons in Hreg as [(Hnull & Hin & Hm) Hreg].
      rewrite levelKeys_cons, firstDuplicate_app.
      pose proof (visitInstance_present call d (length h) od oR dups e item w
                    (Hext _ _ Hd) Hpd Hhd HoR HpR HfR Hitem Hm Hnull) as Hstep.
      rewrite (scanning_keysOf _ _ _ Hscan Hin) in Hstep.
      destruct (firstDuplicate dups (keysOf h item)) as [key|].
      * exists w. simpl. now erewrite bind_throw_l by exact Hstep.
      * match type of Hstep with _ = (_, ?w1) =>
          assert (Hscan1 : scanning h (heap w1))
            by (simpl; rewrite HpR, HfR; eapply scanning_write; eauto);
          specialize (IH Hreg (rev (keysOf h item) ++ dups) w1 Hscan1)
        end.
        destruct (firstDuplicate (rev (keysOf h item) ++ dups)
                    (levelKeys h (regions h (VObj d) es))) as [key|].
        -- destruct IH as (w' & Hrun). exists w'.
           simpl. now erewrite bind_ret_l by exact Hstep.
        -- destruct IH as (w' & Hrun & Hscan'). exists w'. split; [|exact Hscan'].
           simpl. erewrite bind_ret_l by exact Hstep. rewrite Hrun.
           now rewrite rev_app_distr, <- app_assoc.
    + pose proof (visitInstance_step call d (length h) od oR dups e w
                    (Hext _ _ Hd) Hpd Hhd HoR HpR HfR) as Hstep.
      rewrite Hitem in Hstep.
      match type of Hstep with _ = (_, ?w1) =>
        assert (Hscan1 : scanning h (heap w1))
          by (simpl; rewrite HpR, HfR; eapply scanning_write; eauto);
        specialize (IH Hreg dups w1 Hscan1)
      end.
      destruct (firstDuplicate dups (levelKeys h (regions h (VObj d) es))) as [key|].
      * destruct IH as (w' & Hrun). exists w'.
        simpl. now erewrite bind_ret_l by exact Hstep.
      * destruct IH as (w' & Hrun & Hscan'). exists w'. split; [|exact Hscan'].
        simpl. now erewrite bind_ret_l by exact Hstep.
Qed.

Lemma firstDuplicate_None (seen keys : list Key) :
  firstDuplicate seen keys = None -> NoDup seen -> NoDup (keys ++ seen).
Proof.
  revert seen. induction keys as [|k keys IH]; intros seen Hnone Hseen; simpl in *.
  - exact Hseen.
  - destruct (bool_decide (k ∈ seen)) eqn:Hk; [discriminate|].
    apply bool_decide_eq_false in Hk.
    assert (Hnd : NoDup (keys ++ k :: seen)).
    { apply IH; [exact Hnone|]. now apply NoDup_cons. }
    assert (Hp : k :: keys ++ seen ≡ₚ keys ++ k :: seen) by apply Permutation_middle.
    now rewrite Hp.
Qed.

Section StaticDuplicates.

Variable call : Value -> Value -> list Value -> M Value.
Variable V : Vocabulary.
Variable h : list JSObj.
Variables d s : nat.
Variables od oS : JSObj.

Hypothesis data_stored : h !! d = Some od.
Hypothesis statics_stored : h !! s = Some oS.
Hypothesis statics_method : lookupProp (KStr "hasOwnProperty") (props oS) = None.

Lemma visitStatic_present (keep : list Key) (dups : list Key) (entry item : Value)
      (w : World) :
  scanningStatic V h d s oS keep (heap w) ->
  toPropertyKey (STATIC V) ∈ keep -> KStr "hasOwnProperty" ∈ keep ->
  toPropertyKey entry ∈ keep ->
  toPropertyKey entry <> toPropertyKey (STATIC V) ->
  lookupProp (toPropertyKey entry) (props oS) = Some item ->
  malformed item = false -> nullish item = false ->
  inStore h item -> item <> VObj s ->
  match firstDuplicate dups (keysOf h item) with
  | Some key =>
      visitStatic call V (VObj d) (VObj (length h)) dups entry w
      = (Throw (duplicateError key), w)
  | None =>
      exists w', visitStatic call V (VObj d) (VObj (length h)) dups entry w
                 = (Ret (rev (keysOf h item) ++ dups), w')
                 /\ forall keep', keep' ⊆ keep -> scanningStatic V h d s oS keep' (heap w')
  end.
Proof.
  intros Hscan HkS Hhop Hke Hne Hitem Hm Hnull Hin Hns.
  pose proof Hscan as (Hext & (oS' & HoS' & HpS' & HfS' & Hkeep) & (od' & Hod' & Hdata)
                       & (oR & HoR & HpR & HfR & HR)).
  assert (Hget : Get (VObj d) (toPropertyKey (STATIC V)) w = (Ret (VObj s), w)).
  { rewrite Get_object. now rewrite (getV_own _ _ _ _ _ Hod' Hdata). }
  assert (Hhas : hasOwnProperty call (VObj s) entry w = (Ret (VBool true), w)).
  { erewrite hasOwnProperty_plain; eauto.
    - unfold hasOwn, ownProps. rewrite HoS'. rewrite Hkeep by exact Hke. now rewrite Hitem.
    - rewrite Hkeep by exact Hhop. exact statics_method. }
  assert (Hget' : Get (VObj s) (toPropertyKey entry) w = (Ret item, w)).
  { rewrite Get_object. rewrite (getV_own _ _ _ _ item HoS'); [reflexivity|].
    now rewrite Hkeep by exact Hke. }
  assert (Hk : keysOf (heap w) item = keysOf h item).
  { unfold keysOf. now rewrite (scanningStatic_ownProps V h d s oS keep _ _ Hscan Hin Hns Hnull Hm). }
  assert (Hrun : forall (rest : list Key -> M (list Key)),
             (duplicates' <- checkForDuplicates dups item ;; rest duplicates') w
             = match firstDuplicate dups (keysOf h item) with
               | Some key => (Throw (duplicateError key), w)
               | None => rest (rev (keysOf h item) ++ dups) w
               end).
  { intros rest. unfold checkForDuplicates.
    pose proof (checkKeys_firstDuplicate (keysOf h item) dups w) as Hck.
    destruct (firstDuplicate dups (keysOf h item)) as [key|].
    - erewrite bind_throw_l; [reflexivity|].
      erewrite bind_ret_l by (now apply getAllKeys_ok). now rewrite Hk.
    - erewrite bind_ret_l; [reflexivity|].
      erewrite bind_ret_l by (now apply getAllKeys_ok). now rewrite Hk. }
  unfold visitStatic.
  erewrite bind_ret_l by exact Hget. cbn [truthy]. cbv iota.
  erewrite bind_ret_l by (erewrite bind_ret_l by exact Hget; exact Hhas).
  cbn [truthy]. cbv iota.
  erewrite bind_ret_l by exact Hget.
  erewrite bind_ret_l by exact Hget'.
  change (truthy item && negb (String.eqb (typeof item) "object")) with (malformed item).
  rewrite Hm.
  erewrite bind_ret_l by reflexivity.
  rewrite Hrun.
  destruct (firstDuplicate dups (keysOf h item)) as [key|]; [reflexivity|].
  erewrite bind_ret_l by (eapply Put_plain; eauto).
  rewrite HfR. eexists. split; [reflexivity|].
  intros keep' Hsub. simpl.
  assert (Hlen : length h < length (heap w)) by (now apply lookup_lt_Some in HoR).
  assert (Hsn : s <> length h) by (apply lookup_lt_Some in statics_stored; lia).
  split; [|split; [|split]].
  - intros l o Ho Hl. rewrite list_lookup_insert_ne; [now apply Hext|].
    apply lookup_lt_Some in Ho. lia.
  - exists oS'. rewrite list_lookup_insert_ne by auto. repeat split; auto.
  - exists od'. rewrite list_lookup_insert_ne; [auto|].
    apply lookup_lt_Some in data_stored. lia.
  - eexists. rewrite list_lookup_insert_eq by exact Hlen.
    split; [reflexivity|]. simpl. repeat split; auto.
    rewrite lookupProp_updateProp. now rewrite bool_decide_eq_false_2.
Qed.

Lemma static_loop_duplicates (es : list Value) :
  NoDup (toPropertyKey (STATIC V) :: KStr "hasOwnProperty" :: map toPropertyKey es) ->
  Forall (fun item => nullish item = false /\ inStore h item /\ item <> VObj s
                      /\ malformed item = false)
         (regions h (VObj s) es) ->
  forall dups w key,
    scanningStatic V h d s oS
      (toPropertyKey (STATIC V) :: KStr "hasOwnProperty" :: map toPropertyKey es) (heap w) ->
    firstDuplicate dups (levelKeys h (regions h (VObj s) es)) = Some key ->
    exists w',
      forEachEntry (visitStatic call V (VObj d) (VObj (length h))) es dups w
      = (Throw (duplicateError key), w').
Proof.
  induction es as [|e es IH]; intros Hkeys Hreg dups w key Hscan Hdup.
  - discriminate.
  - set (keep := toPropertyKey (STATIC V) :: KStr "hasOwnProperty"
                 :: map toPropertyKey (e :: es)) in *.
    set (keep' := toPropertyKey (STATIC V) :: KStr "hasOwnProperty" :: map toPropertyKey es).
    assert (Hsub : keep' ⊆ keep).
    { intros k Hk. unfold keep, keep' in *. simpl.
      rewrite !elem_of_cons in Hk. rewrite !elem_of_cons. tauto. }
    assert (Hkeys' : NoDup keep' /\ (toPropertyKey e ∉ keep')
                     /\ toPropertyKey e <> toPropertyKey (STATIC V)).
    { unfold keep, keep' in *. simpl in Hkeys.
      rewrite !NoDup_cons in Hkeys. rewrite !NoDup_cons.
      rewrite !not_elem_of_cons in Hkeys. rewrite !not_elem_of_cons.
      destruct Hkeys as [[H1 [H2 H3]] [[H4 H5] [H6 H7]]]. repeat split; auto. }
    destruct Hkeys' as (Hnd' & Hnotin & Hne).
    assert (HkS : toPropertyKey (STATIC V) ∈ keep) by (unfold keep; apply list_elem_of_here).
    assert (Hhop : KStr "hasOwnProperty" ∈ keep)
      by (unfold keep; apply list_elem_of_further, list_elem_of_here).
    assert (Hke : toPropertyKey e ∈ keep)
      by (unfold keep; simpl; do 2 apply list_elem_of_further; apply list_elem_of_here).
    rewrite regions_cons, (ownProp_stored _ _ _ _ statics_stored) in *.
    destruct (lookupProp (toPropertyKey e) (props oS)) as [item|] eqn:Hitem.
    + apply Forall_cons in Hreg as [(Hnull & Hin & Hns & Hm) Hreg].
      rewrite levelKeys_cons, firstDuplicate_app in Hdup.
      pose proof (visitStatic_present keep dups e item w Hscan HkS Hhop Hke Hne
                    Hitem Hm Hnull Hin Hns) as Hstep.
      destruct (firstDuplicate dups (keysOf h item)) as [key'|].
      * injection Hdup as <-. exists w. simpl. now erewrite bind_throw_l by exact Hstep.
      * destruct Hstep as (w1 & Hrun1 & Hscan1).
        destruct (IH Hnd' Hreg _ _ _ (Hscan1 keep' Hsub) Hdup) as (w' & Hrun).
        exists w'. simpl. now erewrite bind_ret_l by exact Hrun1.
    + pose proof (visitStatic_step call V h d s od oS data_stored statics_stored
                    statics_method keep dups e w Hscan HkS Hhop Hke Hne) as Hstep.
      rewrite Hitem in Hstep. destruct Hstep as (w1 & Hrun1 & Hscan1).
      destruct (IH Hnd' Hreg _ _ _ (Hscan1 keep' Hsub Hnotin) Hdup) as (w' & Hrun).
      exists w'. simpl. now erewrite bind_ret_l by exact Hrun1.
Qed.

End StaticDuplicates.

Lemma fixupData_instance_duplicate
      (call : Value -> Value -> list Value -> M Value)
      (useStrings : bool) (d : nat) (od : JSObj) (w : World) (key : Key) :
  heap w !! d = Some od -> proto od = VIntrinsic IObjectPrototype ->
  lookupProp (KStr "hasOwnProperty") (props od) = None ->
  Forall (fun item => nullish item = false /\ inStore (heap w) item
                      /\ malformed item = false)
         (regions (heap w) (VObj d) (instanceEntries (staticAPI useStrings))) ->
  firstDuplicate [] (levelKeys (heap w)
                       (regions (heap w) (VObj d) (instanceEntries (staticAPI useStrings))))
  = Some key ->
  exists w', fixupData call (staticAPI useStrings) (VObj d) w
             = (Throw (duplicateError key), w').
Proof.
  intros Hd Hpd Hhd Hreg Hdup.
  set (k := fun retval : Value =>
              _ <- forEachEntry (visitInstance call (VObj d) retval)
                     (newSet [STATIC (staticAPI useStrings); PRIVATE (staticAPI useStrings);
                              PROTECTED (staticAPI useStrings); PUBLIC (staticAPI useStrings)]) [] ;;
              statics <- Get retval (toPropertyKey (STATIC (staticAPI useStrings))) ;;
              (if truthy statics
               then _ <- forEachEntry (visitStatic call (staticAPI useStrings) (VObj d) retval)
                           (setDelete (STATIC (staticAPI useStrings))
                              (newSet [STATIC (staticAPI useStrings); PRIVATE (staticAPI useStrings);
                                       PROTECTED (staticAPI useStrings); PUBLIC (staticAPI useStrings)])) [] ;;
                    ret tt
               else ret tt) ;;;
              ret retval).
  destruct (fixupData_prelude (staticAPI useStrings) d od w k Hd) as (w1 & Hscan1 & Hrun).
  assert (Hfix : fixupData call (staticAPI useStrings) (VObj d) w
                 = k (VObj (length (heap w))) w1) by exact Hrun.
  rewrite Hfix. clear Hfix Hrun. unfold k. clear k.
  change [STATIC (staticAPI useStrings); PRIVATE (staticAPI useStrings);
          PROTECTED (staticAPI useStrings); PUBLIC (staticAPI useStrings)]
    with (instanceEntries (staticAPI useStrings)).
  rewrite !entries_newSet.
  pose proof (instance_loop_duplicates call (heap w) d od
                (instanceEntries (staticAPI useStrings)) Hd Hpd Hhd Hreg [] w1 Hscan1) as Hloop.
  rewrite Hdup in Hloop. destruct Hloop as (w' & Hthrow).
  exists w'. now erewrite bind_throw_l by exact Hthrow.
Qed.

Lemma fixupData_static_duplicate
      (call : Value -> Value -> list Value -> M Value)
      (useStrings : bool) (d s : nat) (od oS : JSObj) (w : World) (key : Key) :
  heap w !! d = Some od -> proto od = VIntrinsic IObjectPrototype ->
  lookupProp (KStr "hasOwnProperty") (props od) = None ->
  Forall (fun item => nullish item = false /\ inStore (heap w) item
                      /\ malformed item = false)
         (regions (heap w) (VObj d) (instanceEntries (staticAPI useStrings))) ->
  firstDuplicate [] (levelKeys (heap w)
                       (regions (heap w) (VObj d) (instanceEntries (staticAPI useStrings))))
  = None ->
  lookupProp (toPropertyKey (STATIC (staticAPI useStrings))) (props od) = Some (VObj s) ->
  heap w !! s = Some oS -> proto oS = VIntrinsic IObjectPrototype ->
  lookupProp (KStr "hasOwnProperty") (props oS) = None ->
  Forall (fun item => nullish item = false /\ inStore (heap w) item /\ item <> VObj s
                      /\ malformed item = false)
         (regions (heap w) (VObj s) (staticEntries (staticAPI useStrings))) ->
  firstDuplicate [] (levelKeys (heap w)
                       (regions (heap w) (VObj s) (staticEntries (staticAPI useStrings))))
  = Some key ->
  exists w', fixupData call (staticAPI useStrings) (VObj d) w
             = (Throw (duplicateError key), w').
Proof.
  intros Hd Hpd Hhd Hreg Hnone HS HsS HpS HhS HregS Hdup.
  set (h := heap w) in *.
  set (k := fun retval : Value =>
              _ <- forEachEntry (visitInstance call (VObj d) retval)
                     (newSet [STATIC (staticAPI useStrings); PRIVATE (staticAPI useStrings);
                              PROTECTED (staticAPI useStrings); PUBLIC (staticAPI useStrings)]) [] ;;
              statics <- Get retval (toPropertyKey (STATIC (staticAPI useStrings))) ;;
              (if truthy statics
               then _ <- forEachEntry (visitStatic call (staticAPI useStrings) (VObj d) retval)
                           (setDelete (STATIC (staticAPI useStrings))
                              (newSet [STATIC (staticAPI useStrings); PRIVATE (staticAPI useStrings);
                                       PROTECTED (staticAPI useStrings); PUBLIC (staticAPI useStrings)])) [] ;;
                    ret tt
               else ret tt) ;;;
              ret retval).
  destruct (fixupData_prelude (staticAPI useStrings) d od w k Hd) as (w1 & Hscan1 & Hrun).
  assert (Hfix : fixupData call (staticAPI useStrings) (VObj d) w = k (VObj (length h)) w1)
    by exact Hrun.
  rewrite Hfix. clear Hfix Hrun. unfold k. clear k.
  change [STATIC (staticAPI useStrings); PRIVATE (staticAPI useStrings);
          PROTECTED (staticAPI useStrings); PUBLIC (staticAPI useStrings)]
    with (instanceEntries (staticAPI useStrings)).
  rewrite !entries_newSet, entries_setDelete.
  assert (Hreg1 : Forall (fun item => nullish item = false /\ inStore h item)
                         (regions h (VObj d) (instanceEntries (staticAPI useStrings)))).
  { eapply Forall_impl; [exact Hreg|]. intros x (H1 & H2 & _). now split. }
  assert (Hnd1 : NoDup (levelKeys h (regions h (VObj d)
                                       (instanceEntries (staticAPI useStrings))) ++ [])).
  { apply firstDuplicate_None; [exact Hnone|constructor]. }
  assert (Hgood : ~ Exists (fun item => malformed item = true)
                      (regions h (VObj d) (instanceEntries (staticAPI useStrings)))).
  { intros Hex. apply Exists_exists in Hex as (x & Hx & Hmx).
    rewrite Forall_forall in Hreg. destruct (Hreg x Hx) as (_ & _ & Hm). congruence. }
  destruct (instance_loop call h d od (instanceEntries (staticAPI useStrings)) Hd Hpd Hhd
              (entries_instance_keys useStrings) Hreg1 [] w1 Hscan1 Hnd1) as [_ L2].
  destruct (L2 Hgood) as (dups1 & w2 & Hrun1 & Hscan2 & _ & Hwritten).
  erewrite bind_ret_l by exact Hrun1.
  pose proof Hscan2 as [Hext2 (oR & HoR & HpR & HfR)].
  assert (HwS : lookupProp (toPropertyKey (STATIC (staticAPI useStrings))) (props oR)
                = Some (VObj s)).
  { rewrite <- (ownProp_stored _ _ _ _ HoR).
    rewrite (Hwritten (STATIC (staticAPI useStrings))) by apply list_elem_of_here.
    now rewrite (ownProp_stored _ _ _ _ Hd), HS. }
  assert (HgetS : Get (VObj (length h)) (toPropertyKey (STATIC (staticAPI useStrings))) w2
                  = (Ret (VObj s), w2)).
  { rewrite Get_object. now rewrite (getV_own _ _ _ _ _ HoR HwS). }
  erewrite bind_ret_l by exact HgetS. cbn [truthy]. cbv iota.
  assert (HscanS : scanningStatic (staticAPI useStrings) h d s oS
                     (toPropertyKey (STATIC (staticAPI useStrings)) :: KStr "hasOwnProperty"
                      :: map toPropertyKey (staticEntries (staticAPI useStrings))) (heap w2)).
  { split; [intros l o Ho _; now apply Hext2|].
    split; [exists oS; repeat split; auto|].
    split; [exists od; split; auto|].
    exists oR. repeat split; auto. }
  destruct (static_loop_duplicates call (staticAPI useStrings) h d s od oS Hd HsS HhS
              (staticEntries (staticAPI useStrings)) (entries_keys useStrings) HregS
              [] w2 key HscanS Hdup) as (w' & Hthrow).
  exists w'.
  erewrite bind_throw_l; [reflexivity|].
  now erewrite bind_throw_l by exact Hthrow.
Qed.

(** C4 on the code, with the static API installed (string mode or token
    mode).  Take a definition that is a plain object whose regions all pass
    the shape test.  When some key is repeated among the keys of its
    instance-level regions, fixupData fails with the error of the first
    repeated key it meets: the duplicate-name SyntaxError when that key is a
    string, but a TypeError when it is a symbol, because the message of the
    SyntaxError cannot be built from a symbol.  When no instance-level key
    is repeated and a key is repeated among the regions of a truthy STATIC
    object, the same holds one level down. *)
Theorem fixupData_duplicate_report
        (call : Value -> Value -> list Value -> M Value)
        (useStrings : bool) (data : Value) (w : World) (key : Key) :
  let V := staticAPI useStrings in
  let h := heap w in
  plainObject h data ->
  wellShaped h data (instanceEntries V) ->
  (firstDuplicate [] (levelKeys h (regions h data (instanceEntries V))) = Some key ->
   exists w', fixupData call V data w = (Throw (duplicateError key), w'))
  /\ (forall statics,
        firstDuplicate [] (levelKeys h (regions h data (instanceEntries V))) = None ->
        ownProp h data (toPropertyKey (STATIC V)) = Some statics ->
        truthy statics = true ->
        plainObject h statics ->
        wellShaped h statics (staticEntries V) ->
        firstDuplicate [] (levelKeys h (regions h statics (staticEntries V))) = Some key ->
        exists w', fixupData call V data w = (Throw (duplicateError key), w')).
Proof.
  intros V h (d & od & -> & Hd & Hpd & Hhd) Hshape. subst V h.
  assert (Hreg : Forall (fun item => nullish item = false /\ inStore (heap w) item
                                     /\ malformed item = false)
                        (regions (heap w) (VObj d) (instanceEntries (staticAPI useStrings)))).
  { eapply Forall_impl; [exact Hshape|]. intros x (H1 & H2 & _ & H4). auto. }
  split.
  - intros Hdup. eapply fixupData_instance_duplicate; eauto.
  - intros statics Hnone HS _ (s & oS & -> & HsS & HpS & HhS) HshapeS Hdup.
    rewrite (ownProp_stored _ _ _ _ Hd) in HS.
    eapply fixupData_static_duplicate; eauto.
Qed.

Lemma fixupData_duplicate_report_witness :
  exists w',
    fixupData Examples.noCall (staticAPI true) (VObj 2) Examples.symbolDuplicate
    = (Throw (TypeError "Cannot convert a Symbol value to a string"), w').
Proof.
  apply (proj1 (fixupData_duplicate_report Examples.noCall true (VObj 2)
                  Examples.symbolDuplicate (KSym 50)
                  (ex_intro _ 2 (ex_intro _ (Examples.plain [(KStr "private", VObj 0);
                                                             (KStr "public", VObj 1)])
                     (conj eq_refl (conj eq_refl (conj eq_refl eq_refl)))))
                  ltac:(vm_compute; repeat constructor; simpl; try lia; discriminate))).
  vm_compute. reflexivity.
Defined.

(** ** Where the static regions are stored *)

Lemma getAllKeys_state (item : Value) (w : World) :
  snd (getAllKeys item w) = w.
Proof.
  unfold getAllKeys, bind, getOwnPropertyNames, getOwnPropertySymbols.
  destruct item; reflexivity.
Qed.

Lemma checkForDuplicates_state (dups : list Key) (item : Value) (w : World) :
  snd (checkForDuplicates dups item w) = w.
Proof.
  unfold checkForDuplicates, bind.
  pose proof (getAllKeys_state item w) as Hst.
  destruct (getAllKeys item w) as [[keys|e] w1]; simpl in Hst; subst w1.
  - rewrite checkKeys_firstDuplicate. now destruct (firstDuplicate dups keys).
  - reflexivity.
Qed.

Section StaticResult.

Variable call : Value -> Value -> list Value -> M Value.
Variable V : Vocabulary.
Variable h : list JSObj.
Variables d s : nat.
Variables od oS : JSObj.

Hypothesis data_stored : h !! d = Some od.
Hypothesis statics_stored : h !! s = Some oS.
Hypothesis statics_method : lookupProp (KStr "hasOwnProperty") (props oS) = None.

(** What a visit of the static level does to the result object. *)
Lemma visitStatic_result (keep : list Key) (dups dups' : list Key) (entry : Value)
      (w w' : World) :
  scanningStatic V h d s oS keep (heap w) ->
  toPropertyKey (STATIC V) ∈ keep -> KStr "hasOwnProperty" ∈ keep ->
  toPropertyKey entry ∈ keep ->
  toPropertyKey entry <> toPropertyKey (STATIC V) ->
  visitStatic call V (VObj d) (VObj (length h)) dups entry w = (Ret dups', w') ->
  forall k,
    ownProp (heap w') (VObj (length h)) k
    = match lookupProp (toPropertyKey entry) (props oS) with
      | Some item =>
          if bool_decide (toPropertyKey entry = k) then Some item
          else ownProp (heap w) (VObj (length h)) k
      | None => ownProp (heap w) (VObj (length h)) k
      end.
Proof.
  intros Hscan HkS Hhop Hke Hne.
  pose proof Hscan as (Hext & (oS' & HoS' & HpS' & HfS' & Hkeep) & (od' & Hod' & Hdata)
                       & (oR & HoR & HpR & HfR & HR)).
  assert (Hget : Get (VObj d) (toPropertyKey (STATIC V)) w = (Ret (VObj s), w)).
  { rewrite Get_object. now rewrite (getV_own _ _ _ _ _ Hod' Hdata). }
  assert (Hhas : hasOwnProperty call (VObj s) entry w
                 = (Ret (VBool (hasOwn (heap w) (VObj s) (toPropertyKey entry))), w)).
  { eapply hasOwnProperty_plain; eauto. rewrite Hkeep by exact Hhop. exact statics_method. }
  assert (Hown : hasOwn (heap w) (VObj s) (toPropertyKey entry)
                 = match lookupProp (toPropertyKey entry) (props oS) with
                   | Some _ => true | None => false end).
  { unfold hasOwn, ownProps. rewrite HoS'. now rewrite Hkeep by exact Hke. }
  assert (Hsn : s <> length h) by (apply lookup_lt_Some in statics_stored; lia).
  assert (Hlen : length h < length (heap w)) by (now apply lookup_lt_Some in HoR).
  unfold visitStatic.
  erewrite bind_ret_l by exact Hget. cbn [truthy]. cbv iota.
  erewrite bind_ret_l by (erewrite bind_ret_l by exact Hget; exact Hhas).
  rewrite Hown.
  destruct (lookupProp (toPropertyKey entry) (props oS)) as [item|] eqn:Hitem;
    cbn [truthy]; cbv iota.
  - assert (Hget' : Get (VObj s) (toPropertyKey entry) w = (Ret item, w)).
    { rewrite Get_object. rewrite (getV_own _ _ _ _ item HoS'); [reflexivity|].
      now rewrite Hkeep by exact Hke. }
    erewrite bind_ret_l by exact Hget.
    erewrite bind_ret_l by exact Hget'.
    destruct (truthy item && negb (String.eqb (typeof item) "object")).
    { destruct (shape_error_thrown entry
                  (fun s => "Expected property " +:+ dquote +:+ "data[ClassicM.STATIC]." +:+ s +:+ dquote +:+ " to be an object.") w)
        as [m Hthrow].
      erewrite bind_throw_l by exact Hthrow. discriminate. }
    erewrite bind_ret_l by reflexivity.
    unfold bind at 1.
    destruct (checkForDuplicates dups item w) as [[dups1|e] w1] eqn:Hcheck; [|discriminate].
    assert (Hw1 : w1 = w).
    { pose proof (checkForDuplicates_state dups item w) as Hst.
      rewrite Hcheck in Hst. exact Hst. }
    subst w1.
    erewrite bind_ret_l by (eapply Put_plain; eauto).
    rewrite HfR. intros [= _ <-] k. unfold ownProp, ownProps. simpl.
    rewrite list_lookup_insert_eq by exact Hlen. rewrite HoR. simpl.
    apply lookupProp_updateProp.
  - assert (HgetR : Get (VObj (length h)) (toPropertyKey (STATIC V)) w = (Ret (VObj s), w)).
    { rewrite Get_object. now rewrite (getV_own _ _ _ _ _ HoR HR). }
    erewrite bind_ret_l by exact HgetR.
    erewrite bind_ret_l by (eapply Put_plain; eauto).
    intros [= _ <-] k.
    destruct (frozen oS'); [reflexivity|].
    unfold ownProp, ownProps. simpl. now rewrite list_lookup_insert_ne by auto.
Qed.


Lemma static_loop_result (es : list Value) :
  NoDup (toPropertyKey (STATIC V) :: KStr "hasOwnProperty" :: map toPropertyKey es) ->
  Forall (fun item => nullish item = false /\ inStore h item /\ item <> VObj s
                      /\ malformed item = false)
         (regions h (VObj s) es) ->
  forall dups w,
    scanningStatic V h d s oS
      (toPropertyKey (STATIC V) :: KStr "hasOwnProperty" :: map toPropertyKey es) (heap w) ->
    firstDuplicate dups (levelKeys h (regions h (VObj s) es)) = None ->
    exists dups' w',
      forEachEntry (visitStatic call V (VObj d) (VObj (length h))) es dups w = (Ret dups', w')
      /\ forall k,
           ownProp (heap w') (VObj (length h)) k
           = if bool_decide (k ∈ map toPropertyKey es)
             then match lookupProp k (props oS) with
                  | Some item => Some item
                  | None => ownProp (heap w) (VObj (length h)) k
                  end
             else ownProp (heap w) (VObj (length h)) k.
Proof.
  induction es as [|e es IH]; intros Hkeys Hreg dups w Hscan Hdup.
  - exists dups, w. split; [reflexivity|]. intros k. reflexivity.
  - set (keep := toPropertyKey (STATIC V) :: KStr "hasOwnProperty"
                 :: map toPropertyKey (e :: es)) in *.
    set (keep' := toPropertyKey (STATIC V) :: KStr "hasOwnProperty" :: map toPropertyKey es).
    assert (Hsub : keep' ⊆ keep).
    { intros k Hk. unfold keep, keep' in *. simpl.
      rewrite !elem_of_cons in Hk. rewrite !elem_of_cons. tauto. }
    assert (Hkeys' : NoDup keep' /\ (toPropertyKey e ∉ keep')
                     /\ toPropertyKey e <> toPropertyKey (STATIC V)
                     /\ (toPropertyKey e ∉ map toPropertyKey es)).
    { unfold keep, keep' in *. simpl in Hkeys.
      rewrite !NoDup_cons in Hkeys. rewrite !NoDup_cons.
      rewrite !not_elem_of_cons in Hkeys. rewrite !not_elem_of_cons.
      destruct Hkeys as [[H1 [H2 H3]] [[H4 H5] [H6 H7]]]. repeat split; auto. }
    destruct Hkeys' as (Hnd' & Hnotin & Hne & Hfresh).
    assert (HkS : toPropertyKey (STATIC V) ∈ keep) by (unfold keep; apply list_elem_of_here).
    assert (Hhop : KStr "hasOwnProperty" ∈ keep)
      by (unfold keep; apply list_elem_of_further, list_elem_of_here).
    assert (Hke : toPropertyKey e ∈ keep)
      by (unfold keep; simpl; do 2 apply list_elem_of_further; apply list_elem_of_here).
    rewrite regions_cons, (ownProp_stored _ _ _ _ statics_stored) in *.
    assert (Hnext : exists dups1 w1,
               visitStatic call V (VObj d) (VObj (length h)) dups e w = (Ret dups1, w1)
               /\ scanningStatic V h d s oS keep' (heap w1)
               /\ firstDuplicate dups1 (levelKeys h (regions h (VObj s) es)) = None
               /\ Forall (fun item => nullish item = false /\ inStore h item
                                      /\ item <> VObj s /\ malformed item = false)
                         (regions h (VObj s) es)).
    { destruct (lookupProp (toPropertyKey e) (props oS)) as [item|] eqn:Hitem.
      - apply Forall_cons in Hreg as [(Hnull & Hin & Hns & Hm) Hreg].
        rewrite levelKeys_cons, firstDuplicate_app in Hdup.
        pose proof (visitStatic_present call V h d s od oS data_stored statics_stored
                      statics_method keep dups e item w Hscan HkS Hhop Hke Hne
                      Hitem Hm Hnull Hin Hns) as Hstep.
        destruct (firstDuplicate dups (keysOf h item)) as [key'|]; [discriminate|].
        destruct Hstep as (w1 & Hrun1 & Hscan1).
        exists (rev (keysOf h item) ++ dups), w1. auto.
      - pose proof (visitStatic_step call V h d s od oS data_stored statics_stored
                      statics_method keep dups e w Hscan HkS Hhop Hke Hne) as Hstep.
        rewrite Hitem in Hstep. destruct Hstep as (w1 & Hrun1 & Hscan1).
        exists dups, w1. auto. }
    destruct Hnext as (dups1 & w1 & Hrun1 & Hscan1 & Hdup1 & Hreg1).
    pose proof (visitStatic_result keep dups dups1 e w w1 Hscan HkS Hhop Hke Hne Hrun1)
      as Hres1.
    destruct (IH Hnd' Hreg1 dups1 w1 Hscan1 Hdup1) as (dups' & w' & Hrun & Hres).
    exists dups', w'. split.
    { simpl. now erewrite bind_ret_l by exact Hrun1. }
    intros k. rewrite Hres. simpl map.
    destruct (decide (toPropertyKey e = k)) as [<-|Hk].
    + rewrite (bool_decide_eq_false_2 _ Hfresh).
      rewrite bool_decide_eq_true_2 by apply list_elem_of_here.
      rewrite Hres1.
      destruct (lookupProp (toPropertyKey e) (props oS)); [|reflexivity].
      now rewrite bool_decide_eq_true_2.
    + assert (Hsame : bool_decide (k ∈ toPropertyKey e :: map toPropertyKey es)
                      = bool_decide (k ∈ map toPropertyKey es)).
      { apply bool_decide_ext. rewrite elem_of_cons. intuition congruence. }
      rewrite Hsame.
      assert (Hold : ownProp (heap w1) (VObj (length h)) k
                     = ownProp (heap w) (VObj (length h)) k).
      { rewrite Hres1. destruct (lookupProp (toPropertyKey e) (props oS)); [|reflexivity].
        now rewrite bool_decide_eq_false_2. }
      now rewrite Hold.
Qed.

End StaticResult.

(** C6 on the code, with the static API installed.  Take a definition that
    is a plain object with well-shaped regions and no key repeated among its
    instance-level regions, whose STATIC is a plain object with well-shaped
    regions.  The static level has a duplicate set of its own: a key the
    instance level already uses is not counted, and a key repeated among the
    static regions is reported with the error of the first one met.  When
    none is repeated, fixupData returns the result object, whose STATIC
    property is the definition's own STATIC object; and line 251 has written
    every region of the STATIC object at the instance-level key of the
    result, over the instance-level region of that name.  A name with no
    static region keeps its instance-level region there. *)
Theorem fixupData_static_regions_at_instance_level
        (call : Value -> Value -> list Value -> M Value)
        (useStrings : bool) (data statics : Value) (w : World) :
  let V := staticAPI useStrings in
  let h := heap w in
  plainObject h data ->
  wellShaped h data (instanceEntries V) ->
  firstDuplicate [] (levelKeys h (regions h data (instanceEntries V))) = None ->
  ownProp h data (toPropertyKey (STATIC V)) = Some statics ->
  plainObject h statics ->
  wellShaped h statics (staticEntries V) ->
  match firstDuplicate [] (levelKeys h (regions h statics (staticEntries V))) with
  | Some key => exists w', fixupData call V data w = (Throw (duplicateError key), w')
  | None =>
      exists retval w',
        fixupData call V data w = (Ret retval, w')
        /\ ownProp (heap w') retval (toPropertyKey (STATIC V)) = Some statics
        /\ forall entry, entry ∈ staticEntries V ->
             ownProp (heap w') retval (toPropertyKey entry)
             = Some (match ownProp h statics (toPropertyKey entry) with
                     | Some item => item
                     | None => default VUndef (ownProp h data (toPropertyKey entry))
                     end)
  end.
Proof.
  intros V h Hdata Hshape Hnone HS Hstatics HregS.
  destruct (firstDuplicate [] (levelKeys h (regions h statics (staticEntries V))))
    as [key|] eqn:HnoneS.
  { destruct Hdata as (d & od & -> & Hd & Hpd & Hhd).
    destruct Hstatics as (s & oS & -> & HsS & HpS & HhS).
    subst V h. rewrite (ownProp_stored _ _ _ _ Hd) in HS.
    eapply fixupData_static_duplicate; eauto.
    eapply Forall_impl; [exact Hshape|]. intros x (H1 & H2 & _ & H4). auto. }
  destruct Hdata as (d & od & -> & Hd & Hpd & Hhd).
  destruct Hstatics as (s & oS & -> & HsS & HpS & HhS).
  subst V. rewrite (ownProp_stored _ _ _ _ Hd) in HS.
  set (k := fun retval : Value =>
              _ <- forEachEntry (visitInstance call (VObj d) retval)
                     (newSet [STATIC (staticAPI useStrings); PRIVATE (staticAPI useStrings);
                              PROTECTED (staticAPI useStrings); PUBLIC (staticAPI useStrings)]) [] ;;
              statics <- Get retval (toPropertyKey (STATIC (staticAPI useStrings))) ;;
              (if truthy statics
               then _ <- forEachEntry (visitStatic call (staticAPI useStrings) (VObj d) retval)
                           (setDelete (STATIC (staticAPI useStrings))
                              (newSet [STATIC (staticAPI useStrings); PRIVATE (staticAPI useStrings);
                                       PROTECTED (staticAPI useStrings); PUBLIC (staticAPI useStrings)])) [] ;;
                    ret tt
               else ret tt) ;;;
              ret retval).
  destruct (fixupData_prelude (staticAPI useStrings) d od w k Hd) as (w1 & Hscan1 & Hrun).
  assert (Hfix : fixupData call (staticAPI useStrings) (VObj d) w = k (VObj (length h)) w1)
    by exact Hrun.
  rewrite Hfix. clear Hfix Hrun. unfold k. clear k.
  change [STATIC (staticAPI useStrings); PRIVATE (staticAPI useStrings);
          PROTECTED (staticAPI useStrings); PUBLIC (staticAPI useStrings)]
    with (instanceEntries (staticAPI useStrings)).
  rewrite !entries_newSet, entries_setDelete.
  assert (Hreg1 : Forall (fun item => nullish item = false /\ inStore h item)
                         (regions h (VObj d) (instanceEntries (staticAPI useStrings)))).
  { eapply Forall_impl; [exact Hshape|]. intros x (H1 & H2 & _). now split. }
  assert (Hnd1 : NoDup (levelKeys h (regions h (VObj d)
                                       (instanceEntries (staticAPI useStrings))) ++ [])).
  { apply firstDuplicate_None; [exact Hnone|constructor]. }
  assert (Hgood : ~ Exists (fun item => malformed item = true)
                      (regions h (VObj d) (instanceEntries (staticAPI useStrings)))).
  { intros Hex. apply Exists_exists in Hex as (x & Hx & Hmx).
    unfold wellShaped in Hshape. rewrite Forall_forall in Hshape.
    destruct (Hshape x Hx) as (_ & _ & _ & Hm). congruence. }
  destruct (instance_loop call h d od (instanceEntries (staticAPI useStrings)) Hd Hpd Hhd
              (entries_instance_keys useStrings) Hreg1 [] w1 Hscan1 Hnd1) as [_ L2].
  destruct (L2 Hgood) as (dups1 & w2 & Hrun1 & Hscan2 & _ & Hwritten).
  erewrite bind_ret_l by exact Hrun1.
  pose proof Hscan2 as [Hext2 (oR & HoR & HpR & HfR)].
  assert (HwS : lookupProp (toPropertyKey (STATIC (staticAPI useStrings))) (props oR)
                = Some (VObj s)).
  { rewrite <- (ownProp_stored _ _ _ _ HoR).
    rewrite (Hwritten (STATIC (staticAPI useStrings))) by apply list_elem_of_here.
    now rewrite (ownProp_stored _ _ _ _ Hd), HS. }
  assert (HgetS : Get (VObj (length h)) (toPropertyKey (STATIC (staticAPI useStrings))) w2
                  = (Ret (VObj s), w2)).
  { rewrite Get_object. now rewrite (getV_own _ _ _ _ _ HoR HwS). }
  erewrite bind_ret_l by exact HgetS. cbn [truthy]. cbv iota.
  assert (HscanS : scanningStatic (staticAPI useStrings) h d s oS
                     (toPropertyKey (STATIC (staticAPI useStrings)) :: KStr "hasOwnProperty"
                      :: map toPropertyKey (staticEntries (staticAPI useStrings))) (heap w2)).
  { split; [intros l o Ho _; now apply Hext2|].
    split; [exists oS; repeat split; auto|].
    split; [exists od; split; auto|].
    exists oR. repeat split; auto. }
  destruct (static_loop_result call (staticAPI useStrings) h d s od oS Hd HsS HhS
              (staticEntries (staticAPI useStrings)) (entries_keys useStrings) HregS
              [] w2 HscanS HnoneS) as (dups' & w' & Hloop & Hres).
  exists (VObj (length h)), w'. split; [|split].
  - erewrite bind_ret_l; [reflexivity|].
    erewrite bind_ret_l by exact Hloop. reflexivity.
  - rewrite Hres. rewrite bool_decide_eq_false_2.
    + now rewrite (ownProp_stored _ _ _ _ HoR).
    + pose proof (entries_keys useStrings) as Hk.
      apply NoDup_cons in Hk as [Hk _]. intros Hin. apply Hk. now apply list_elem_of_further.
  - intros entry Hentry. rewrite Hres.
    rewrite bool_decide_eq_true_2 by (now apply list_elem_of_fmap_2).
    rewrite (ownProp_stored _ _ _ _ HsS).
    destruct (lookupProp (toPropertyKey entry) (props oS)); [reflexivity|].
    apply Hwritten. now apply list_elem_of_further.
Qed.

Lemma fixupData_static_regions_at_instance_level_witness :
  exists retval w',
    fixupData Examples.noCall (staticAPI true) (VObj 3) Examples.staticPublic = (Ret retval, w')
    /\ ownProp (heap w') retval (KStr "static") = Some (VObj 2)
    /\ forall entry, entry ∈ staticEntries (staticAPI true) ->
         ownProp (heap w') retval (toPropertyKey entry)
         = Some (match ownProp (heap Examples.staticPublic) (VObj 2) (toPropertyKey entry) with
                 | Some item => item
                 | None => default VUndef
                             (ownProp (heap Examples.staticPublic) (VObj 3)
                                (toPropertyKey entry))
                 end).
Proof.
  apply (fixupData_static_regions_at_instance_level Examples.noCall true (VObj 3) (VObj 2)
           Examples.staticPublic
           (ex_intro _ 3 (ex_intro _ (Examples.plain [(KStr "public", VObj 0);
                                                      (KStr "static", VObj 2)])
              (conj eq_refl (conj eq_refl (conj eq_refl eq_refl)))))
           ltac:(vm_compute; repeat constructor; simpl; try lia; discriminate)
           eq_refl eq_refl
           (ex_intro _ 2 (ex_intro _ (Examples.plain [(KStr "public", VObj 1)])
              (conj eq_refl (conj eq_refl (conj eq_refl eq_refl)))))
           ltac:(vm_compute; repeat constructor; simpl; try lia; discriminate)).
Defined.

(** ** The class factory *)

(** C8 on the code: ClassicM never returns.  Whatever the arguments, the
    call ends in an exception: one raised on the way, or the SyntaxError of
    the eval call on line 431, as for ClassicM() and for ClassicM(Object, {})
    with an empty definition. *)
Theorem ClassicM_never_returns
        (call : Value -> Value -> list Value -> M Value)
        (V : Vocabulary) (args : list Value) (w : World) :
  (exists e w', ClassicM call V args w = (Throw e, w'))
  /\ fst (ClassicM Examples.noCall (staticAPI true) [] Examples.emptyWorld)
     = Throw (SyntaxError "Unexpected token ')'")
  /\ fst (ClassicM Examples.noCall (staticAPI true) [VIntrinsic IObject; VObj 2]
            Examples.finalBase)
     = Throw (SyntaxError "Unexpected token ')'").
Proof.
  split; [|vm_compute; now split].
  unfold ClassicM, bind.
  destruct (arguments args w) as [[bd|e] w1]; [|eauto].
  destruct (fixupData call V (snd bd) w1) as [[definition|e] w2]; [|eauto].
  destruct (rejectFinalBase V (fst bd) w2) as [[[]|e] w3]; [|eauto].
  destruct (Get (snd bd) (toPropertyKey (CLASSNAME V)) w3) as [[name|e] w4]; [|eauto].
  unfold evalEmptyParens, throw. eauto.
Qed.




(** ** The placeholder registry *)

Lemma wmHas_wmSet (m : list (Value * Value)) (k v : Value) :
  wmHas (wmSet m k v) k = true.
Proof.
  unfold wmHas. apply bool_decide_eq_true.
  induction m as [|[k' v'] m IH]; simpl.
  - apply list_elem_of_here.
  - case_bool_decide; simpl.
    + subst. apply list_elem_of_here.
    + now apply list_elem_of_further.
Qed.

(** What init leaves behind: a frozen marker whose one own property holds
    the object { value: undefined }, and the side-table entry. *)
Lemma init_runs (PLACEHOLDER fn : Value) (w : World) :
  typeof fn = "function" ->
  init PLACEHOLDER fn w
  = (Ret (VObj (length (heap w))),
     withInitFns (wmSet (initFns w) (VObj (length (heap w))) fn)
       (withHeap
          (heap w ++
             [mkObj (VIntrinsic IObjectPrototype)
                    [(toPropertyKey PLACEHOLDER, VObj (S (length (heap w))))] true;
              mkObj (VIntrinsic IObjectPrototype) [(KStr "value", VUndef)] false])
          w)).
Proof.
  intros Hfn. unfold init. rewrite Hfn. simpl.
  unfold bind, newObject, defineOwn, freeze, setOwn, withInitFns, withHeap, ret. simpl.
  rewrite <- app_assoc. simpl.
  rewrite !length_app. simpl. rewrite Nat.add_1_r.
  rewrite lookup_middle2, insert_middle2. simpl.
  rewrite lookup_middle2, insert_middle2. simpl.
  reflexivity.
Qed.

(** A frozen object of the marker's shape is turned down. *)
Lemma isPlaceHolder_marker
      (call : Value -> Value -> list Value -> M Value)
      (PLACEHOLDER : Value) (w : World) (v : Value) (h0 rest : list JSObj) :
  heap w = h0 ++ mkObj (VIntrinsic IObjectPrototype)
                       [(toPropertyKey PLACEHOLDER, v)] true :: rest ->
  isPlaceHolder call PLACEHOLDER (VObj (length h0)) w = (Ret (VBool false), w).
Proof.
  intros Hh.
  assert (Hl : heap w !! length h0
               = Some (mkObj (VIntrinsic IObjectPrototype)
                             [(toPropertyKey PLACEHOLDER, v)] true)).
  { rewrite Hh. now apply list_lookup_middle. }
  unfold isPlaceHolder, hasOwnProperty, bind, isFrozen, getOwnPropertyNames,
    getOwnPropertySymbols, Get, getV, chainFuel, hasOwn.
  destruct (toPropertyKey PLACEHOLDER) as [s|n] eqn:Ek;
    repeat (first [rewrite Hl | progress simpl | progress unfold hasOwn, ownProps]);
    reflexivity.
Qed.

(** C7 on the code: for every function fn, init(fn) returns a marker that
    is recorded in the side table, and isPlaceHolder answers false for that
    very marker.  The marker has no string-named own property, so the own
    property named by ClassicM.PLACEHOLDER, which is undefined, is missing
    (line 607); and the value stored under PLACEHOLDER is an object, not
    undefined (line 608). *)
Theorem isPlaceHolder_rejects_init_marker
        (call : Value -> Value -> list Value -> M Value)
        (PLACEHOLDER fn : Value) (w : World) :
  typeof fn = "function" ->
  exists marker w1,
    init PLACEHOLDER fn w = (Ret marker, w1)
    /\ wmHas (initFns w1) marker = true
    /\ isFrozenObj (heap w1) marker = true
    /\ isPlaceHolder call PLACEHOLDER marker w1 = (Ret (VBool false), w1).
Proof.
  intros Hfn. eexists _, _. split; [now apply init_runs|].
  split; [apply wmHas_wmSet|]. split.
  - simpl. now rewrite lookup_middle2.
  - eapply isPlaceHolder_marker. reflexivity.
Qed.

Lemma isPlaceHolder_rejects_init_marker_witness :
  exists marker w1,
    init (VSym 9) (VFun 0) Examples.emptyWorld = (Ret marker, w1)
    /\ wmHas (initFns w1) marker = true
    /\ isFrozenObj (heap w1) marker = true
    /\ isPlaceHolder Examples.noCall (VSym 9) marker w1 = (Ret (VBool false), w1).
Proof.
  apply (isPlaceHolder_rejects_init_marker Examples.noCall (VSym 9) (VFun 0)
           Examples.emptyWorld).
  reflexivity.
Defined.

(** ** Loading the module *)

(** C10 as stated fails: loading the module does not throw the TypeError of
    [new Symbol].  The file is rejected when it is parsed, with a
    SyntaxError, and none of the definitions before line 83 is executed
    either. *)
Lemma require_throws_no_TypeError :
  fst (TopLevel.require (TopLevel.fresh 0 []))
  = Throw (SyntaxError "Identifier 'newClass' has already been declared")
  /\ fst (TopLevel.require (TopLevel.fresh 0 []))
     <> Throw (TypeError "Symbol is not a constructor")
  /\ TopLevel.declared (snd (TopLevel.require (TopLevel.fresh 0 []))) = []
  /\ TopLevel.minted (snd (TopLevel.require (TopLevel.fresh 0 []))) = 0.
Proof. vm_compute. repeat split. discriminate. Qed.

(** C10, amended: loading the module always throws and hands no API to the
    caller.  The body of ClassicM declares newClass with let (line 431) and
    as a function (line 432); it is the only body of the file that declares
    a name twice, and the file is rejected with a SyntaxError before its
    top level runs: the module record is as it was, nothing is declared,
    no symbol is minted, module.exports is empty.  The top level itself,
    were it evaluated, would stop on line 83 with the TypeError of
    [new Symbol], the seven constants of lines 42-81 initialised and
    module.exports still empty. *)
Theorem require_rejects_the_file (symbolsSoFar : nat) (objects : list JSObj) :
  let st := TopLevel.fresh symbolsSoFar objects in
  TopLevel.require st
  = (Throw (SyntaxError "Identifier 'newClass' has already been declared"), st)
  /\ TopLevel.declared st = []
  /\ TopLevel.exported st = []
  /\ (forall b, b ∈ Parse.bodies ->
                Parse.earlyError b <> None -> Parse.fname b = "ClassicM")
  /\ (exists st',
        TopLevel.topLevel st = (Throw (TypeError "Symbol is not a constructor"), st')
        /\ map fst (TopLevel.declared st')
           = ["classDefs"; "initFns"; "owners"; "connections";
              "AccessLevels"; "ClassConfigKeys"; "ClassConstants"]
        /\ TopLevel.minted st' = 9 + symbolsSoFar
        /\ TopLevel.exported st' = []).
Proof.
  intros st. split; [reflexivity|]. split; [reflexivity|]. split; [reflexivity|].
  split.
  - intros b Hb Herr. unfold Parse.bodies in Hb.
    repeat (apply elem_of_cons in Hb; destruct Hb as [-> | Hb];
            [first [reflexivity | exfalso; apply Herr; vm_compute; reflexivity]|]).
    now apply elem_of_nil in Hb.
  - exists (snd (TopLevel.topLevel st)). vm_compute. repeat split.
Qed.

(** * Further properties of the code *)

(** ** The static API *)

(** X1.  The setter of PrivateAccessSpecifier takes the strings "_" and "$" and
    nothing else.  After it has taken a value the getter returns that value
    and [useStrings] is as it was; any other value is refused with a
    TypeError and the settings stay as they were; and a read with no value
    set raises a ReferenceError, as [TRIGGER] has no declaration and no
    initial value. *)
Theorem PrivateAccessSpecifier_underscore_or_dollar (v : Value) (st : StaticAPI.Settings) :
  (v = VStr "_" \/ v = VStr "$" ->
   exists st',
     StaticAPI.setPrivateAccessSpecifier v st = (Ret tt, st')
     /\ StaticAPI.getPrivateAccessSpecifier st' = (Ret v, st')
     /\ StaticAPI.useStrings st' = StaticAPI.useStrings st)
  /\ (v <> VStr "_" -> v <> VStr "$" ->
      StaticAPI.setPrivateAccessSpecifier v st
      = (Throw (TypeError "Invalid private access specifier. Not altered."), st))
  /\ StaticAPI.getPrivateAccessSpecifier StaticAPI.unset
     = (Throw (ReferenceError "TRIGGER is not defined"), StaticAPI.unset).
Proof.
  split; [|split].
  - intros [-> | ->]; eexists; repeat split.
  - intros H1 H2. unfold StaticAPI.setPrivateAccessSpecifier.
    assert (Hinc : includes [VStr "_"; VStr "$"] v = false).
    { unfold includes. apply bool_decide_eq_false.
      rewrite !elem_of_cons, elem_of_nil. tauto. }
    rewrite Hinc, andb_false_r. reflexivity.
  - reflexivity.
Qed.

(** X2.  Assigning UseStrings stores the truth value of what is assigned; from
    then on the getter returns that boolean and the nine constants read as
    the vocabulary of that mode, strings for a truthy value and the symbols
    of lines 66-80 for a falsy one.  Until the first assignment [useStrings]
    is unbound and reading UseStrings or any of the constants raises a
    ReferenceError. *)
Theorem UseStrings_selects_vocabulary (v : Value) (st : StaticAPI.Settings) :
  let st' := snd (StaticAPI.setUseStrings v st) in
  StaticAPI.setUseStrings v st = (Ret tt, st')
  /\ StaticAPI.TRIGGER st' = StaticAPI.TRIGGER st
  /\ StaticAPI.getUseStrings st' = (Ret (VBool (truthy v)), st')
  /\ StaticAPI.vocabulary st' = (Ret (staticAPI (truthy v)), st')
  /\ StaticAPI.getUseStrings StaticAPI.unset
     = (Throw (ReferenceError "useStrings is not defined"), StaticAPI.unset)
  /\ Forall (fun getter => getter StaticAPI.unset
                           = (Throw (ReferenceError "useStrings is not defined"),
                              StaticAPI.unset))
            [StaticAPI.getSTATIC; StaticAPI.getPRIVATE; StaticAPI.getPROTECTED;
             StaticAPI.getPUBLIC; StaticAPI.getCLASSNAME; StaticAPI.getINHERITMODE;
             StaticAPI.getCLASS; StaticAPI.getABSTRACT; StaticAPI.getFINAL].
Proof.
  intros st'. subst st'. unfold StaticAPI.setUseStrings. simpl.
  rewrite negb_involutive.
  split; [reflexivity|]. split; [reflexivity|]. split; [reflexivity|].
  split; [destruct (truthy v); reflexivity|].
  split; [reflexivity|]. repeat constructor.
Qed.

(** ** Listing keys and the duplicate set *)

Lemma filter_kinds_Permutation (ks : list Key) :
  filter (fun k => isStringKey k = true) ks ++ filter (fun k => isStringKey k = false) ks
  ≡ₚ ks.
Proof.
  induction ks as [|k ks IH]; [reflexivity|].
  destruct k as [s|n].
  - rewrite filter_cons_True by reflexivity.
    rewrite (filter_cons_False (fun k => isStringKey k = false)) by discriminate.
    simpl. now rewrite IH.
  - rewrite filter_cons_False by discriminate.
    rewrite (filter_cons_True (fun k => isStringKey k = false)) by reflexivity.
    rewrite <- Permutation_middle. now rewrite IH.
Qed.

(** X3.  GetAllKeys lists every own key of its argument exactly as often as the
    object holds it, the string keys first and the symbols after them, and
    changes nothing; for null and undefined it throws the TypeError of
    Object.getOwnPropertyNames. *)
Theorem getAllKeys_every_own_key (obj : Value) (w : World) :
  (nullish obj = true ->
   getAllKeys obj w
   = (Throw (TypeError "Cannot convert undefined or null to object"), w))
  /\ (nullish obj = false ->
      exists strs syms,
        getAllKeys obj w = (Ret (strs ++ syms), w)
        /\ strs ++ syms ≡ₚ map fst (ownProps (heap w) obj)
        /\ Forall (fun k => isStringKey k = true) strs
        /\ Forall (fun k => isStringKey k = false) syms).
Proof.
  split.
  - intros Hn. destruct obj; try discriminate; reflexivity.
  - intros Hn.
    exists (filter (fun k => isStringKey k = true) (map fst (ownProps (heap w) obj))),
           (filter (fun k => isStringKey k = false) (map fst (ownProps (heap w) obj))).
    split; [exact (getAllKeys_ok obj w Hn)|].
    split; [apply filter_kinds_Permutation|].
    split; apply Forall_forall; intros k Hk; now apply list_elem_of_filter in Hk as [Hk _].
Qed.

Lemma elem_of_rev_list (k : Key) (ks : list Key) : k ∈ rev ks <-> k ∈ ks.
Proof. rewrite !list_elem_of_In. symmetry. apply in_rev. Qed.

Lemma firstDuplicate_seen (seen keys : list Key) (k : Key) :
  keys !! 0 = Some k -> k ∈ seen -> firstDuplicate seen keys = Some k.
Proof.
  destruct keys as [|k' keys]; [discriminate|]. intros [= ->] Hin. simpl.
  now rewrite bool_decide_eq_true_2.
Qed.

(** X4.  When checkForDuplicates accepts an object, the world is as before and
    the duplicate set has grown by exactly the keys of the object.  Checking
    the same object again against the grown set is refused at its first
    key. *)
Theorem checkForDuplicates_accumulates
        (dups dups' : list Key) (obj : Value) (w w' : World) :
  checkForDuplicates dups obj w = (Ret dups', w') ->
  w' = w
  /\ (forall k, k ∈ dups' <-> k ∈ dups \/ k ∈ keysOf (heap w) obj)
  /\ (forall k, keysOf (heap w) obj !! 0 = Some k ->
        checkForDuplicates dups' obj w = (Throw (duplicateError k), w)).
Proof.
  intros Hrun. unfold checkForDuplicates in *.
  destruct (nullish obj) eqn:Hn.
  { destruct obj; discriminate. }
  erewrite bind_ret_l in Hrun by (now apply getAllKeys_ok).
  rewrite checkKeys_firstDuplicate in Hrun.
  destruct (firstDuplicate dups (keysOf (heap w) obj)); [discriminate|].
  injection Hrun as <- <-.
  split; [reflexivity|]. split.
  - intros k. rewrite elem_of_app, elem_of_rev_list. tauto.
  - intros k Hk.
    erewrite bind_ret_l by (now apply getAllKeys_ok).
    rewrite checkKeys_firstDuplicate.
    rewrite (firstDuplicate_seen _ _ k Hk); [reflexivity|].
    apply elem_of_app. left. apply elem_of_rev_list.
    apply list_elem_of_lookup. now exists 0.
Qed.

Lemma checkForDuplicates_accumulates_witness :
  let w := Examples.stringDuplicate in
  w = w
  /\ (forall k, k ∈ [KStr "x"] <-> k ∈ [] \/ k ∈ keysOf (heap w) (VObj 0))
  /\ (forall k, keysOf (heap w) (VObj 0) !! 0 = Some k ->
        checkForDuplicates [KStr "x"] (VObj 0) w = (Throw (duplicateError k), w)).
Proof.
  exact (checkForDuplicates_accumulates [] [KStr "x"] (VObj 0)
           Examples.stringDuplicate Examples.stringDuplicate eq_refl).
Defined.

(** ** More on the definition normalizer *)

Lemma forEachEntry_app (visit : list Key -> Value -> M (list Key))
      (pre post : list Value) (dups : list Key) (w : World) :
  forEachEntry visit (pre ++ post) dups w
  = (dups' <- forEachEntry visit pre dups ;; forEachEntry visit post dups') w.
Proof.
  revert dups w. induction pre as [|e pre IH]; intros dups w; simpl.
  - reflexivity.
  - unfold bind. destruct (visit dups e w) as [[dups1|err] w1]; [|reflexivity].
    rewrite IH. reflexivity.
Qed.

Lemma visitInstance_nullish call (d : nat) (od : JSObj) (retval : Value)
      (dups : list Key) (entry item : Value) (w : World) :
  heap w !! d = Some od -> proto od = VIntrinsic IObjectPrototype ->
  lookupProp (KStr "hasOwnProperty") (props od) = None ->
  lookupProp (toPropertyKey entry) (props od) = Some item ->
  nullish item = true ->
  visitInstance call (VObj d) retval dups entry w
  = (Throw (TypeError "Cannot convert undefined or null to object"), w).
Proof.
  intros Hd Hpd Hhd Hitem Hn. unfold visitInstance.
  erewrite bind_ret_l by (eapply hasOwnProperty_plain; eauto).
  unfold hasOwn, ownProps. rewrite Hd, Hitem. cbn [truthy]. cbv iota.
  assert (Hget : Get (VObj d) (toPropertyKey entry) w = (Ret item, w)).
  { rewrite Get_object. now rewrite (getV_own _ _ _ _ _ Hd Hitem). }
  erewrite bind_ret_l by exact Hget.
  destruct item; try discriminate; reflexivity.
Qed.

(** X5.  A region that is present and holds null or undefined passes the shape
    test of line 230 and is handed to checkForDuplicates, whose key listing
    refuses it: when the regions visited before it are well shaped and free
    of repeated keys, fixupData throws the TypeError of
    Object.getOwnPropertyNames. *)
Theorem fixupData_null_region
        (call : Value -> Value -> list Value -> M Value)
        (useStrings : bool) (data : Value) (w : World)
        (pre post : list Value) (entry item : Value) :
  let V := staticAPI useStrings in
  let h := heap w in
  plainObject h data ->
  instanceEntries V = pre ++ entry :: post ->
  wellShaped h data pre ->
  firstDuplicate [] (levelKeys h (regions h data pre)) = None ->
  ownProp h data (toPropertyKey entry) = Some item ->
  nullish item = true ->
  exists w',
    fixupData call V data w
    = (Throw (TypeError "Cannot convert undefined or null to object"), w').
Proof.
  intros V h (d & od & -> & Hd & Hpd & Hhd) Hsplit Hshape Hnone Hitem Hnull.
  subst V. rewrite (ownProp_stored _ _ _ _ Hd) in Hitem.
  set (k := fun retval : Value =>
              _ <- forEachEntry (visitInstance call (VObj d) retval)
                     (newSet [STATIC (staticAPI useStrings); PRIVATE (staticAPI useStrings);
                              PROTECTED (staticAPI useStrings); PUBLIC (staticAPI useStrings)]) [] ;;
              statics <- Get retval (toPropertyKey (STATIC (staticAPI useStrings))) ;;
              (if truthy statics
               then _ <- forEachEntry (visitStatic call (staticAPI useStrings) (VObj d) retval)
                           (setDelete (STATIC (staticAPI useStrings))
                              (newSet [STATIC (staticAPI useStrings); PRIVATE (staticAPI useStrings);
                                       PROTECTED (staticAPI useStrings); PUBLIC (staticAPI useStrings)])) [] ;;
                    ret tt
               else ret tt) ;;;
              ret retval).
  destruct (fixupData_prelude (staticAPI useStrings) d od w k Hd) as (w1 & Hscan1 & Hrun).
  assert (Hfix : fixupData call (staticAPI useStrings) (VObj d) w = k (VObj (length h)) w1)
    by exact Hrun.
  rewrite Hfix. clear Hfix Hrun. unfold k. clear k.
  change [STATIC (staticAPI useStrings); PRIVATE (staticAPI useStrings);
          PROTECTED (staticAPI useStrings); PUBLIC (staticAPI useStrings)]
    with (instanceEntries (staticAPI useStrings)).
  rewrite !entries_newSet. rewrite Hsplit.
  assert (Hkeys : NoDup (map toPropertyKey pre)).
  { pose proof (entries_instance_keys useStrings) as Hk. rewrite Hsplit in Hk.
    rewrite map_app in Hk. now apply NoDup_app in Hk as [Hk _]. }
  assert (Hreg1 : Forall (fun item => nullish item = false /\ inStore h item)
                         (regions h (VObj d) pre)).
  { eapply Forall_impl; [exact Hshape|]. intros x (H1 & H2 & _). now split. }
  assert (Hnd1 : NoDup (levelKeys h (regions h (VObj d) pre) ++ [])).
  { apply firstDuplicate_None; [exact Hnone|constructor]. }
  assert (Hgood : ~ Exists (fun item => malformed item = true) (regions h (VObj d) pre)).
  { intros Hex. apply Exists_exists in Hex as (x & Hx & Hmx).
    unfold wellShaped in Hshape. rewrite Forall_forall in Hshape.
    destruct (Hshape x Hx) as (_ & _ & _ & Hm). congruence. }
  destruct (instance_loop call h d od pre Hd Hpd Hhd Hkeys Hreg1 [] w1 Hscan1 Hnd1)
    as [_ L2].
  destruct (L2 Hgood) as (dups1 & w2 & Hrun1 & Hscan2 & _).
  exists w2.
  erewrite bind_throw_l; [reflexivity|].
  rewrite forEachEntry_app.
  erewrite bind_ret_l by exact Hrun1. simpl.
  erewrite bind_throw_l; [reflexivity|].
  destruct Hscan2 as [Hext2 _].
  eapply visitInstance_nullish; eauto.
Qed.

Lemma fixupData_null_region_witness :
  exists w',
    fixupData Examples.noCall (staticAPI true) (VObj 0)
      (withHeap [Examples.plain [(KStr "static", VNull)]] Examples.emptyWorld)
    = (Throw (TypeError "Cannot convert undefined or null to object"), w').
Proof.
  apply (fixupData_null_region Examples.noCall true (VObj 0)
           (withHeap [Examples.plain [(KStr "static", VNull)]] Examples.emptyWorld)
           [] [VStr "private"; VStr "protected"; VStr "public"] (VStr "static") VNull
           (ex_intro _ 0 (ex_intro _ (Examples.plain [(KStr "static", VNull)])
              (conj eq_refl (conj eq_refl (conj eq_refl eq_refl)))))
           eq_refl ltac:(unfold wellShaped; simpl; constructor) eq_refl eq_refl eq_refl).
Defined.

Lemma visitInstance_malformed call (d : nat) (od : JSObj) (retval : Value)
      (dups : list Key) (entry item : Value) (w : World) :
  heap w !! d = Some od -> proto od = VIntrinsic IObjectPrototype ->
  lookupProp (KStr "hasOwnProperty") (props od) = None ->
  lookupProp (toPropertyKey entry) (props od) = Some item ->
  malformed item = true ->
  visitInstance call (VObj d) retval dups entry w
  = (s <- toStringJS entry ;;
     throw (TypeError ("Expected property " +:+ dquote +:+ "data." +:+ s +:+ dquote
                       +:+ " to be an object."))) w.
Proof.
  intros Hd Hpd Hhd Hitem Hm. unfold visitInstance.
  erewrite bind_ret_l by (eapply hasOwnProperty_plain; eauto).
  unfold hasOwn, ownProps. rewrite Hd, Hitem. cbn [truthy]. cbv iota.
  assert (Hget : Get (VObj d) (toPropertyKey entry) w = (Ret item, w)).
  { rewrite Get_object. now rewrite (getV_own _ _ _ _ _ Hd Hitem). }
  erewrite bind_ret_l by exact Hget.
  change (truthy item && negb (String.eqb (typeof item) "object")) with (malformed item).
  rewrite Hm.
  unfold bind, throw. destruct (toStringJS entry w) as [[s|e] w2]; reflexivity.
Qed.

(** X6.  The message of the shape error.  When the first region that fails the
    shape test of line 230 is reached, the regions before it being well
    shaped and free of repeated keys, fixupData throws a TypeError: in
    string mode its message names the region, as in
    Expected property "data.private" to be an object.; in token mode the
    region's name is a symbol, the template literal cannot convert it, and
    the TypeError is that of the conversion. *)
Theorem fixupData_shape_message
        (call : Value -> Value -> list Value -> M Value)
        (useStrings : bool) (data : Value) (w : World)
        (pre post : list Value) (entry item : Value) :
  let V := staticAPI useStrings in
  let h := heap w in
  plainObject h data ->
  instanceEntries V = pre ++ entry :: post ->
  wellShaped h data pre ->
  firstDuplicate [] (levelKeys h (regions h data pre)) = None ->
  ownProp h data (toPropertyKey entry) = Some item ->
  malformed item = true ->
  exists w',
    fixupData call V data w
    = (Throw (TypeError
                match entry with
                | VStr name => "Expected property " +:+ dquote +:+ "data." +:+ name
                               +:+ dquote +:+ " to be an object."
                | _ => "Cannot convert a Symbol value to a string"
                end), w')
    /\ (if useStrings then exists name, entry = VStr name else exists n, entry = VSym n).
Proof.
  intros V h (d & od & -> & Hd & Hpd & Hhd) Hsplit Hshape Hnone Hitem Hmal.
  subst V h. rewrite (ownProp_stored _ _ _ _ Hd) in Hitem.
  assert (Hkind : if useStrings then exists name, entry = VStr name
                  else exists n, entry = VSym n).
  { assert (Hin : entry ∈ instanceEntries (staticAPI useStrings)).
    { rewrite Hsplit. apply elem_of_app. right. apply list_elem_of_here. }
    apply list_elem_of_In in Hin.
    destruct useStrings; simpl in Hin;
      destruct Hin as [<-|[<-|[<-|[<-|[]]]]]; eexists; reflexivity. }
  set (k := fun retval : Value =>
              _ <- forEachEntry (visitInstance call (VObj d) retval)
                     (newSet [STATIC (staticAPI useStrings); PRIVATE (staticAPI useStrings);
                              PROTECTED (staticAPI useStrings); PUBLIC (staticAPI useStrings)]) [] ;;
              statics <- Get retval (toPropertyKey (STATIC (staticAPI useStrings))) ;;
              (if truthy statics
               then _ <- forEachEntry (visitStatic call (staticAPI useStrings) (VObj d) retval)
                           (setDelete (STATIC (staticAPI useStrings))
                              (newSet [STATIC (staticAPI useStrings); PRIVATE (staticAPI useStrings);
                                       PROTECTED (staticAPI useStrings); PUBLIC (staticAPI useStrings)])) [] ;;
                    ret tt
               else ret tt) ;;;
              ret retval).
  destruct (fixupData_prelude (staticAPI useStrings) d od w k Hd) as (w1 & Hscan1 & Hrun).
  assert (Hfix : fixupData call (staticAPI useStrings) (VObj d) w
                 = k (VObj (length (heap w))) w1) by exact Hrun.
  rewrite Hfix. clear Hfix Hrun. unfold k. clear k.
  change [STATIC (staticAPI useStrings); PRIVATE (staticAPI useStrings);
          PROTECTED (staticAPI useStrings); PUBLIC (staticAPI useStrings)]
    with (instanceEntries (staticAPI useStrings)).
  rewrite !entries_newSet. rewrite Hsplit.
  assert (Hkeys : NoDup (map toPropertyKey pre)).
  { pose proof (entries_instance_keys useStrings) as Hk. rewrite Hsplit in Hk.
    rewrite map_app in Hk. now apply NoDup_app in Hk as [Hk _]. }
  assert (Hreg1 : Forall (fun item => nullish item = false /\ inStore (heap w) item)
                         (regions (heap w) (VObj d) pre)).
  { eapply Forall_impl; [exact Hshape|]. intros x (H1 & H2 & _). now split. }
  assert (Hnd1 : NoDup (levelKeys (heap w) (regions (heap w) (VObj d) pre) ++ [])).
  { apply firstDuplicate_None; [exact Hnone|constructor]. }
  assert (Hgood : ~ Exists (fun item => malformed item = true)
                      (regions (heap w) (VObj d) pre)).
  { intros Hex. apply Exists_exists in Hex as (x & Hx & Hmx).
    unfold wellShaped in Hshape. rewrite Forall_forall in Hshape.
    destruct (Hshape x Hx) as (_ & _ & _ & Hm). congruence. }
  destruct (instance_loop call (heap w) d od pre Hd Hpd Hhd Hkeys Hreg1 [] w1 Hscan1 Hnd1)
    as [_ L2].
  destruct (L2 Hgood) as (dups1 & w2 & Hrun1 & [Hext2 _] & _).
  exists w2. split; [|exact Hkind].
  erewrite bind_throw_l; [reflexivity|].
  rewrite forEachEntry_app.
  erewrite bind_ret_l by exact Hrun1. simpl.
  erewrite bind_throw_l; [reflexivity|].
  rewrite (visitInstance_malformed call d od _ dups1 entry item w2 (Hext2 _ _ Hd) Hpd Hhd
             Hitem Hmal).
  destruct useStrings; destruct Hkind as [x ->]; reflexivity.
Qed.

Lemma fixupData_shape_message_witness :
  let w := withHeap [Examples.plain [(KStr "private", VNum 5)]] Examples.emptyWorld in
  exists w',
    fixupData Examples.noCall (staticAPI true) (VObj 0) w
    = (Throw (TypeError ("Expected property " +:+ dquote +:+ "data.private" +:+ dquote
                         +:+ " to be an object.")), w')
    /\ exists name, VStr "private" = VStr name.
Proof.
  exact (fixupData_shape_message Examples.noCall true (VObj 0)
           (withHeap [Examples.plain [(KStr "private", VNum 5)]] Examples.emptyWorld)
           [VStr "static"] [VStr "protected"; VStr "public"] (VStr "private") (VNum 5)
           (ex_intro _ 0 (ex_intro _ (Examples.plain [(KStr "private", VNum 5)])
              (conj eq_refl (conj eq_refl (conj eq_refl eq_refl)))))
           eq_refl ltac:(unfold wellShaped; simpl; constructor) eq_refl eq_refl eq_refl).
Defined.

Lemma getV_plain (h : list JSObj) (l : nat) (o : JSObj) (k : Key) :
  h !! l = Some o -> proto o = VIntrinsic IObjectPrototype ->
  getV h (VObj l) k
  = match lookupProp k (props o) with
    | Some x => x
    | None =>
        match lookupProp k (ownProps [] (VIntrinsic IObjectPrototype)) with
        | Some x => x
        | None => VUndef
        end
    end.
Proof.
  intros Hl Hp. destruct (lookupProp k (props o)) as [x|] eqn:Hk.
  - now apply (getV_own h l o).
  - now rewrite (getV_plain_absent h l o k Hl Hp Hk).
Qed.

Lemma getV_plain_scanning (h h' : list JSObj) (l : nat) (o : JSObj) (k : Key) :
  h !! l = Some o -> proto o = VIntrinsic IObjectPrototype -> scanning h h' ->
  getV h' (VObj l) k = getV h (VObj l) k.
Proof.
  intros Hl Hp [Hext _].
  now rewrite (getV_plain h' l o k (Hext _ _ Hl) Hp), (getV_plain h l o k Hl Hp).
Qed.

Lemma Put_retval_result (h : list JSObj) (k : Key) (v : Value) (w : World)
      (ps : list (Key * Value)) :
  scanning h (heap w) ->
  (forall key, ownProp (heap w) (VObj (length h)) key = lookupProp key ps) ->
  exists w', Put (VObj (length h)) k v w = (Ret tt, w')
             /\ scanning h (heap w')
             /\ forall key, ownProp (heap w') (VObj (length h)) key
                            = lookupProp key (updateProp k v ps).
Proof.
  intros Hscan Hps. pose proof Hscan as [Hext (oR & HoR & HpR & HfR)].
  eexists. split; [eapply Put_plain; eauto|].
  rewrite HpR, HfR. simpl. split; [eapply scanning_write; eauto|].
  intros key. unfold ownProp, ownProps.
  rewrite list_lookup_insert_eq by (now apply lookup_lt_Some in HoR). simpl.
  rewrite !lookupProp_updateProp.
  specialize (Hps key). unfold ownProp, ownProps in Hps. rewrite HoR in Hps.
  now rewrite Hps.
Qed.

(** Lines 207-225 on a plain definition: the caller's objects are left
    alone and the result object holds [preludeProps]. *)
Lemma fixupData_prelude_result (V : Vocabulary) (d : nat) (od : JSObj) (w : World)
      (k : Value -> M Value) :
  heap w !! d = Some od -> proto od = VIntrinsic IObjectPrototype ->
  exists w1,
    scanning (heap w) (heap w1)
    /\ (forall key, ownProp (heap w1) (VObj (length (heap w))) key
                    = lookupProp key (preludeProps V (heap w) (VObj d)))
    /\ (retval <- newObject [] ;;
        inner <- newObject [] ;;
        defineOwn retval (toPropertyKey (STATIC V)) inner ;;;
        name <- Get (VObj d) (toPropertyKey (CLASSNAME V)) ;;
        Put retval (toPropertyKey (CLASSNAME V))
            (if truthy name then name else VStr "ClassBase") ;;;
        mode <- Get (VObj d) (toPropertyKey (INHERITMODE V)) ;;
        (if includes [ABSTRACT V; FINAL V; VUndef] mode
         then mode' <- Get (VObj d) (toPropertyKey (INHERITMODE V)) ;;
              Put retval (toPropertyKey (INHERITMODE V)) mode'
         else Put retval (toPropertyKey (INHERITMODE V)) VUndef) ;;;
        k retval) w
       = k (VObj (length (heap w))) w1.
Proof.
  intros Hd Hpd.
  set (h := heap w).
  set (wA := withHeap (<[length h := mkObj (VIntrinsic IObjectPrototype)
                                     [(toPropertyKey (STATIC V), VObj (S (length h)))] false]>
                        (h ++ [mkObj (VIntrinsic IObjectPrototype) [] false;
                               mkObj (VIntrinsic IObjectPrototype) [] false])) w).
  assert (HA : scanning h (heap wA)).
  { unfold wA. simpl. rewrite insert_middle2. split.
    - intros l o Ho. now apply lookup_app_l_Some.
    - eexists. rewrite lookup_middle2. repeat split. }
  assert (HpA : forall key, ownProp (heap wA) (VObj (length h)) key
                            = lookupProp key [(toPropertyKey (STATIC V), VObj (S (length h)))]).
  { intros key. unfold wA, ownProp, ownProps. simpl heap.
    rewrite insert_middle2, lookup_middle2. reflexivity. }
  assert (HgA : forall key, getV (heap wA) (VObj d) key = getV h (VObj d) key).
  { intros key. now apply (getV_plain_scanning h (heap wA) d od). }
  destruct (Put_retval_result h (toPropertyKey (CLASSNAME V))
              (if truthy (getV h (VObj d) (toPropertyKey (CLASSNAME V)))
               then getV h (VObj d) (toPropertyKey (CLASSNAME V))
               else VStr "ClassBase") wA _ HA HpA) as (wB & HputB & HB & HpB).
  assert (HgB : forall key, getV (heap wB) (VObj d) key = getV h (VObj d) key).
  { intros key. now apply (getV_plain_scanning h (heap wB) d od). }
  destruct (Put_retval_result h (toPropertyKey (INHERITMODE V))
              (if includes [ABSTRACT V; FINAL V; VUndef]
                           (getV h (VObj d) (toPropertyKey (INHERITMODE V)))
               then getV h (VObj d) (toPropertyKey (INHERITMODE V)) else VUndef)
              wB _ HB HpB) as (wC & HputC & HC & HpC).
  exists wC. split; [exact HC|]. split; [exact HpC|].
  erewrite bind_ret_l by reflexivity.
  erewrite bind_ret_l by reflexivity.
  erewrite (bind_ret_l _ _ _ wA tt).
  2:{ unfold defineOwn, setOwn, wA. simpl. fold h.
      rewrite <- app_assoc. simpl. rewrite lookup_middle2.
      rewrite length_app. simpl. now rewrite Nat.add_1_r. }
  erewrite bind_ret_l by apply Get_object.
  rewrite HgA.
  erewrite bind_ret_l by exact HputB.
  erewrite bind_ret_l by apply Get_object.
  rewrite HgB.
  erewrite (bind_ret_l _ _ _ wC tt); [reflexivity|].
  destruct (includes _ _).
  - erewrite bind_ret_l by apply Get_object. rewrite HgB. exact HputC.
  - exact HputC.
Qed.

Section StaticEffect.

Variable call : Value -> Value -> list Value -> M Value.
Variable V : Vocabulary.
Variable h : list JSObj.
Variables d s : nat.
Variables od oS : JSObj.

Hypothesis data_stored : h !! d = Some od.
Hypothesis statics_stored : h !! s = Some oS.
Hypothesis statics_method : lookupProp (KStr "hasOwnProperty") (props oS) = None.

(** What a visit of the static level does to the STATIC object itself: a
    region it lacks is written into it as undefined (line 254), unless it
    is frozen. *)
Lemma visitStatic_statics (keep : list Key) (dups dups' : list Key) (entry : Value)
      (w w' : World) :
  scanningStatic V h d s oS keep (heap w) ->
  toPropertyKey (STATIC V) ∈ keep -> KStr "hasOwnProperty" ∈ keep ->
  toPropertyKey entry ∈ keep ->
  toPropertyKey entry <> toPropertyKey (STATIC V) ->
  visitStatic call V (VObj d) (VObj (length h)) dups entry w = (Ret dups', w') ->
  forall k,
    ownProp (heap w') (VObj s) k
    = match lookupProp (toPropertyKey entry) (props oS) with
      | Some item => ownProp (heap w) (VObj s) k
      | None =>
          if frozen oS then ownProp (heap w) (VObj s) k
          else if bool_decide (toPropertyKey entry = k) then Some VUndef
               else ownProp (heap w) (VObj s) k
      end.
Proof.
  intros Hscan HkS Hhop Hke Hne.
  pose proof Hscan as (Hext & (oS' & HoS' & HpS' & HfS' & Hkeep) & (od' & Hod' & Hdata)
                       & (oR & HoR & HpR & HfR & HR)).
  assert (Hget : Get (VObj d) (toPropertyKey (STATIC V)) w = (Ret (VObj s), w)).
  { rewrite Get_object. now rewrite (getV_own _ _ _ _ _ Hod' Hdata). }
  assert (Hhas : hasOwnProperty call (VObj s) entry w
                 = (Ret (VBool (hasOwn (heap w) (VObj s) (toPropertyKey entry))), w)).
  { eapply hasOwnProperty_plain; eauto. rewrite Hkeep by exact Hhop. exact statics_method. }
  assert (Hown : hasOwn (heap w) (VObj s) (toPropertyKey entry)
                 = match lookupProp (toPropertyKey entry) (props oS) with
                   | Some _ => true | None => false end).
  { unfold hasOwn, ownProps. rewrite HoS'. now rewrite Hkeep by exact Hke. }
  assert (Hsn : s <> length h) by (apply lookup_lt_Some in statics_stored; lia).
  assert (Hlen : length h < length (heap w)) by (now apply lookup_lt_Some in HoR).
  assert (Hlens : s < length (heap w)) by (now apply lookup_lt_Some in HoS').
  unfold visitStatic.
  erewrite bind_ret_l by exact Hget. cbn [truthy]. cbv iota.
  erewrite bind_ret_l by (erewrite bind_ret_l by exact Hget; exact Hhas).
  rewrite Hown.
  destruct (lookupProp (toPropertyKey entry) (props oS)) as [item|] eqn:Hitem;
    cbn [truthy]; cbv iota.
  - assert (Hget' : Get (VObj s) (toPropertyKey entry) w = (Ret item, w)).
    { rewrite Get_object. rewrite (getV_own _ _ _ _ item HoS'); [reflexivity|].
      now rewrite Hkeep by exact Hke. }
    erewrite bind_ret_l by exact Hget.
    erewrite bind_ret_l by exact Hget'.
    destruct (truthy item && negb (String.eqb (typeof item) "object")).
    { destruct (shape_error_thrown entry
                  (fun s => "Expected property " +:+ dquote +:+ "data[ClassicM.STATIC]." +:+ s +:+ dquote +:+ " to be an object.") w)
        as [m Hthrow].
      erewrite bind_throw_l by exact Hthrow. discriminate. }
    erewrite bind_ret_l by reflexivity.
    unfold bind at 1.
    destruct (checkForDuplicates dups item w) as [[dups1|e] w1] eqn:Hcheck; [|discriminate].
    assert (Hw1 : w1 = w).
    { pose proof (checkForDuplicates_state dups item w) as Hst.
      rewrite Hcheck in Hst. exact Hst. }
    subst w1.
    erewrite bind_ret_l by (eapply Put_plain; eauto).
    rewrite HfR. intros [= _ <-] k. unfold ownProp, ownProps. simpl.
    now rewrite list_lookup_insert_ne by auto.
  - assert (HgetR : Get (VObj (length h)) (toPropertyKey (STATIC V)) w = (Ret (VObj s), w)).
    { rewrite Get_object. now rewrite (getV_own _ _ _ _ _ HoR HR). }
    erewrite bind_ret_l by exact HgetR.
    erewrite bind_ret_l by (eapply Put_plain; eauto).
    intros [= _ <-] k. rewrite HfS'.
    destruct (frozen oS); [reflexivity|].
    unfold ownProp, ownProps. simpl.
    rewrite list_lookup_insert_eq by exact Hlens. rewrite HoS'. simpl.
    apply lookupProp_updateProp.
Qed.

Lemma static_loop_effect (es : list Value) :
  NoDup (toPropertyKey (STATIC V) :: KStr "hasOwnProperty" :: map toPropertyKey es) ->
  Forall (fun item => nullish item = false /\ inStore h item /\ item <> VObj s
                      /\ malformed item = false)
         (regions h (VObj s) es) ->
  forall dups w,
    scanningStatic V h d s oS
      (toPropertyKey (STATIC V) :: KStr "hasOwnProperty" :: map toPropertyKey es) (heap w) ->
    firstDuplicate dups (levelKeys h (regions h (VObj s) es)) = None ->
    exists dups' w',
      forEachEntry (visitStatic call V (VObj d) (VObj (length h))) es dups w = (Ret dups', w')
      /\ scanningStatic V h d s oS [toPropertyKey (STATIC V); KStr "hasOwnProperty"] (heap w')
      /\ forall k,
           ownProp (heap w') (VObj s) k
           = if bool_decide (k ∈ map toPropertyKey es) && negb (frozen oS)
             then match lookupProp k (props oS) with
                  | Some item => ownProp (heap w) (VObj s) k
                  | None => Some VUndef
                  end
             else ownProp (heap w) (VObj s) k.
Proof.
  induction es as [|e es IH]; intros Hkeys Hreg dups w Hscan Hdup.
  - exists dups, w. split; [reflexivity|]. split; [exact Hscan|]. intros k. reflexivity.
  - set (keep := toPropertyKey (STATIC V) :: KStr "hasOwnProperty"
                 :: map toPropertyKey (e :: es)) in *.
    set (keep' := toPropertyKey (STATIC V) :: KStr "hasOwnProperty" :: map toPropertyKey es).
    assert (Hsub : keep' ⊆ keep).
    { intros k Hk. unfold keep, keep' in *. simpl.
      rewrite !elem_of_cons in Hk. rewrite !elem_of_cons. tauto. }
    assert (Hkeys' : NoDup keep' /\ (toPropertyKey e ∉ keep')
                     /\ toPropertyKey e <> toPropertyKey (STATIC V)
                     /\ (toPropertyKey e ∉ map toPropertyKey es)).
    { unfold keep, keep' in *. simpl in Hkeys.
      rewrite !NoDup_cons in Hkeys. rewrite !NoDup_cons.
      rewrite !not_elem_of_cons in Hkeys. rewrite !not_elem_of_cons.
      destruct Hkeys as [[H1 [H2 H3]] [[H4 H5] [H6 H7]]]. repeat split; auto. }
    destruct Hkeys' as (Hnd' & Hnotin & Hne & Hfresh).
    assert (HkS : toPropertyKey (STATIC V) ∈ keep) by (unfold keep; apply list_elem_of_here).
    assert (Hhop : KStr "hasOwnProperty" ∈ keep)
      by (unfold keep; apply list_elem_of_further, list_elem_of_here).
    assert (Hke : toPropertyKey e ∈ keep)
      by (unfold keep; simpl; do 2 apply list_elem_of_further; apply list_elem_of_here).
    rewrite regions_cons, (ownProp_stored _ _ _ _ statics_stored) in *.
    assert (Hnext : exists dups1 w1,
               visitStatic call V (VObj d) (VObj (length h)) dups e w = (Ret dups1, w1)
               /\ scanningStatic V h d s oS keep' (heap w1)
               /\ firstDuplicate dups1 (levelKeys h (regions h (VObj s) es)) = None
               /\ Forall (fun item => nullish item = false /\ inStore h item
                                      /\ item <> VObj s /\ malformed item = false)
                         (regions h (VObj s) es)).
    { destruct (lookupProp (toPropertyKey e) (props oS)) as [item|] eqn:Hitem.
      - apply Forall_cons in Hreg as [(Hnull & Hin & Hns & Hm) Hreg].
        rewrite levelKeys_cons, firstDuplicate_app in Hdup.
        pose proof (visitStatic_present call V h d s od oS data_stored statics_stored
                      statics_method keep dups e item w Hscan HkS Hhop Hke Hne
                      Hitem Hm Hnull Hin Hns) as Hstep.
        destruct (firstDuplicate dups (keysOf h item)) as [key'|]; [discriminate|].
        destruct Hstep as (w1 & Hrun1 & Hscan1).
        exists (rev (keysOf h item) ++ dups), w1. auto.
      - pose proof (visitStatic_step call V h d s od oS data_stored statics_stored
                      statics_method keep dups e w Hscan HkS Hhop Hke Hne) as Hstep.
        rewrite Hitem in Hstep. destruct Hstep as (w1 & Hrun1 & Hscan1).
        exists dups, w1. auto. }
    destruct Hnext as (dups1 & w1 & Hrun1 & Hscan1 & Hdup1 & Hreg1).
    pose proof (visitStatic_statics keep dups dups1 e w w1 Hscan HkS Hhop Hke Hne Hrun1)
      as Hres1.
    destruct (IH Hnd' Hreg1 dups1 w1 Hscan1 Hdup1) as (dups' & w' & Hrun & Hfinal & Hres).
    exists dups', w'. split.
    { simpl. now erewrite bind_ret_l by exact Hrun1. }
    split; [exact Hfinal|].
    intros k. rewrite Hres. simpl map.
    destruct (decide (toPropertyKey e = k)) as [<-|Hk].
    + rewrite (bool_decide_eq_false_2 _ Hfresh).
      rewrite (bool_decide_eq_true_2 (toPropertyKey e ∈ toPropertyKey e :: map toPropertyKey es))
        by apply list_elem_of_here.
      rewrite Hres1. clear IH Hres.
      destruct (lookupProp (toPropertyKey e) (props oS));
        destruct (frozen oS); simpl; try reflexivity.
      now rewrite bool_decide_eq_true_2.
    + assert (Hsame : bool_decide (k ∈ toPropertyKey e :: map toPropertyKey es)
                      = bool_decide (k ∈ map toPropertyKey es)).
      { apply bool_decide_ext. rewrite elem_of_cons. intuition congruence. }
      rewrite Hsame.
      assert (Hold : ownProp (heap w1) (VObj s) k = ownProp (heap w) (VObj s) k).
      { rewrite Hres1. destruct (lookupProp (toPropertyKey e) (props oS)); [reflexivity|].
        destruct (frozen oS); [reflexivity|]. now rewrite bool_decide_eq_false_2. }
      now rewrite Hold.
Qed.

End StaticEffect.

Lemma prelude_name_mode (b : bool) (h : list JSObj) (data : Value) :
  let V := staticAPI b in
  lookupProp (toPropertyKey (CLASSNAME V)) (preludeProps V h data)
  = Some (if truthy (getV h data (toPropertyKey (CLASSNAME V)))
          then getV h data (toPropertyKey (CLASSNAME V)) else VStr "ClassBase")
  /\ lookupProp (toPropertyKey (INHERITMODE V)) (preludeProps V h data)
     = Some (if includes [ABSTRACT V; FINAL V; VUndef]
                         (getV h data (toPropertyKey (INHERITMODE V)))
             then getV h data (toPropertyKey (INHERITMODE V)) else VUndef)
  /\ (toPropertyKey (CLASSNAME V) ∉ map toPropertyKey (instanceEntries V))
  /\ (toPropertyKey (INHERITMODE V) ∉ map toPropertyKey (instanceEntries V)).
Proof.
  intros V. subst V. unfold preludeProps. rewrite !lookupProp_updateProp.
  destruct b; simpl; repeat split; try reflexivity;
    apply (bool_decide_unpack _); vm_compute; exact I.
Qed.

Lemma fixupData_run_no_static
      (call : Value -> Value -> list Value -> M Value)
      (useStrings : bool) (d : nat) (od : JSObj) (w : World) :
  let V := staticAPI useStrings in
  let h := heap w in
  h !! d = Some od -> proto od = VIntrinsic IObjectPrototype ->
  lookupProp (KStr "hasOwnProperty") (props od) = None ->
  wellShaped h (VObj d) (instanceEntries V) ->
  firstDuplicate [] (levelKeys h (regions h (VObj d) (instanceEntries V))) = None ->
  lookupProp (toPropertyKey (STATIC V)) (props od) = None ->
  exists w',
    fixupData call V (VObj d) w = (Ret (VObj (length h)), w')
    /\ scanning h (heap w')
    /\ (forall k, k ∉ map toPropertyKey (instanceEntries V) ->
          ownProp (heap w') (VObj (length h)) k = lookupProp k (preludeProps V h (VObj d)))
    /\ (forall e, e ∈ instanceEntries V ->
          ownProp (heap w') (VObj (length h)) (toPropertyKey e)
          = Some (default VUndef (ownProp h (VObj d) (toPropertyKey e)))).
Proof.
  intros V h Hd Hpd Hhd Hshape Hnone HS. subst V.
  set (k := fun retval : Value =>
              _ <- forEachEntry (visitInstance call (VObj d) retval)
                     (newSet [STATIC (staticAPI useStrings); PRIVATE (staticAPI useStrings);
                              PROTECTED (staticAPI useStrings); PUBLIC (staticAPI useStrings)]) [] ;;
              statics <- Get retval (toPropertyKey (STATIC (staticAPI useStrings))) ;;
              (if truthy statics
               then _ <- forEachEntry (visitStatic call (staticAPI useStrings) (VObj d) retval)
                           (setDelete (STATIC (staticAPI useStrings))
                              (newSet [STATIC (staticAPI useStrings); PRIVATE (staticAPI useStrings);
                                       PROTECTED (staticAPI useStrings); PUBLIC (staticAPI useStrings)])) [] ;;
                    ret tt
               else ret tt) ;;;
              ret retval).
  destruct (fixupData_prelude_result (staticAPI useStrings) d od w k Hd Hpd)
    as (w1 & Hscan1 & Hprops1 & Hrun).
  assert (Hfix : fixupData call (staticAPI useStrings) (VObj d) w = k (VObj (length h)) w1)
    by exact Hrun.
  rewrite Hfix. clear Hfix Hrun. unfold k. clear k.
  change [STATIC (staticAPI useStrings); PRIVATE (staticAPI useStrings);
          PROTECTED (staticAPI useStrings); PUBLIC (staticAPI useStrings)]
    with (instanceEntries (staticAPI useStrings)).
  rewrite !entries_newSet, entries_setDelete.
  assert (Hreg1 : Forall (fun item => nullish item = false /\ inStore h item)
                         (regions h (VObj d) (instanceEntries (staticAPI useStrings)))).
  { eapply Forall_impl; [exact Hshape|]. intros x (H1 & H2 & _). now split. }
  assert (Hnd1 : NoDup (levelKeys h (regions h (VObj d)
                                       (instanceEntries (staticAPI useStrings))) ++ [])).
  { apply firstDuplicate_None; [exact Hnone|constructor]. }
  assert (Hgood : ~ Exists (fun item => malformed item = true)
                      (regions h (VObj d) (instanceEntries (staticAPI useStrings)))).
  { intros Hex. apply Exists_exists in Hex as (x & Hx & Hmx).
    unfold wellShaped in Hshape. rewrite Forall_forall in Hshape.
    destruct (Hshape x Hx) as (_ & _ & _ & Hm). congruence. }
  destruct (instance_loop call h d od (instanceEntries (staticAPI useStrings)) Hd Hpd Hhd
              (entries_instance_keys useStrings) Hreg1 [] w1 Hscan1 Hnd1) as [_ L2].
  destruct (L2 Hgood) as (dups1 & w2 & Hrun1 & Hscan2 & Hframe & Hwritten).
  erewrite bind_ret_l by exact Hrun1.
  pose proof Hscan2 as [Hext2 (oR & HoR & HpR & HfR)].
  assert (HwS : lookupProp (toPropertyKey (STATIC (staticAPI useStrings))) (props oR)
                = Some VUndef).
  { rewrite <- (ownProp_stored _ _ _ _ HoR).
    rewrite (Hwritten (STATIC (staticAPI useStrings))) by apply list_elem_of_here.
    now rewrite (ownProp_stored _ _ _ _ Hd), HS. }
  assert (HgetS : Get (VObj (length h)) (toPropertyKey (STATIC (staticAPI useStrings))) w2
                  = (Ret VUndef, w2)).
  { rewrite Get_object. now rewrite (getV_own _ _ _ _ _ HoR HwS). }
  erewrite bind_ret_l by exact HgetS. cbn [truthy]. cbv iota.
  exists w2. split; [reflexivity|]. split; [exact Hscan2|]. split.
  - intros key Hkey. rewrite (Hframe key Hkey). apply Hprops1.
  - exact Hwritten.
Qed.

Lemma fixupData_run_static
      (call : Value -> Value -> list Value -> M Value)
      (useStrings : bool) (d s : nat) (od oS : JSObj) (w : World) :
  let V := staticAPI useStrings in
  let h := heap w in
  h !! d = Some od -> proto od = VIntrinsic IObjectPrototype ->
  lookupProp (KStr "hasOwnProperty") (props od) = None ->
  wellShaped h (VObj d) (instanceEntries V) ->
  firstDuplicate [] (levelKeys h (regions h (VObj d) (instanceEntries V))) = None ->
  lookupProp (toPropertyKey (STATIC V)) (props od) = Some (VObj s) ->
  h !! s = Some oS -> proto oS = VIntrinsic IObjectPrototype ->
  lookupProp (KStr "hasOwnProperty") (props oS) = None ->
  wellShaped h (VObj s) (staticEntries V) ->
  firstDuplicate [] (levelKeys h (regions h (VObj s) (staticEntries V))) = None ->
  exists w',
    fixupData call V (VObj d) w = (Ret (VObj (length h)), w')
    /\ (forall l o, h !! l = Some o -> l <> s -> heap w' !! l = Some o)
    /\ (forall k, k ∉ map toPropertyKey (instanceEntries V) ->
          ownProp (heap w') (VObj (length h)) k = lookupProp k (preludeProps V h (VObj d)))
    /\ (forall k,
          ownProp (heap w') (VObj s) k
          = if bool_decide (k ∈ map toPropertyKey (staticEntries V)) && negb (frozen oS)
            then Some (default VUndef (lookupProp k (props oS)))
            else lookupProp k (props oS)).
Proof.
  intros V h Hd Hpd Hhd Hshape Hnone HS HsS HpS HhS HregS HnoneS. subst V.
  set (k := fun retval : Value =>
              _ <- forEachEntry (visitInstance call (VObj d) retval)
                     (newSet [STATIC (staticAPI useStrings); PRIVATE (staticAPI useStrings);
                              PROTECTED (staticAPI useStrings); PUBLIC (staticAPI useStrings)]) [] ;;
              statics <- Get retval (toPropertyKey (STATIC (staticAPI useStrings))) ;;
              (if truthy statics
               then _ <- forEachEntry (visitStatic call (staticAPI useStrings) (VObj d) retval)
                           (setDelete (STATIC (staticAPI useStrings))
                              (newSet [STATIC (staticAPI useStrings); PRIVATE (staticAPI useStrings);
                                       PROTECTED (staticAPI useStrings); PUBLIC (staticAPI useStrings)])) [] ;;
                    ret tt
               else ret tt) ;;;
              ret retval).
  destruct (fixupData_prelude_result (staticAPI useStrings) d od w k Hd Hpd)
    as (w1 & Hscan1 & Hprops1 & Hrun).
  assert (Hfix : fixupData call (staticAPI useStrings) (VObj d) w = k (VObj (length h)) w1)
    by exact Hrun.
  rewrite Hfix. clear Hfix Hrun. unfold k. clear k.
  change [STATIC (staticAPI useStrings); PRIVATE (staticAPI useStrings);
          PROTECTED (staticAPI useStrings); PUBLIC (staticAPI useStrings)]
    with (instanceEntries (staticAPI useStrings)).
  rewrite !entries_newSet, entries_setDelete.
  assert (Hreg1 : Forall (fun item => nullish item = false /\ inStore h item)
                         (regions h (VObj d) (instanceEntries (staticAPI useStrings)))).
  { eapply Forall_impl; [exact Hshape|]. intros x (H1 & H2 & _). now split. }
  assert (Hnd1 : NoDup (levelKeys h (regions h (VObj d)
                                       (instanceEntries (staticAPI useStrings))) ++ [])).
  { apply firstDuplicate_None; [exact Hnone|constructor]. }
  assert (Hgood : ~ Exists (fun item => malformed item = true)
                      (regions h (VObj d) (instanceEntries (staticAPI useStrings)))).
  { intros Hex. apply Exists_exists in Hex as (x & Hx & Hmx).
    unfold wellShaped in Hshape. rewrite Forall_forall in Hshape.
    destruct (Hshape x Hx) as (_ & _ & _ & Hm). congruence. }
  destruct (instance_loop call h d od (instanceEntries (staticAPI useStrings)) Hd Hpd Hhd
              (entries_instance_keys useStrings) Hreg1 [] w1 Hscan1 Hnd1) as [_ L2].
  destruct (L2 Hgood) as (dups1 & w2 & Hrun1 & Hscan2 & Hframe & Hwritten).
  erewrite bind_ret_l by exact Hrun1.
  pose proof Hscan2 as [Hext2 (oR & HoR & HpR & HfR)].
  assert (HwS : lookupProp (toPropertyKey (STATIC (staticAPI useStrings))) (props oR)
                = Some (VObj s)).
  { rewrite <- (ownProp_stored _ _ _ _ HoR).
    rewrite (Hwritten (STATIC (staticAPI useStrings))) by apply list_elem_of_here.
    now rewrite (ownProp_stored _ _ _ _ Hd), HS. }
  assert (HgetS : Get (VObj (length h)) (toPropertyKey (STATIC (staticAPI useStrings))) w2
                  = (Ret (VObj s), w2)).
  { rewrite Get_object. now rewrite (getV_own _ _ _ _ _ HoR HwS). }
  erewrite bind_ret_l by exact HgetS. cbn [truthy]. cbv iota.
  assert (HscanS : scanningStatic (staticAPI useStrings) h d s oS
                     (toPropertyKey (STATIC (staticAPI useStrings)) :: KStr "hasOwnProperty"
                      :: map toPropertyKey (staticEntries (staticAPI useStrings))) (heap w2)).
  { split; [intros l o Ho _; now apply Hext2|].
    split; [exists oS; repeat split; auto|].
    split; [exists od; split; auto|].
    exists oR. repeat split; auto. }
  destruct (static_loop_effect call (staticAPI useStrings) h d s od oS Hd HsS HhS
              (staticEntries (staticAPI useStrings)) (entries_keys useStrings) HregS
              [] w2 HscanS HnoneS) as (dups' & w' & Hloop & Hfinal & Hstat).
  destruct (static_loop_result call (staticAPI useStrings) h d s od oS Hd HsS HhS
              (staticEntries (staticAPI useStrings)) (entries_keys useStrings) HregS
              [] w2 HscanS HnoneS) as (dups'' & w'' & Hloop' & Hres).
  rewrite Hloop in Hloop'. injection Hloop' as <- <-.
  exists w'. split; [|split; [|split]].
  - erewrite bind_ret_l; [reflexivity|].
    erewrite bind_ret_l by exact Hloop. reflexivity.
  - destruct Hfinal as (Hext & _). exact Hext.
  - intros key Hkey. rewrite Hres.
    rewrite bool_decide_eq_false_2.
    + rewrite (Hframe key Hkey). apply Hprops1.
    + intros Hin. apply Hkey. simpl. now apply list_elem_of_further.
  - intros key. rewrite Hstat.
    rewrite (ownProp_stored _ _ _ _ (Hext2 _ _ HsS)).
    destruct (bool_decide _ && negb _); [|reflexivity].
    now destruct (lookupProp key (props oS)).
Qed.

(** X7.  The name and the inheritance mode of the normalized definition.  For a
    well-shaped definition without repeated keys, at instance level and
    inside a STATIC object if it has one, fixupData returns a result whose
    class name is the definition's when that is truthy and "ClassBase"
    otherwise, and whose inheritance mode is the definition's when that is
    ABSTRACT, FINAL or undefined; any other mode is replaced by undefined
    without an error. *)
Theorem fixupData_name_and_mode
        (call : Value -> Value -> list Value -> M Value)
        (useStrings : bool) (data : Value) (w : World) :
  let V := staticAPI useStrings in
  let h := heap w in
  let name := getV h data (toPropertyKey (CLASSNAME V)) in
  let mode := getV h data (toPropertyKey (INHERITMODE V)) in
  plainObject h data ->
  wellShaped h data (instanceEntries V) ->
  firstDuplicate [] (levelKeys h (regions h data (instanceEntries V))) = None ->
  match ownProp h data (toPropertyKey (STATIC V)) with
  | Some statics =>
      plainObject h statics /\ wellShaped h statics (staticEntries V)
      /\ firstDuplicate [] (levelKeys h (regions h statics (staticEntries V))) = None
  | None => True
  end ->
  exists retval w',
    fixupData call V data w = (Ret retval, w')
    /\ ownProp (heap w') retval (toPropertyKey (CLASSNAME V))
       = Some (if truthy name then name else VStr "ClassBase")
    /\ ownProp (heap w') retval (toPropertyKey (INHERITMODE V))
       = Some (if includes [ABSTRACT V; FINAL V; VUndef] mode then mode else VUndef).
Proof.
  intros V h name mode (d & od & -> & Hd & Hpd & Hhd) Hshape Hnone Hstatic.
  subst V name mode h.
  destruct (prelude_name_mode useStrings (heap w) (VObj d)) as (Hname & Hmode & HnC & HnI).
  rewrite (ownProp_stored _ _ _ _ Hd) in Hstatic.
  destruct (lookupProp (toPropertyKey (STATIC (staticAPI useStrings))) (props od))
    as [statics|] eqn:HS.
  - destruct Hstatic as ((s & oS & -> & HsS & HpS & HhS) & HshapeS & HnoneS).
    destruct (fixupData_run_static call useStrings d s od oS w Hd Hpd Hhd Hshape Hnone HS
                HsS HpS HhS HshapeS HnoneS) as (w' & Hrun & _ & Hframe & _).
    exists (VObj (length (heap w))), w'. split; [exact Hrun|].
    rewrite (Hframe _ HnC), (Hframe _ HnI). now split.
  - destruct (fixupData_run_no_static call useStrings d od w Hd Hpd Hhd Hshape Hnone HS)
      as (w' & Hrun & _ & Hframe & _).
    exists (VObj (length (heap w))), w'. split; [exact Hrun|].
    rewrite (Hframe _ HnC), (Hframe _ HnI). now split.
Qed.

Lemma fixupData_name_and_mode_witness :
  let w := withHeap [Examples.plain [(KStr "className", VStr EmptyString);
                                     (KStr "inheritMode", VStr "sealed")]]
             Examples.emptyWorld in
  exists retval w',
    fixupData Examples.noCall (staticAPI true) (VObj 0) w = (Ret retval, w')
    /\ ownProp (heap w') retval (KStr "className") = Some (VStr "ClassBase")
    /\ ownProp (heap w') retval (KStr "inheritMode") = Some VUndef.
Proof.
  exact (fixupData_name_and_mode Examples.noCall true (VObj 0)
           (withHeap [Examples.plain [(KStr "className", VStr EmptyString);
                                      (KStr "inheritMode", VStr "sealed")]]
              Examples.emptyWorld)
           (ex_intro _ 0 (ex_intro _ (Examples.plain [(KStr "className", VStr EmptyString);
                                                      (KStr "inheritMode", VStr "sealed")])
              (conj eq_refl (conj eq_refl (conj eq_refl eq_refl)))))
           ltac:(unfold wellShaped; simpl; constructor) eq_refl I).
Defined.

(** X8.  A definition without a STATIC property.  For a well-shaped definition
    without repeated keys, fixupData returns a fresh object and leaves every
    object of the caller as it was.  The result has all four region keys as
    own properties: STATIC holds undefined (the empty object of line 207 is
    overwritten on line 237), and each of PRIVATE, PROTECTED and PUBLIC holds
    the definition's own region, or undefined where it has none. *)
Theorem fixupData_without_static
        (call : Value -> Value -> list Value -> M Value)
        (useStrings : bool) (data : Value) (w : World) :
  let V := staticAPI useStrings in
  let h := heap w in
  plainObject h data ->
  wellShaped h data (instanceEntries V) ->
  firstDuplicate [] (levelKeys h (regions h data (instanceEntries V))) = None ->
  ownProp h data (toPropertyKey (STATIC V)) = None ->
  exists w',
    fixupData call V data w = (Ret (VObj (length h)), w')
    /\ (forall l o, h !! l = Some o -> heap w' !! l = Some o)
    /\ ownProp (heap w') (VObj (length h)) (toPropertyKey (STATIC V)) = Some VUndef
    /\ (forall entry, entry ∈ staticEntries V ->
          ownProp (heap w') (VObj (length h)) (toPropertyKey entry)
          = Some (default VUndef (ownProp h data (toPropertyKey entry)))).
Proof.
  intros V h (d & od & -> & Hd & Hpd & Hhd) Hshape Hnone HS. subst V h.
  pose proof HS as HS'. rewrite (ownProp_stored _ _ _ _ Hd) in HS'.
  destruct (fixupData_run_no_static call useStrings d od w Hd Hpd Hhd Hshape Hnone HS')
    as (w' & Hrun & [Hext _] & _ & Hwritten).
  exists w'. split; [exact Hrun|]. split; [exact Hext|]. split.
  - rewrite (Hwritten (STATIC (staticAPI useStrings))) by apply list_elem_of_here.
    now rewrite HS.
  - intros entry Hentry. apply Hwritten. now apply list_elem_of_further.
Qed.

Lemma fixupData_without_static_witness :
  let w0 := withHeap [Examples.plain [(KStr "x", VNum 1)];
                      Examples.plain [(KStr "y", VNum 2)];
                      Examples.plain [(KStr "private", VObj 0); (KStr "public", VObj 1)]]
              Examples.emptyWorld in
  exists w',
    fixupData Examples.noCall (staticAPI true) (VObj 2) w0 = (Ret (VObj 3), w')
    /\ (forall l o, heap w0 !! l = Some o -> heap w' !! l = Some o)
    /\ ownProp (heap w') (VObj 3) (KStr "static") = Some VUndef
    /\ (forall entry, entry ∈ staticEntries (staticAPI true) ->
          ownProp (heap w') (VObj 3) (toPropertyKey entry)
          = Some (default VUndef (ownProp (heap w0) (VObj 2) (toPropertyKey entry)))).
Proof.
  exact (fixupData_without_static Examples.noCall true (VObj 2)
           (withHeap [Examples.plain [(KStr "x", VNum 1)];
                      Examples.plain [(KStr "y", VNum 2)];
                      Examples.plain [(KStr "private", VObj 0); (KStr "public", VObj 1)]]
              Examples.emptyWorld)
           (ex_intro _ 2 (ex_intro _ (Examples.plain [(KStr "private", VObj 0);
                                                      (KStr "public", VObj 1)])
              (conj eq_refl (conj eq_refl (conj eq_refl eq_refl)))))
           ltac:(vm_compute; repeat constructor; simpl; try lia; discriminate)
           eq_refl eq_refl).
Defined.

(** X9.  FixupData writes into the caller's STATIC object.  The result's STATIC
    property is that very object (line 234), so line 254 stores undefined in
    the definition's own STATIC for every region it lacks: after a
    successful call on a well-shaped definition the STATIC object has all of
    PRIVATE, PROTECTED and PUBLIC as own properties, unless it is frozen, in
    which case the write is dropped and it stays as it was.  Its other
    properties and every other object of the caller are unchanged. *)
Theorem fixupData_fills_static
        (call : Value -> Value -> list Value -> M Value)
        (useStrings : bool) (data statics : Value) (w : World) :
  let V := staticAPI useStrings in
  let h := heap w in
  plainObject h data ->
  wellShaped h data (instanceEntries V) ->
  firstDuplicate [] (levelKeys h (regions h data (instanceEntries V))) = None ->
  ownProp h data (toPropertyKey (STATIC V)) = Some statics ->
  plainObject h statics ->
  wellShaped h statics (staticEntries V) ->
  firstDuplicate [] (levelKeys h (regions h statics (staticEntries V))) = None ->
  exists retval w',
    fixupData call V data w = (Ret retval, w')
    /\ (forall k,
          ownProp (heap w') statics k
          = if bool_decide (k ∈ map toPropertyKey (staticEntries V))
               && negb (isFrozenObj h statics)
            then Some (default VUndef (ownProp h statics k))
            else ownProp h statics k)
    /\ (forall l o, h !! l = Some o -> VObj l <> statics -> heap w' !! l = Some o).
Proof.
  intros V h (d & od & -> & Hd & Hpd & Hhd) Hshape Hnone HS
         (s & oS & -> & HsS & HpS & HhS) HshapeS HnoneS.
  subst V h. rewrite (ownProp_stored _ _ _ _ Hd) in HS.
  destruct (fixupData_run_static call useStrings d s od oS w Hd Hpd Hhd Hshape Hnone HS
              HsS HpS HhS HshapeS HnoneS) as (w' & Hrun & Hext & _ & Hstat).
  exists (VObj (length (heap w))), w'. split; [exact Hrun|]. split.
  - intros k. rewrite Hstat, (ownProp_stored _ _ _ _ HsS).
    unfold isFrozenObj. now rewrite HsS.
  - intros l o Ho Hl. apply Hext; [exact Ho|]. congruence.
Qed.

Lemma fixupData_fills_static_witness :
  let w := Examples.staticPublic in
  exists retval w',
    fixupData Examples.noCall (staticAPI true) (VObj 3) w = (Ret retval, w')
    /\ (forall k,
          ownProp (heap w') (VObj 2) k
          = if bool_decide (k ∈ [KStr "private"; KStr "protected"; KStr "public"])
               && negb (isFrozenObj (heap w) (VObj 2))
            then Some (default VUndef (ownProp (heap w) (VObj 2) k))
            else ownProp (heap w) (VObj 2) k)
    /\ (forall l o, heap w !! l = Some o -> VObj l <> VObj 2 -> heap w' !! l = Some o).
Proof.
  exact (fixupData_fills_static Examples.noCall true (VObj 3) (VObj 2)
           Examples.staticPublic
           (ex_intro _ 3 (ex_intro _ (Examples.plain [(KStr "public", VObj 0);
                                                      (KStr "static", VObj 2)])
              (conj eq_refl (conj eq_refl (conj eq_refl eq_refl)))))
           ltac:(vm_compute; repeat constructor; simpl; try lia; discriminate)
           eq_refl eq_refl
           (ex_intro _ 2 (ex_intro _ (Examples.plain [(KStr "public", VObj 1)])
              (conj eq_refl (conj eq_refl (conj eq_refl eq_refl)))))
           ltac:(vm_compute; repeat constructor; simpl; try lia; discriminate)
           eq_refl).
Defined.

(** ** What the class factory leaves alone *)

Lemma storeOnly_refl (w : World) : storeOnly w w.
Proof. now destruct w. Qed.

Lemma storeOnly_trans (w1 w2 w3 : World) :
  storeOnly w1 w2 -> storeOnly w2 w3 -> storeOnly w1 w3.
Proof. unfold storeOnly. intros -> ->. reflexivity. Qed.

Lemma storeOnly_withHeap (w : World) (h : list JSObj) : storeOnly w (withHeap h w).
Proof. reflexivity. Qed.

Lemma storeOnly_tables (w w' : World) :
  storeOnly w w' ->
  classDefs w' = classDefs w /\ initFns w' = initFns w /\ owners w' = owners w
  /\ connections w' = connections w /\ stack w' = stack w /\ proxyMap w' = proxyMap w.
Proof. intros ->. repeat split. Qed.

Lemma frames_ret {A : Type} (a : A) : frames (ret a).
Proof. intros w. apply storeOnly_refl. Qed.

Lemma frames_throw {A : Type} (e : Error) : frames (@throw World A e).
Proof. intros w. apply storeOnly_refl. Qed.

Lemma frames_bind {A B : Type} (m : M A) (f : A -> M B) :
  frames m -> (forall a, frames (f a)) -> frames (bind m f).
Proof.
  intros Hm Hf w. unfold bind. specialize (Hm w).
  destruct (m w) as [[a|e] w1]; simpl in *; [|exact Hm].
  eapply storeOnly_trans; [exact Hm|apply Hf].
Qed.

Lemma frames_Get (o : Value) (k : Key) : frames (Get o k).
Proof. intros w. destruct o; apply storeOnly_refl. Qed.

Lemma frames_Put (o : Value) (k : Key) (v : Value) : frames (Put o k v).
Proof.
  intros w. destruct o; try apply storeOnly_refl; simpl;
    destruct (_ || _); first [apply storeOnly_refl | apply storeOnly_withHeap].
Qed.

Lemma frames_newObject (ps : list (Key * Value)) : frames (newObject ps).
Proof. intros w. apply storeOnly_withHeap. Qed.

Lemma frames_defineOwn (o : Value) (k : Key) (v : Value) : frames (defineOwn o k v).
Proof. intros w. destruct o; first [apply storeOnly_refl | apply storeOnly_withHeap]. Qed.

Lemma frames_toStringJS (v : Value) : frames (toStringJS v).
Proof. intros w. destruct v as [| |[]| | | | | | |[]]; apply storeOnly_refl. Qed.

Lemma frames_getAllKeys (obj : Value) : frames (getAllKeys obj).
Proof. intros w. rewrite getAllKeys_state. apply storeOnly_refl. Qed.

Lemma frames_checkForDuplicates (dups : list Key) (obj : Value) :
  frames (checkForDuplicates dups obj).
Proof. intros w. rewrite checkForDuplicates_state. apply storeOnly_refl. Qed.

Section Frames.

Variable call : Value -> Value -> list Value -> M Value.
Hypothesis call_frames : forall f this args, frames (call f this args).

Lemma frames_invoke (f this : Value) (args : list Value) : frames (invoke call f this args).
Proof.
  intros w. destruct f as [| | | | | | | | |[]]; try apply storeOnly_refl;
    try apply call_frames.
  - destruct this; apply storeOnly_refl.
  - simpl. unfold freeze. destruct (arg 0 args); try apply storeOnly_refl;
      simpl; destruct (heap w !! l); first [apply storeOnly_refl | apply storeOnly_withHeap].
Qed.

Lemma frames_hasOwnProperty (o k : Value) : frames (hasOwnProperty call o k).
Proof. apply frames_bind; [apply frames_Get|]. intros f. apply frames_invoke. Qed.

Lemma frames_visitInstance (data retval : Value) (dups : list Key) (entry : Value) :
  frames (visitInstance call data retval dups entry).
Proof.
  unfold visitInstance.
  apply frames_bind; [apply frames_hasOwnProperty|]. intros present.
  destruct (truthy present).
  - apply frames_bind; [apply frames_Get|]. intros item.
    apply frames_bind.
    { destruct (_ && _); [|apply frames_ret].
      apply frames_bind; [apply frames_toStringJS|]. intros s. apply frames_throw. }
    intros _. apply frames_bind; [apply frames_checkForDuplicates|]. intros dups'.
    apply frames_bind; [apply frames_Put|]. intros _. apply frames_ret.
  - apply frames_bind; [apply frames_Put|]. intros _. apply frames_ret.
Qed.

Lemma frames_visitStatic (V : Vocabulary) (data retval : Value) (dups : list Key)
      (entry : Value) :
  frames (visitStatic call V data retval dups entry).
Proof.
  unfold visitStatic.
  apply frames_bind; [apply frames_Get|]. intros statics.
  apply frames_bind.
  { destruct (truthy statics); [|apply frames_ret].
    apply frames_bind; [apply frames_Get|]. intros s'. apply frames_hasOwnProperty. }
  intros present. destruct (truthy present).
  - apply frames_bind; [apply frames_Get|]. intros s''.
    apply frames_bind; [apply frames_Get|]. intros item.
    apply frames_bind.
    { destruct (_ && _); [|apply frames_ret].
      apply frames_bind; [apply frames_toStringJS|]. intros s. apply frames_throw. }
    intros _. apply frames_bind; [apply frames_checkForDuplicates|]. intros dups'.
    apply frames_bind; [apply frames_Put|]. intros _. apply frames_ret.
  - apply frames_bind; [apply frames_Get|]. intros target.
    apply frames_bind; [apply frames_Put|]. intros _. apply frames_ret.
Qed.

Lemma frames_forEachEntry (visit : list Key -> Value -> M (list Key))
      (es : list Value) (dups : list Key) :
  (forall dups e, frames (visit dups e)) -> frames (forEachEntry visit es dups).
Proof.
  intros Hvisit. revert dups. induction es as [|e es IH]; intros dups; simpl.
  - apply frames_ret.
  - apply frames_bind; [apply Hvisit|]. exact IH.
Qed.

Lemma frames_fixupData (V : Vocabulary) (data : Value) : frames (fixupData call V data).
Proof.
  unfold fixupData.
  apply frames_bind; [apply frames_newObject|]. intros retval.
  apply frames_bind; [apply frames_newObject|]. intros inner.
  apply frames_bind; [apply frames_defineOwn|]. intros _.
  apply frames_bind; [apply frames_Get|]. intros name.
  apply frames_bind; [apply frames_Put|]. intros _.
  apply frames_bind; [apply frames_Get|]. intros mode.
  apply frames_bind.
  { destruct (includes _ _); [|apply frames_Put].
    apply frames_bind; [apply frames_Get|]. intros mode'. apply frames_Put. }
  intros _.
  apply frames_bind.
  { apply frames_forEachEntry. intros dups e. apply frames_visitInstance. }
  intros _.
  apply frames_bind; [apply frames_Get|]. intros statics.
  apply frames_bind; [|intros _; apply frames_ret].
  destruct (truthy statics); [|apply frames_ret].
  apply frames_bind; [|intros _; apply frames_ret].
  apply frames_forEachEntry. intros dups e. apply frames_visitStatic.
Qed.

Lemma frames_arguments (args : list Value) : frames (arguments args).
Proof.
  unfold arguments. destruct args as [|base [|data rest]].
  - apply frames_bind; [apply frames_newObject|]. intros data. apply frames_ret.
  - destruct (String.eqb (typeof base) "function").
    + apply frames_bind; [apply frames_newObject|]. intros data. apply frames_ret.
    + destruct (String.eqb (typeof base) "object"); [|apply frames_throw].
      apply frames_bind; [|intros data; apply frames_ret].
      destruct (truthy base); [apply frames_ret|apply frames_newObject].
  - apply frames_bind.
    { destruct (strictEq _ _); [apply frames_throw|apply frames_ret]. }
    intros _. apply frames_bind; [|intros _; apply frames_ret].
    destruct (negb _); [apply frames_throw|apply frames_ret].
Qed.

Lemma frames_rejectFinalBase (V : Vocabulary) (base : Value) :
  frames (rejectFinalBase V base).
Proof.
  unfold rejectFinalBase. intros w. unfold bind at 1. unfold getWorld at 1.
  destruct (wmHas (classDefs w) base); [|apply storeOnly_refl].
  generalize (wmGet (classDefs w) base). intros target.
  revert w. apply frames_bind; [apply frames_Get|]. intros mode.
  apply frames_bind.
  { intros w. unfold readClassic. destruct (Classic w); apply storeOnly_refl. }
  intros classic. apply frames_bind; [apply frames_Get|]. intros final.
  destruct (strictEq mode final); [apply frames_throw|apply frames_ret].
Qed.

Lemma frames_ClassicM (V : Vocabulary) (args : list Value) : frames (ClassicM call V args).
Proof.
  unfold ClassicM.
  apply frames_bind; [apply frames_arguments|]. intros bd.
  apply frames_bind; [apply frames_fixupData|]. intros definition.
  apply frames_bind; [apply frames_rejectFinalBase|]. intros _.
  apply frames_bind; [apply frames_Get|]. intros name.
  apply frames_bind; [apply frames_throw|]. intros newClass. apply frames_ret.
Qed.

End Frames.

Lemma arguments_two (base data : Value) (rest : list Value) (w : World) :
  arguments (base :: data :: rest) w
  = if truthy data && String.eqb (typeof data) "object"
    then (Ret (base, data), w)
    else (Throw (TypeError "Parameter 'base' must be a constructor function or undefined."), w).
Proof.
  unfold arguments.
  assert (Hdead : strictEq (VBool (negb (truthy (VStr (typeof base))))) (VStr "function")
                  = false) by (now destruct (negb _)).
  rewrite Hdead. destruct (truthy data && String.eqb (typeof data) "object"); reflexivity.
Qed.

(** X10.  The argument switch of ClassicM.  A single argument that is neither a
    function nor an object (or null) is refused with "Invalid argument.".
    With two or more arguments only the definition is tested: when it is not
    a truthy object the call fails with a TypeError whose message names the
    parameter 'base', and when it is one the switch lets every base through,
    function or not, because the test of line 408 compares a boolean with
    a string.  In each case the world is left as it was. *)
Theorem ClassicM_argument_switch
        (call : Value -> Value -> list Value -> M Value) (V : Vocabulary) (w : World) :
  (forall v, String.eqb (typeof v) "function" = false ->
             String.eqb (typeof v) "object" = false ->
             ClassicM call V [v] w = (Throw (TypeError "Invalid argument."), w))
  /\ (forall base data rest,
        truthy data && String.eqb (typeof data) "object" = false ->
        ClassicM call V (base :: data :: rest) w
        = (Throw (TypeError "Parameter 'base' must be a constructor function or undefined."),
           w))
  /\ (forall base data rest,
        truthy data && String.eqb (typeof data) "object" = true ->
        arguments (base :: data :: rest) w = (Ret (base, data), w)).
Proof.
  split; [|split].
  - intros v Hf Ho. unfold ClassicM, arguments. rewrite Hf, Ho. reflexivity.
  - intros base data rest Hd. unfold ClassicM.
    erewrite bind_throw_l; [reflexivity|]. now rewrite arguments_two, Hd.
  - intros base data rest Hd. now rewrite arguments_two, Hd.
Qed.

(** X11.  Whatever is passed as base, a function or not, ClassicM gets to the eval
    call of line 431 when the definition is an object that fixupData accepts
    and base is not a key of classDefs: the call fails with the SyntaxError
    of that eval, in the world fixupData left. *)
Theorem ClassicM_reaches_eval
        (call : Value -> Value -> list Value -> M Value) (V : Vocabulary)
        (base data : Value) (rest : list Value) (retval : Value) (w w1 : World) :
  (forall f this args, frames (call f this args)) ->
  truthy data && String.eqb (typeof data) "object" = true ->
  fixupData call V data w = (Ret retval, w1) ->
  wmHas (classDefs w) base = false ->
  ClassicM call V (base :: data :: rest) w
  = (Throw (SyntaxError "Unexpected token ')'"), w1).
Proof.
  intros Hcall Hdata Hfix Hbase. unfold ClassicM.
  erewrite bind_ret_l by (now rewrite arguments_two, Hdata). simpl.
  erewrite bind_ret_l by exact Hfix.
  assert (Hdefs : classDefs w1 = classDefs w).
  { pose proof (frames_fixupData call Hcall V data w) as Hfr. rewrite Hfix in Hfr.
    now apply storeOnly_tables in Hfr as [Hfr _]. }
  assert (Hrej : rejectFinalBase V base w1 = (Ret tt, w1)).
  { unfold rejectFinalBase, bind, getWorld. now rewrite Hdefs, Hbase. }
  erewrite bind_ret_l by exact Hrej.
  assert (Hget : exists name, Get data (toPropertyKey (CLASSNAME V)) w1 = (Ret name, w1)).
  { destruct data; try discriminate; eexists; reflexivity. }
  destruct Hget as [name Hget].
  erewrite bind_ret_l by exact Hget. reflexivity.
Qed.

Lemma ClassicM_reaches_eval_witness :
  let w := withHeap [Examples.plain []] Examples.emptyWorld in
  ClassicM Examples.noCall (staticAPI true) [VNum 5; VObj 0] w
  = (Throw (SyntaxError "Unexpected token ')'"),
     snd (fixupData Examples.noCall (staticAPI true) (VObj 0) w)).
Proof.
  apply (ClassicM_reaches_eval Examples.noCall (staticAPI true) (VNum 5) (VObj 0) []
           (VObj 1) (withHeap [Examples.plain []] Examples.emptyWorld)
           (snd (fixupData Examples.noCall (staticAPI true) (VObj 0)
                   (withHeap [Examples.plain []] Examples.emptyWorld)))
           (fun _ _ _ w => storeOnly_refl w)); vm_compute; reflexivity.
Defined.

(** X12.  ClassicM changes nothing but the object store, provided the functions
    it may call from outside the module (a hasOwnProperty the definition
    overrides) do not: whatever the arguments, classDefs, initFns, owners,
    connections and the call-stack trace are after the call what they were
    before it.  No class is ever recorded in classDefs. *)
Theorem ClassicM_registers_nothing
        (call : Value -> Value -> list Value -> M Value) (V : Vocabulary)
        (args : list Value) (w : World) :
  (forall f this args, frames (call f this args)) ->
  let w' := snd (ClassicM call V args w) in
  classDefs w' = classDefs w /\ initFns w' = initFns w /\ owners w' = owners w
  /\ connections w' = connections w /\ stack w' = stack w /\ proxyMap w' = proxyMap w.
Proof.
  intros Hcall w'. apply storeOnly_tables. apply (frames_ClassicM call Hcall).
Qed.

Lemma ClassicM_registers_nothing_witness :
  let w := Examples.finalBase in
  let w' := snd (ClassicM Examples.noCall (staticAPI true) [VFun 0; VObj 2] w) in
  classDefs w' = classDefs w /\ initFns w' = initFns w /\ owners w' = owners w
  /\ connections w' = connections w /\ stack w' = stack w /\ proxyMap w' = proxyMap w.
Proof.
  exact (ClassicM_registers_nothing Examples.noCall (staticAPI true) [VFun 0; VObj 2]
           Examples.finalBase (fun _ _ _ w => storeOnly_refl w)).
Defined.

(** ** The wrapper factory *)

Lemma getV_function (h : list JSObj) (l : nat) (o : JSObj) (k : Key) :
  h !! l = Some o -> proto o = VIntrinsic IObjectPrototype ->
  getV h (VFun l) k
  = match lookupProp k (props o) with
    | Some x => x
    | None =>
        match lookupProp k (ownProps [] (VIntrinsic IObjectPrototype)) with
        | Some x => x
        | None => VUndef
        end
    end.
Proof.
  intros Hl Hp. unfold getV, chainFuel. simpl. rewrite Hl.
  destruct (lookupProp k (props o)); [reflexivity|].
  rewrite Hp. simpl.
  destruct (bool_decide (KStr "constructor" = k)); [reflexivity|].
  destruct (bool_decide (KStr "hasOwnProperty" = k)); reflexivity.
Qed.

Lemma defineOwn_new (w : World) (h rest : list JSObj) (ps : list (Key * Value))
      (k : Key) (v : Value) :
  defineOwn (VFun (length h)) k v
    (withHeap (h ++ mkObj (VIntrinsic IObjectPrototype) ps false :: rest) w)
  = (Ret tt,
     withHeap (h ++ mkObj (VIntrinsic IObjectPrototype) (updateProp k v ps) false :: rest) w).
Proof.
  unfold defineOwn, setOwn. cbn [heap withHeap].
  rewrite list_lookup_middle by reflexivity.
  rewrite insert_app_r_alt by lia. now rewrite Nat.sub_diag.
Qed.

Lemma wrapper_props (a b c d e : Value) :
  updateProp (KStr "length") e
    (updateProp (KStr "toString") d
       (updateProp (KStr "bind") c
          (updateProp (KStr "owner") b
             (updateProp (KStr "displayName") a []))))
  = [(KStr "displayName", a); (KStr "owner", b); (KStr "bind", c);
     (KStr "toString", d); (KStr "length", e)].
Proof. vm_compute. reflexivity. Qed.

(** What makePvtName does when fn is a function object of the store whose
    name converts to a string. *)
Lemma makePvtName_runs
      (name : string) (l : nat) (fo : JSObj) (owner : Value) (w : World) (shown : string) :
  heap w !! l = Some fo -> proto fo = VIntrinsic IObjectPrototype ->
  (forall w0, toStringJS (getV (heap w) (VFun l) (KStr "name")) w0 = (Ret shown, w0)) ->
  makePvtName name (VFun l) owner w
  = (Ret (VFun (length (heap w))),
     withOwners (wmSet (owners w) (VFun (length (heap w))) owner)
       (withHeap
          (heap w ++
             [mkObj (VIntrinsic IObjectPrototype)
                [(KStr "displayName", VStr (shown +:+ " wrapper (as " +:+ name +:+ ")"));
                 (KStr "owner", owner);
                 (KStr "bind", VFun (S (length (heap w))));
                 (KStr "toString", VFun (S (S (length (heap w)))));
                 (KStr "length", getV (heap w) (VFun l) (KStr "length"))] false;
              mkObj (VIntrinsic IObjectPrototype) [] false;
              mkObj (VIntrinsic IObjectPrototype) [] false])
          w)).
Proof.
  intros Hl Hp Hshown. unfold makePvtName.
  set (h := heap w) in *. set (n := length h).
  set (f := mkObj (VIntrinsic IObjectPrototype) [] false).
  assert (Hg : forall t k, getV (h ++ t) (VFun l) k = getV h (VFun l) k).
  { intros t k. rewrite (getV_function (h ++ t) l fo k), (getV_function h l fo k); auto.
    now apply lookup_app_l_Some. }
  assert (H1 : newFunction [] w = (Ret (VFun n), withHeap (h ++ [f]) w)) by reflexivity.
  erewrite bind_ret_l by exact H1.
  assert (H2 : Get (VFun l) (KStr "name") (withHeap (h ++ [f]) w)
               = (Ret (getV h (VFun l) (KStr "name")), withHeap (h ++ [f]) w)).
  { unfold Get. cbn [heap withHeap]. now rewrite Hg. }
  erewrite bind_ret_l by exact H2.
  erewrite bind_ret_l by apply Hshown.
  assert (H3 : newFunction [] (withHeap (h ++ [f]) w)
               = (Ret (VFun (S n)), withHeap (h ++ [f; f]) w)).
  { unfold newFunction. cbn [heap withHeap]. rewrite length_app, <- app_assoc.
    cbn [length app]. fold n. now replace (n + 1) with (S n) by lia. }
  erewrite bind_ret_l by exact H3.
  assert (H4 : newFunction [] (withHeap (h ++ [f; f]) w)
               = (Ret (VFun (S (S n))), withHeap (h ++ [f; f; f]) w)).
  { unfold newFunction. cbn [heap withHeap]. rewrite length_app, <- app_assoc.
    cbn [length app]. fold n. now replace (n + 2) with (S (S n)) by lia. }
  erewrite bind_ret_l by exact H4.
  assert (H5 : Get (VFun l) (KStr "length") (withHeap (h ++ [f; f; f]) w)
               = (Ret (getV h (VFun l) (KStr "length")), withHeap (h ++ [f; f; f]) w)).
  { unfold Get. cbn [heap withHeap]. now rewrite Hg. }
  erewrite bind_ret_l by exact H5.
  erewrite bind_ret_l by (apply (defineOwn_new w h [f; f] [])).
  erewrite bind_ret_l by (apply (defineOwn_new w h [f; f])).
  erewrite bind_ret_l by (apply (defineOwn_new w h [f; f])).
  erewrite bind_ret_l by (apply (defineOwn_new w h [f; f])).
  erewrite bind_ret_l by (apply (defineOwn_new w h [f; f])).
  rewrite wrapper_props.
  erewrite bind_ret_l by reflexivity.
  reflexivity.
Qed.

Lemma wmGet_wmSet_eq (m : list (Value * Value)) (k v : Value) :
  wmGet (wmSet m k v) k = v.
Proof.
  induction m as [|[k' v'] m IH]; cbn [wmSet wmGet].
  - now rewrite bool_decide_eq_true_2.
  - destruct (decide (k' = k)) as [->|Hne].
    + rewrite bool_decide_eq_true_2 by reflexivity. cbn [wmGet].
      now rewrite bool_decide_eq_true_2.
    + rewrite bool_decide_eq_false_2 by exact Hne. cbn [wmGet].
      now rewrite bool_decide_eq_false_2 by exact Hne.
Qed.

Lemma wmGet_wmSet_ne (m : list (Value * Value)) (k k' v : Value) :
  k' <> k -> wmGet (wmSet m k v) k' = wmGet m k'.
Proof.
  intros Hne. induction m as [|[k0 v0] m IH]; cbn [wmSet wmGet].
  - rewrite bool_decide_eq_false_2; [reflexivity|congruence].
  - destruct (decide (k0 = k)) as [->|Hk].
    + rewrite bool_decide_eq_true_2 by reflexivity. cbn [wmGet].
      rewrite !(bool_decide_eq_false_2 (k = k')) by congruence. reflexivity.
    + rewrite bool_decide_eq_false_2 by exact Hk. cbn [wmGet].
      destruct (bool_decide (k0 = k')); [reflexivity|exact IH].
Qed.

Lemma toStringJS_anywhere (v : Value) (s : string) (w w0 : World) :
  toStringJS v w = (Ret s, w) -> toStringJS v w0 = (Ret s, w0).
Proof.
  destruct v as [| |[]| | | | | | |[]]; simpl; unfold ret, throw; congruence.
Qed.

Lemma wrapper_lookups (a b c d e : Value) :
  let ps := [(KStr "displayName", a); (KStr "owner", b); (KStr "bind", c);
             (KStr "toString", d); (KStr "length", e)] in
  lookupProp (KStr "owner") ps = Some b
  /\ lookupProp (KStr "length") ps = Some e
  /\ lookupProp (KStr "displayName") ps = Some a.
Proof. vm_compute. repeat split. Qed.

(** X13.  MakePvtName on a function object of the store whose name converts to a
    string: the wrapper it returns is a new function object, recorded in
    owners under the given owner without disturbing the other entries; its
    own properties owner, length and displayName are the owner, the length
    of the wrapped function and the display name built from the function's
    name and the generated name; the objects that existed before are
    untouched. *)
Theorem makePvtName_registers_owner
        (name : string) (l : nat) (fo : JSObj) (owner : Value) (w : World)
        (shown : string) :
  heap w !! l = Some fo -> proto fo = VIntrinsic IObjectPrototype ->
  toStringJS (getV (heap w) (VFun l) (KStr "name")) w = (Ret shown, w) ->
  exists w',
    makePvtName name (VFun l) owner w = (Ret (VFun (length (heap w))), w')
    /\ wmHas (owners w') (VFun (length (heap w))) = true
    /\ wmGet (owners w') (VFun (length (heap w))) = owner
    /\ (forall k, k <> VFun (length (heap w)) -> wmGet (owners w') k = wmGet (owners w) k)
    /\ getV (heap w') (VFun (length (heap w))) (KStr "owner") = owner
    /\ getV (heap w') (VFun (length (heap w))) (KStr "length")
       = getV (heap w) (VFun l) (KStr "length")
    /\ getV (heap w') (VFun (length (heap w))) (KStr "displayName")
       = VStr (shown +:+ " wrapper (as " +:+ name +:+ ")")
    /\ (forall l' o, heap w !! l' = Some o -> heap w' !! l' = Some o).
Proof.
  intros Hl Hp Hshown.
  eexists. split.
  { apply (makePvtName_runs name l fo owner w shown Hl Hp).
    intros w0. eapply toStringJS_anywhere. exact Hshown. }
  cbn [owners withOwners withHeap heap].
  split; [apply wmHas_wmSet|]. split; [apply wmGet_wmSet_eq|].
  split; [intros k Hk; now apply wmGet_wmSet_ne|].
  set (wobj := mkObj (VIntrinsic IObjectPrototype)
                 [(KStr "displayName", VStr (shown +:+ " wrapper (as " +:+ name +:+ ")"));
                  (KStr "owner", owner);
                  (KStr "bind", VFun (S (length (heap w))));
                  (KStr "toString", VFun (S (S (length (heap w)))));
                  (KStr "length", getV (heap w) (VFun l) (KStr "length"))] false).
  assert (Hlook : forall t, (heap w ++ wobj :: t) !! length (heap w) = Some wobj)
    by (intros t; now rewrite list_lookup_middle).
  rewrite !(getV_function _ _ _ _ (Hlook _) eq_refl).
  unfold wobj. cbn [props].
  destruct (wrapper_lookups (VStr (shown +:+ " wrapper (as " +:+ name +:+ ")")) owner
              (VFun (S (length (heap w)))) (VFun (S (S (length (heap w)))))
              (getV (heap w) (VFun l) (KStr "length"))) as (-> & -> & ->).
  repeat split. intros l' o Ho. now apply lookup_app_l_Some.
Qed.

Lemma makePvtName_registers_owner_witness :
  let w := withHeap [Examples.plain [(KStr "name", VStr "greet"); (KStr "length", VNum 2)]]
             Examples.emptyWorld in
  exists w',
    makePvtName "_$1$_" (VFun 0) (VObj 7) w = (Ret (VFun 1), w')
    /\ wmHas (owners w') (VFun 1) = true
    /\ wmGet (owners w') (VFun 1) = VObj 7
    /\ (forall k, k <> VFun 1 -> wmGet (owners w') k = wmGet (owners w) k)
    /\ getV (heap w') (VFun 1) (KStr "owner") = VObj 7
    /\ getV (heap w') (VFun 1) (KStr "length") = VNum 2
    /\ getV (heap w') (VFun 1) (KStr "displayName") = VStr "greet wrapper (as _$1$_)"
    /\ (forall l' o, heap w !! l' = Some o -> heap w' !! l' = Some o).
Proof.
  exact (makePvtName_registers_owner "_$1$_" 0
           (Examples.plain [(KStr "name", VStr "greet"); (KStr "length", VNum 2)])
           (VObj 7)
           (withHeap [Examples.plain [(KStr "name", VStr "greet"); (KStr "length", VNum 2)]]
              Examples.emptyWorld)
           "greet" eq_refl eq_refl eq_refl).
Defined.

(** X14.  Wrapping the same function twice gives two different wrappers, and
    owners holds each of them with the owner it was made for. *)
Theorem makePvtName_twice
        (name1 name2 : string) (l : nat) (fo : JSObj) (owner1 owner2 : Value)
        (w : World) (shown : string) :
  heap w !! l = Some fo -> proto fo = VIntrinsic IObjectPrototype ->
  toStringJS (getV (heap w) (VFun l) (KStr "name")) w = (Ret shown, w) ->
  exists first w1 second w2,
    makePvtName name1 (VFun l) owner1 w = (Ret first, w1)
    /\ makePvtName name2 (VFun l) owner2 w1 = (Ret second, w2)
    /\ first <> second
    /\ wmGet (owners w2) first = owner1
    /\ wmGet (owners w2) second = owner2.
Proof.
  intros Hl Hp Hshown.
  assert (Hany : forall w0, toStringJS (getV (heap w) (VFun l) (KStr "name")) w0
                            = (Ret shown, w0)).
  { intros w0. eapply toStringJS_anywhere. exact Hshown. }
  eexists _, _, _, _. split; [apply (makePvtName_runs name1 l fo owner1 w shown Hl Hp Hany)|].
  split.
  { apply (makePvtName_runs name2 l fo owner2 _ shown).
    - cbn [owners withOwners withHeap heap]. now apply lookup_app_l_Some.
    - exact Hp.
    - intros w0. cbn [owners withOwners withHeap heap].
      rewrite (getV_function (heap w ++ _) l fo) by (auto; now apply lookup_app_l_Some).
      rewrite <- (getV_function (heap w) l fo) by auto. apply Hany. }
  cbn [owners withOwners withHeap heap]. rewrite length_app. cbn [length].
  split; [intros [= H]; lia|].
  split; [|apply wmGet_wmSet_eq].
  rewrite wmGet_wmSet_ne by (intros [= H]; lia).
  apply wmGet_wmSet_eq.
Qed.

Lemma makePvtName_twice_witness :
  let w := withHeap [Examples.plain [(KStr "name", VStr "greet"); (KStr "length", VNum 2)]]
             Examples.emptyWorld in
  exists first w1 second w2,
    makePvtName "_$1$_" (VFun 0) (VObj 7) w = (Ret first, w1)
    /\ makePvtName "_$2$_" (VFun 0) (VObj 8) w1 = (Ret second, w2)
    /\ first <> second
    /\ wmGet (owners w2) first = VObj 7
    /\ wmGet (owners w2) second = VObj 8.
Proof.
  exact (makePvtName_twice "_$1$_" "_$2$_" 0
           (Examples.plain [(KStr "name", VStr "greet"); (KStr "length", VNum 2)])
           (VObj 7) (VObj 8)
           (withHeap [Examples.plain [(KStr "name", VStr "greet"); (KStr "length", VNum 2)]]
              Examples.emptyWorld)
           "greet" eq_refl eq_refl eq_refl).
Defined.

(** ** The undeclared identifiers *)

(** X15.  The wrapper reads [proxyMap] first and [stack] next, and the file
    declares neither: with [proxyMap] unbound every call of a wrapper throws
    a ReferenceError, and with [proxyMap] bound but [stack] unbound it
    throws the other one.  In both cases the wrapped function is not applied
    and the world is unchanged. *)
Theorem wrapper_needs_bindings
        (call : Value -> Value -> list Value -> M Value)
        (self fn this : Value) (args : list Value) (w : World) :
  (proxyMap w = None ->
   wrapper call self fn this args w
   = (Throw (ReferenceError "proxyMap is not defined"), w))
  /\ (forall pm, proxyMap w = Some pm -> stack w = None ->
        wrapper call self fn this args w
        = (Throw (ReferenceError "stack is not defined"), w)).
Proof.
  split.
  - intros Hpm. unfold wrapper, bind, readProxyMap. now rewrite Hpm.
  - intros pm Hpm Hs. unfold wrapper.
    erewrite bind_ret_l by (unfold readProxyMap; rewrite Hpm; reflexivity).
    erewrite bind_throw_l; [reflexivity|].
    unfold stackPush, bind, readStack. now rewrite Hs.
Qed.

(** X16.  Disconnect and the identifiers it reads without declaring.  Called with
    null or undefined as id it reaches for [prototype], and with any other
    id for [PVT_DATA]: when the identifier is unbound the call throws a
    ReferenceError and changes nothing, whatever the instance.  With
    [PVT_DATA] bound, an instance that does not have that key anywhere on
    its chain (one that was never connected) is left alone and the call
    returns. *)
Theorem disconnect_needs_bindings (obj id : Value) (w : World) :
  (includes [VNull; VUndef] id = true -> prototype w = None ->
   disconnect obj id w = (Throw (ReferenceError "prototype is not defined"), w))
  /\ (includes [VNull; VUndef] id = false -> PVT_DATA w = None ->
      disconnect obj id w = (Throw (ReferenceError "PVT_DATA is not defined"), w))
  /\ (forall pvt,
        includes [VNull; VUndef] id = false -> PVT_DATA w = Some pvt ->
        isObject obj = true ->
        findProp (chainFuel (heap w)) (heap w) obj (toPropertyKey pvt) = None ->
        disconnect obj id w = (Ret tt, w)).
Proof.
  split; [|split].
  - intros Hid Hp. unfold disconnect. rewrite Hid.
    unfold bind, readPrototype. now rewrite Hp.
  - intros Hid Hp. unfold disconnect. rewrite Hid.
    unfold bind, readPVT_DATA. now rewrite Hp.
  - intros pvt Hid Hp Hobj Hfind. unfold disconnect. rewrite Hid.
    erewrite bind_ret_l by (unfold readPVT_DATA; rewrite Hp; reflexivity).
    unfold In_. rewrite Hobj. unfold bind. rewrite Hfind.
    rewrite bool_decide_eq_false_2; [reflexivity|].
    intros [x Hx]. discriminate.
Qed.

(** ** The first connection of an instance *)

Lemma lookup_insert_app_l {A : Type} (h t : list A) (l : nat) (x y : A) (l' : nat) :
  h !! l' = Some y -> l' <> l -> (<[l := x]> (h ++ t)) !! l' = Some y.
Proof.
  intros Hy Hne. rewrite list_lookup_insert_ne by auto. now apply lookup_app_l_Some.
Qed.

Lemma inChain_fresh (h : list JSObj) (n l : nat) (ob : JSObj) :
  h !! n = Some ob -> proto ob = VIntrinsic IObjectPrototype -> n <> l ->
  inChain (chainFuel h) h (VObj n) (VObj l) = false.
Proof.
  intros Hn Hp Hne. unfold chainFuel.
  change (inChain (S (S (length h))) h (VObj n) (VObj l))
    with (if bool_decide (VObj n = VObj l) then true
          else match protoOf h (VObj n) with
               | VNull | VUndef => false
               | p => inChain (S (length h)) h p (VObj l)
               end).
  rewrite bool_decide_eq_false_2 by congruence.
  unfold protoOf. rewrite Hn, Hp.
  change (inChain (S (length h)) h (VIntrinsic IObjectPrototype) (VObj l))
    with (if bool_decide (VIntrinsic IObjectPrototype = VObj l) then true else false).
  now rewrite bool_decide_eq_false_2 by congruence.
Qed.

Lemma setPrototypeOf_fresh (w : World) (l : nat) (o : JSObj) (p : Value) :
  heap w !! l = Some o -> isObject p = true -> proto o <> p -> frozen o = false ->
  inChain (chainFuel (heap w)) (heap w) p (VObj l) = false ->
  setPrototypeOf (VObj l) p w
  = (Ret (VObj l), withHeap (<[l := mkObj p (props o) (frozen o)]> (heap w)) w).
Proof.
  intros Hl Hobj Hne Hfz Hcyc. unfold setPrototypeOf. rewrite Hobj.
  cbn [orb negb]. cbv beta iota.
  rewrite Hl. rewrite bool_decide_eq_false_2 by exact Hne.
  rewrite Hfz, Hcyc. reflexivity.
Qed.

(** What the part of connect behind its guard does for an instance that has
    no layer yet, up to the call that installs the layer. *)
Lemma connectBody_allocates
      (call : Value -> Value -> list Value -> M Value)
      (l i : nat) (o oi : JSObj) (id pvt : Value) (w : World) :
  heap w !! l = Some o ->
  wmGet (connections w) (VObj l) = VObj i ->
  heap w !! i = Some oi -> proto oi = VIntrinsic IObjectPrototype ->
  PVT_DATA w = Some pvt -> Obj w = Some (VIntrinsic IObject) ->
  findProp (chainFuel (heap w)) (heap w) (VObj l) (toPropertyKey pvt) = None ->
  connectBody call (VObj l) id w
  = (_ <- setPrototypeOf (VObj l) (VObj (length (heap w))) ;; ret tt)
      (withHeap
         (heap w ++
            [layerObject (heap w) pvt id (getV (heap w) (VObj i) (toPropertyKey id));
             layerRecord o])
         w).
Proof.
  intros Hl Hconn Hi Hpi Hpvt Hobj Hfind.
  set (h := heap w) in *. set (n := length h).
  set (slot := getV h (VObj i) (toPropertyKey id)).
  set (e := mkObj (VIntrinsic IObjectPrototype) [] false).
  unfold connectBody.
  erewrite bind_ret_l by reflexivity. rewrite Hconn.
  assert (Hproto : getPrototypeOf (VObj l) w = (Ret (proto o), w)).
  { unfold getPrototypeOf, protoOf. fold h. now rewrite Hl. }
  erewrite bind_ret_l by exact Hproto.
  assert (Hread : forall h0, readPVT_DATA (withHeap h0 w) = (Ret pvt, withHeap h0 w)).
  { intros h0. unfold readPVT_DATA. cbn [PVT_DATA withHeap]. now rewrite Hpvt. }
  erewrite bind_ret_l by (unfold readPVT_DATA; rewrite Hpvt; reflexivity).
  erewrite bind_ret_l.
  2:{ unfold In_. change (isObject (VObj l)) with true. cbv beta iota. fold h.
      rewrite Hfind. reflexivity. }
  rewrite bool_decide_eq_false_2 by (intros [x Hx]; discriminate).
  change (negb false) with true. cbv iota.
  erewrite bind_ret_l by (unfold readObj; rewrite Hobj; reflexivity).
  assert (Hfreeze : Get (VIntrinsic IObject) (KStr "freeze") w = (Ret (VIntrinsic IFreeze), w))
    by reflexivity.
  erewrite bind_ret_l by exact Hfreeze.
  assert (Hn1 : newObject [] w = (Ret (VObj n), withHeap (h ++ [e]) w)) by reflexivity.
  erewrite bind_ret_l by exact Hn1.
  erewrite bind_ret_l by apply Hread.
  assert (Hn2 : newObject [(KStr "count", VNum 1); (KStr "prototype", proto o)]
                  (withHeap (h ++ [e]) w)
                = (Ret (VObj (S n)), withHeap (h ++ [e; layerRecord o]) w)).
  { unfold newObject. cbn [heap withHeap]. rewrite length_app, <- app_assoc.
    cbn [length app]. fold n. now replace (n + 1) with (S n) by lia. }
  erewrite bind_ret_l by exact Hn2.
  assert (Hdef : forall k v ps,
             defineOwn (VObj n) k v
               (withHeap (h ++ [mkObj (VIntrinsic IObjectPrototype) ps false; layerRecord o]) w)
             = (Ret tt, withHeap (h ++ [mkObj (VIntrinsic IObjectPrototype)
                                          (updateProp k v ps) false; layerRecord o]) w)).
  { intros k v ps. unfold defineOwn, setOwn. cbn [heap withHeap].
    unfold n. rewrite lookup_middle2, insert_middle2. reflexivity. }
  erewrite bind_ret_l by apply (Hdef _ _ []).
  assert (Hslot : forall h0, h0 = h ++ [mkObj (VIntrinsic IObjectPrototype)
                                          (updateProp (toPropertyKey pvt) (VObj (S n)) [])
                                          false; layerRecord o] ->
                  Get (VObj i) (toPropertyKey id) (withHeap h0 w)
                  = (Ret slot, withHeap h0 w)).
  { intros h0 ->. rewrite Get_object. cbn [heap withHeap]. unfold slot.
    rewrite (getV_plain (h ++ _) i oi), (getV_plain h i oi); auto.
    now apply lookup_app_l_Some. }
  erewrite bind_ret_l by (apply Hslot; reflexivity).
  erewrite bind_ret_l by apply Hdef.
  erewrite bind_ret_l.
  2:{ unfold invoke. change (arg 0 [VObj n]) with (VObj n).
      unfold freeze. cbn [heap withHeap].
      unfold n. rewrite lookup_middle2, insert_middle2. reflexivity. }
  reflexivity.
Qed.

(** What the part of connect behind its guard does to an instance that has
    no layer yet. *)
Lemma connectBody_first
      (call : Value -> Value -> list Value -> M Value)
      (l i : nat) (o oi : JSObj) (id pvt : Value) (w : World) :
  heap w !! l = Some o -> frozen o = false -> inStore (heap w) (proto o) ->
  wmGet (connections w) (VObj l) = VObj i ->
  heap w !! i = Some oi -> proto oi = VIntrinsic IObjectPrototype ->
  PVT_DATA w = Some pvt -> Obj w = Some (VIntrinsic IObject) ->
  findProp (chainFuel (heap w)) (heap w) (VObj l) (toPropertyKey pvt) = None ->
  connectBody call (VObj l) id w
  = (Ret tt,
     withHeap (connectedStore (heap w) l o pvt id (getV (heap w) (VObj i) (toPropertyKey id)))
              w).
Proof.
  intros Hl Hfz Hin Hconn Hi Hpi Hpvt Hobj Hfind.
  rewrite (connectBody_allocates call l i o oi id pvt w Hl Hconn Hi Hpi Hpvt Hobj Hfind).
  assert (Hln : l <> length (heap w)) by (apply lookup_lt_Some in Hl; lia).
  assert (Hnp : proto o <> VObj (length (heap w))).
  { intros Hp. rewrite Hp in Hin. simpl in Hin. lia. }
  erewrite bind_ret_l.
  2:{ apply (setPrototypeOf_fresh _ l o (VObj (length (heap w)))).
      - cbn [heap withHeap]. now apply lookup_app_l_Some.
      - reflexivity.
      - exact Hnp.
      - exact Hfz.
      - cbn [heap withHeap]. eapply (inChain_fresh _ (length (heap w)) l);
          [now apply list_lookup_middle|reflexivity|lia]. }
  rewrite Hfz. reflexivity.
Qed.

(** An instance that cannot take a new prototype: the layer and its record
    are allocated, the installing call is refused and the instance is as it
    was. *)
Lemma connectBody_frozen
      (call : Value -> Value -> list Value -> M Value)
      (l i : nat) (o oi : JSObj) (id pvt : Value) (w : World) :
  heap w !! l = Some o -> frozen o = true -> inStore (heap w) (proto o) ->
  wmGet (connections w) (VObj l) = VObj i ->
  heap w !! i = Some oi -> proto oi = VIntrinsic IObjectPrototype ->
  PVT_DATA w = Some pvt -> Obj w = Some (VIntrinsic IObject) ->
  findProp (chainFuel (heap w)) (heap w) (VObj l) (toPropertyKey pvt) = None ->
  connectBody call (VObj l) id w
  = (Throw (TypeError "#<Object> is not extensible"),
     withHeap
       (heap w ++
          [layerObject (heap w) pvt id (getV (heap w) (VObj i) (toPropertyKey id));
           layerRecord o])
       w).
Proof.
  intros Hl Hfz Hin Hconn Hi Hpi Hpvt Hobj Hfind.
  rewrite (connectBody_allocates call l i o oi id pvt w Hl Hconn Hi Hpi Hpvt Hobj Hfind).
  assert (Hnp : proto o <> VObj (length (heap w))).
  { intros Hp. rewrite Hp in Hin. simpl in Hin. lia. }
  erewrite bind_throw_l; [reflexivity|].
  unfold setPrototypeOf. change (isObject (VObj (length (heap w)))) with true.
  cbn [orb negb]. cbv beta iota. cbn [heap withHeap].
  rewrite (lookup_app_l_Some _ _ _ _ Hl).
  rewrite bool_decide_eq_false_2 by exact Hnp. now rewrite Hfz.
Qed.

Lemma findProp_step (fuel : nat) (h : list JSObj) (l : nat) (o : JSObj) (k : Key) :
  h !! l = Some o -> lookupProp k (props o) = None ->
  findProp (S fuel) h (VObj l) k
  = match proto o with
    | VNull | VUndef => None
    | p => findProp fuel h p k
    end.
Proof. intros Hl Hk. simpl. now rewrite Hl, Hk. Qed.

Lemma findProp_intrinsic (fuel : nat) (h : list JSObj) (k : Key) :
  findProp fuel h (VIntrinsic IObjectPrototype) k
  = match lookupProp k (ownProps [] (VIntrinsic IObjectPrototype)) with
    | Some x => Some (VIntrinsic IObjectPrototype, x)
    | None => None
    end.
Proof.
  destruct fuel; simpl;
    destruct (bool_decide (KStr "constructor" = k)); try reflexivity;
    destruct (bool_decide (KStr "hasOwnProperty" = k)); reflexivity.
Qed.

Lemma getV_through_layer (h : list JSObj) (l n : nat) (ob lay : JSObj) (k : Key) :
  h !! l = Some ob -> proto ob = VObj n ->
  h !! n = Some lay -> proto lay = VIntrinsic IObjectPrototype ->
  lookupProp k (props ob) = None -> lookupProp k (props lay) = None ->
  getV h (VObj l) k = getV [] (VIntrinsic IObjectPrototype) k.
Proof.
  intros Hl Hp Hn Hpn Hk Hkn. unfold getV, chainFuel.
  rewrite (findProp_step _ h l ob k Hl Hk), Hp.
  rewrite (findProp_step _ h n lay k Hn Hkn), Hpn.
  now rewrite !findProp_intrinsic.
Qed.

(** X17.  The first connection of an instance, had the access check let the
    caller through.  For a registered instance that is extensible and has
    no layer yet, connect allocates a frozen layer object holding the record
    { count: 1, prototype: the instance's former prototype } under PVT_DATA
    and the class's slot of the instance data under id, and makes it the
    instance's prototype.  The layer is an object literal, so its own
    prototype is Object.prototype: while connected, a property that the
    instance does not own resolves in the layer or in Object.prototype, and
    the members of the former prototype are out of reach.  No other object
    of the store changes. *)
Theorem connect_installs_layer
        (call : Value -> Value -> list Value -> M Value)
        (validate : Value -> Value -> M Value)
        (this id pvt v : Value) (l i : nat) (o oi : JSObj) (w : World) :
  validate this (VNum 1) w = (Ret v, w) -> truthy v = true ->
  wmHas (connections w) (VObj l) = true ->
  wmGet (connections w) (VObj l) = VObj i ->
  heap w !! i = Some oi -> proto oi = VIntrinsic IObjectPrototype ->
  heap w !! l = Some o -> frozen o = false -> inStore (heap w) (proto o) ->
  PVT_DATA w = Some pvt -> Obj w = Some (VIntrinsic IObject) ->
  findProp (chainFuel (heap w)) (heap w) (VObj l) (toPropertyKey pvt) = None ->
  toPropertyKey pvt <> toPropertyKey id ->
  let layer := VObj (length (heap w)) in
  let record := VObj (S (length (heap w))) in
  exists w',
    connectGuarded call validate this (VObj l) id w = (Ret tt, w')
    /\ protoOf (heap w') (VObj l) = layer
    /\ isFrozenObj (heap w') layer = true
    /\ protoOf (heap w') layer = VIntrinsic IObjectPrototype
    /\ ownProp (heap w') layer (toPropertyKey pvt) = Some record
    /\ ownProp (heap w') layer (toPropertyKey id)
       = Some (getV (heap w) (VObj i) (toPropertyKey id))
    /\ ownProp (heap w') record (KStr "count") = Some (VNum 1)
    /\ ownProp (heap w') record (KStr "prototype") = Some (proto o)
    /\ (forall k, ownProp (heap w) (VObj l) k = None ->
                  k <> toPropertyKey pvt -> k <> toPropertyKey id ->
                  getV (heap w') (VObj l) k = getV [] (VIntrinsic IObjectPrototype) k)
    /\ (forall l' o', heap w !! l' = Some o' -> l' <> l -> heap w' !! l' = Some o').
Proof.
  intros Hv Ht Hreg Hconn Hi Hpi Hl Hfz Hin Hpvt Hobj Hfind Hkeys layer record.
  subst layer record.
  set (lay := mkObj (VIntrinsic IObjectPrototype)
                (updateProp (toPropertyKey id) (getV (heap w) (VObj i) (toPropertyKey id))
                   [(toPropertyKey pvt, VObj (S (length (heap w))))]) true).
  set (rec := mkObj (VIntrinsic IObjectPrototype)
                [(KStr "count", VNum 1); (KStr "prototype", proto o)] false).
  set (h' := <[l := mkObj (VObj (length (heap w))) (props o) false]> (heap w ++ [lay; rec])).
  exists (withHeap h' w). split.
  { unfold connectGuarded. erewrite bind_ret_l by exact Hv.
    erewrite bind_ret_l by reflexivity. rewrite Ht, Hreg. simpl.
    eapply connectBody_first; eauto. }
  change (heap (withHeap h' w)) with h'.
  assert (Hll : l < length (heap w)) by (now apply lookup_lt_Some in Hl).
  assert (Hnew : h' !! l = Some (mkObj (VObj (length (heap w))) (props o) false)).
  { apply list_lookup_insert_eq. rewrite length_app. lia. }
  assert (Hlay : h' !! length (heap w) = Some lay).
  { unfold h'. rewrite list_lookup_insert_ne by lia. apply lookup_middle2. }
  assert (Hrec : h' !! S (length (heap w)) = Some rec).
  { unfold h'. rewrite list_lookup_insert_ne by lia.
    rewrite lookup_app_r by lia.
    now replace (S (length (heap w)) - length (heap w)) with 1 by lia. }
  unfold protoOf, isFrozenObj, ownProp, ownProps. rewrite Hnew, Hlay, Hrec.
  split; [reflexivity|]. split; [reflexivity|]. split; [reflexivity|].
  split.
  { unfold lay. cbn [props]. rewrite lookupProp_updateProp.
    rewrite bool_decide_eq_false_2 by congruence. simpl.
    now rewrite bool_decide_eq_true_2. }
  split.
  { unfold lay. cbn [props]. rewrite lookupProp_updateProp.
    now rewrite bool_decide_eq_true_2. }
  split; [reflexivity|]. split; [reflexivity|]. split.
  - intros k Hk Hk1 Hk2. rewrite Hl in Hk.
    apply (getV_through_layer _ l (length (heap w)) _ lay k Hnew eq_refl Hlay eq_refl Hk).
    unfold lay. cbn [props]. rewrite lookupProp_updateProp.
    rewrite bool_decide_eq_false_2 by congruence. simpl.
    now rewrite bool_decide_eq_false_2 by congruence.
  - intros l' o' Ho' Hne. unfold h'. now apply lookup_insert_app_l.
Qed.

Lemma connect_installs_layer_witness :
  let w := Examples.instanceWorld in
  exists w',
    connectGuarded Examples.noCall Examples.allowAll VUndef (VObj 3) (VSym 20) w = (Ret tt, w')
    /\ protoOf (heap w') (VObj 3) = VObj 4
    /\ isFrozenObj (heap w') (VObj 4) = true
    /\ protoOf (heap w') (VObj 4) = VIntrinsic IObjectPrototype
    /\ ownProp (heap w') (VObj 4) (KSym 10) = Some (VObj 5)
    /\ ownProp (heap w') (VObj 4) (KSym 20) = Some (VObj 1)
    /\ ownProp (heap w') (VObj 5) (KStr "count") = Some (VNum 1)
    /\ ownProp (heap w') (VObj 5) (KStr "prototype") = Some (VObj 0)
    /\ (forall k, ownProp (heap w) (VObj 3) k = None -> k <> KSym 10 -> k <> KSym 20 ->
                  getV (heap w') (VObj 3) k = getV [] (VIntrinsic IObjectPrototype) k)
    /\ (forall l' o', heap w !! l' = Some o' -> l' <> 3 -> heap w' !! l' = Some o').
Proof.
  exact (connect_installs_layer Examples.noCall Examples.allowAll VUndef (VSym 20) (VSym 10)
           (VBool true) 3 2 (mkObj (VObj 0) [] false) (Examples.plain [(KSym 20, VObj 1)])
           Examples.instanceWorld eq_refl eq_refl eq_refl eq_refl eq_refl eq_refl
           eq_refl eq_refl ltac:(simpl; lia) eq_refl eq_refl eq_refl
           ltac:(discriminate)).
Defined.

(** ** A connected instance *)

Lemma connected_instance (h : list JSObj) (l : nat) (o : JSObj) (pvt id slot : Value) :
  h !! l = Some o ->
  connectedStore h l o pvt id slot !! l = Some (mkObj (VObj (length h)) (props o) false).
Proof.
  intros Hl. apply list_lookup_insert_eq. rewrite length_app.
  apply lookup_lt_Some in Hl. lia.
Qed.

Lemma connected_layer (h : list JSObj) (l : nat) (o : JSObj) (pvt id slot : Value) :
  h !! l = Some o ->
  connectedStore h l o pvt id slot !! length h = Some (layerObject h pvt id slot).
Proof.
  intros Hl. unfold connectedStore. apply lookup_lt_Some in Hl.
  rewrite list_lookup_insert_ne by lia. apply lookup_middle2.
Qed.

Lemma connected_record (h : list JSObj) (l : nat) (o : JSObj) (pvt id slot : Value) :
  h !! l = Some o ->
  connectedStore h l o pvt id slot !! S (length h) = Some (layerRecord o).
Proof.
  intros Hl. unfold connectedStore. apply lookup_lt_Some in Hl.
  rewrite list_lookup_insert_ne by lia.
  rewrite lookup_app_r by lia. now replace (S (length h) - length h) with 1 by lia.
Qed.

Lemma layer_pvt (h : list JSObj) (pvt id slot : Value) :
  toPropertyKey pvt <> toPropertyKey id ->
  lookupProp (toPropertyKey pvt) (props (layerObject h pvt id slot))
  = Some (VObj (S (length h))).
Proof.
  intros Hne. unfold layerObject. cbn [props]. rewrite lookupProp_updateProp.
  rewrite bool_decide_eq_false_2 by congruence. simpl.
  now rewrite bool_decide_eq_true_2.
Qed.

Lemma layer_id (h : list JSObj) (pvt id slot : Value) :
  lookupProp (toPropertyKey id) (props (layerObject h pvt id slot)) = Some slot.
Proof.
  unfold layerObject. cbn [props]. rewrite lookupProp_updateProp.
  now rewrite bool_decide_eq_true_2.
Qed.

(** A key the instance does not own and the layer holds is found in the
    layer. *)
Lemma findProp_in_layer (hx : list JSObj) (l n : nat) (ps : list (Key * Value))
      (lay : JSObj) (k : Key) (x : Value) :
  hx !! l = Some (mkObj (VObj n) ps false) ->
  hx !! n = Some lay ->
  lookupProp k ps = None -> lookupProp k (props lay) = Some x ->
  findProp (chainFuel hx) hx (VObj l) k = Some (VObj n, x).
Proof.
  intros Hl Hn Hk Hx. unfold chainFuel.
  rewrite (findProp_step _ hx l _ k Hl Hk). cbn [proto].
  simpl. now rewrite Hn, Hx.
Qed.

Lemma findProp_None_own (fuel : nat) (h : list JSObj) (l : nat) (o : JSObj) (k : Key) :
  h !! l = Some o -> findProp fuel h (VObj l) k = None -> lookupProp k (props o) = None.
Proof.
  intros Hl. destruct fuel; simpl; rewrite Hl;
    destruct (lookupProp k (props o)); congruence.
Qed.

Lemma connectGuarded_first
      (call : Value -> Value -> list Value -> M Value)
      (validate : Value -> Value -> M Value)
      (this id pvt v : Value) (l i : nat) (o oi : JSObj) (w : World) :
  validate this (VNum 1) w = (Ret v, w) -> truthy v = true ->
  wmHas (connections w) (VObj l) = true ->
  wmGet (connections w) (VObj l) = VObj i ->
  heap w !! i = Some oi -> proto oi = VIntrinsic IObjectPrototype ->
  heap w !! l = Some o -> frozen o = false -> inStore (heap w) (proto o) ->
  PVT_DATA w = Some pvt -> Obj w = Some (VIntrinsic IObject) ->
  findProp (chainFuel (heap w)) (heap w) (VObj l) (toPropertyKey pvt) = None ->
  connectGuarded call validate this (VObj l) id w
  = (Ret tt,
     withHeap (connectedStore (heap w) l o pvt id (getV (heap w) (VObj i) (toPropertyKey id)))
              w).
Proof.
  intros Hv Ht Hreg Hconn Hi Hpi Hl Hfz Hin Hpvt Hobj Hfind.
  unfold connectGuarded. erewrite bind_ret_l by exact Hv.
  erewrite bind_ret_l by reflexivity. rewrite Ht, Hreg. simpl.
  eapply connectBody_first; eauto.
Qed.

(** X18.  A second connect for the same class does not count.  After the first
    connection of an instance whose slot for id is an object, connect finds
    the layer in place and the slot readable through it, and returns
    without touching anything: the counter of the layer stays at 1, however
    often connect is called. *)
Theorem connect_again_changes_nothing
        (call : Value -> Value -> list Value -> M Value)
        (validate : Value -> Value -> M Value)
        (this id pvt v : Value) (l i : nat) (o oi : JSObj) (w : World) :
  (forall w0, validate this (VNum 1) w0 = (Ret v, w0)) -> truthy v = true ->
  wmHas (connections w) (VObj l) = true ->
  wmGet (connections w) (VObj l) = VObj i ->
  heap w !! i = Some oi -> proto oi = VIntrinsic IObjectPrototype ->
  heap w !! l = Some o -> frozen o = false -> inStore (heap w) (proto o) ->
  PVT_DATA w = Some pvt -> Obj w = Some (VIntrinsic IObject) ->
  findProp (chainFuel (heap w)) (heap w) (VObj l) (toPropertyKey pvt) = None ->
  toPropertyKey pvt <> toPropertyKey id ->
  ownProp (heap w) (VObj l) (toPropertyKey id) = None ->
  typeof (getV (heap w) (VObj i) (toPropertyKey id)) = "object" ->
  exists w',
    connectGuarded call validate this (VObj l) id w = (Ret tt, w')
    /\ connectGuarded call validate this (VObj l) id w' = (Ret tt, w')
    /\ getV (heap w') (getV (heap w') (VObj l) (toPropertyKey pvt)) (KStr "count") = VNum 1.
Proof.
  intros Hv Ht Hreg Hconn Hi Hpi Hl Hfz Hin Hpvt Hobj Hfind Hkeys Hown Hslot.
  set (slot := getV (heap w) (VObj i) (toPropertyKey id)) in *.
  set (h' := connectedStore (heap w) l o pvt id slot).
  exists (withHeap h' w).
  split; [eapply connectGuarded_first; eauto|].
  pose proof (connected_instance (heap w) l o pvt id slot Hl) as Hnew.
  pose proof (connected_layer (heap w) l o pvt id slot Hl) as Hlay.
  pose proof (connected_record (heap w) l o pvt id slot Hl) as Hrec.
  pose proof (layer_pvt (heap w) pvt id slot Hkeys) as Hlp.
  pose proof (layer_id (heap w) pvt id slot) as Hli.
  fold h' in Hnew, Hlay, Hrec.
  assert (Hop : lookupProp (toPropertyKey pvt) (props o) = None)
    by (eapply findProp_None_own; eauto).
  assert (Hoi : lookupProp (toPropertyKey id) (props o) = None).
  { unfold ownProp, ownProps in Hown. now rewrite Hl in Hown. }
  assert (Hfp : findProp (chainFuel h') h' (VObj l) (toPropertyKey pvt)
                = Some (VObj (length (heap w)), VObj (S (length (heap w)))))
    by (eapply findProp_in_layer; eauto).
  assert (Hfi : findProp (chainFuel h') h' (VObj l) (toPropertyKey id)
                = Some (VObj (length (heap w)), slot))
    by (eapply findProp_in_layer; eauto).
  split.
  - unfold connectGuarded. erewrite bind_ret_l by apply Hv.
    erewrite bind_ret_l by reflexivity. rewrite Ht.
    change (connections (withHeap h' w)) with (connections w). rewrite Hreg.
    cbn [negb orb]. cbv iota.
    unfold connectBody.
    erewrite bind_ret_l by reflexivity.
    erewrite bind_ret_l by reflexivity.
    erewrite bind_ret_l
      by (unfold readPVT_DATA; change (PVT_DATA (withHeap h' w)) with (PVT_DATA w);
          rewrite Hpvt; reflexivity).
    erewrite bind_ret_l.
    2:{ unfold In_. change (isObject (VObj l)) with true. cbv beta iota.
        change (heap (withHeap h' w)) with h'. rewrite Hfp. reflexivity. }
    rewrite bool_decide_eq_true_2 by (now eexists).
    change (negb true) with false. cbv iota.
    erewrite bind_ret_l by reflexivity.
    change (heap (withHeap h' w)) with h'. unfold getV. rewrite Hfi.
    fold slot in Hslot. rewrite Hslot. reflexivity.
  - change (heap (withHeap h' w)) with h'.
    unfold getV at 2. rewrite Hfp.
    now rewrite (getV_own h' _ _ (KStr "count") (VNum 1) Hrec).
Qed.

Lemma connect_again_changes_nothing_witness :
  let w := Examples.instanceWorld in
  exists w',
    connectGuarded Examples.noCall Examples.allowAll VUndef (VObj 3) (VSym 20) w = (Ret tt, w')
    /\ connectGuarded Examples.noCall Examples.allowAll VUndef (VObj 3) (VSym 20) w'
       = (Ret tt, w')
    /\ getV (heap w') (getV (heap w') (VObj 3) (KSym 10)) (KStr "count") = VNum 1.
Proof.
  exact (connect_again_changes_nothing Examples.noCall Examples.allowAll VUndef (VSym 20)
           (VSym 10) (VBool true) 3 2 (mkObj (VObj 0) [] false)
           (Examples.plain [(KSym 20, VObj 1)]) Examples.instanceWorld
           (fun _ => eq_refl) eq_refl eq_refl eq_refl eq_refl eq_refl
           eq_refl eq_refl ltac:(simpl; lia) eq_refl eq_refl eq_refl
           ltac:(discriminate) eq_refl eq_refl).
Defined.

(** X19.  Disconnect after the first connection, with [prototype] unbound as the
    file leaves it.  The assignment that should clear the slot is dropped,
    because the slot is a property of the frozen layer; the counter is
    lowered to 0; and the restoring call then reads the undeclared
    identifier [prototype] and throws a ReferenceError.  The instance keeps
    the layer as its prototype, the slot stays readable through it, and the
    prototype saved in the record is never read. *)
Theorem disconnect_after_connect
        (call : Value -> Value -> list Value -> M Value)
        (validate : Value -> Value -> M Value)
        (this id pvt v : Value) (l i : nat) (o oi : JSObj) (w : World) :
  validate this (VNum 1) w = (Ret v, w) -> truthy v = true ->
  wmHas (connections w) (VObj l) = true ->
  wmGet (connections w) (VObj l) = VObj i ->
  heap w !! i = Some oi -> proto oi = VIntrinsic IObjectPrototype ->
  heap w !! l = Some o -> frozen o = false -> inStore (heap w) (proto o) ->
  PVT_DATA w = Some pvt -> Obj w = Some (VIntrinsic IObject) ->
  findProp (chainFuel (heap w)) (heap w) (VObj l) (toPropertyKey pvt) = None ->
  toPropertyKey pvt <> toPropertyKey id ->
  ownProp (heap w) (VObj l) (toPropertyKey id) = None ->
  includes [VNull; VUndef] id = false ->
  prototype w = None ->
  let layer := VObj (length (heap w)) in
  let record := VObj (S (length (heap w))) in
  exists w' w'',
    connectGuarded call validate this (VObj l) id w = (Ret tt, w')
    /\ disconnect (VObj l) id w'
       = (Throw (ReferenceError "prototype is not defined"), w'')
    /\ protoOf (heap w'') (VObj l) = layer
    /\ getV (heap w'') (VObj l) (toPropertyKey id)
       = getV (heap w) (VObj i) (toPropertyKey id)
    /\ getV (heap w'') record (KStr "count") = VNum 0
    /\ getV (heap w'') record (KStr "prototype") = proto o.
Proof.
  intros Hv Ht Hreg Hconn Hi Hpi Hl Hfz Hin Hpvt Hobj Hfind Hkeys Hown Hid Hproto
         layer record.
  subst layer record.
  set (slot := getV (heap w) (VObj i) (toPropertyKey id)) in *.
  set (n := length (heap w)).
  set (h' := connectedStore (heap w) l o pvt id slot).
  set (rec0 := mkObj (VIntrinsic IObjectPrototype)
                 (updateProp (KStr "count") (VNum 0)
                    [(KStr "count", VNum 1); (KStr "prototype", proto o)]) false).
  set (h'' := <[S n := rec0]> h').
  exists (withHeap h' w), (withHeap h'' (withHeap h' w)).
  split; [eapply connectGuarded_first; eauto|].
  pose proof (connected_instance (heap w) l o pvt id slot Hl) as Hnew.
  pose proof (connected_layer (heap w) l o pvt id slot Hl) as Hlay.
  pose proof (connected_record (heap w) l o pvt id slot Hl) as Hrec.
  pose proof (layer_pvt (heap w) pvt id slot Hkeys) as Hlp.
  pose proof (layer_id (heap w) pvt id slot) as Hli.
  fold h' n in Hnew, Hlay, Hrec. fold n in Hlp.
  assert (Hll : l < n) by (now apply lookup_lt_Some in Hl).
  assert (Hop : lookupProp (toPropertyKey pvt) (props o) = None)
    by (eapply findProp_None_own; eauto).
  assert (Hoi : lookupProp (toPropertyKey id) (props o) = None).
  { unfold ownProp, ownProps in Hown. now rewrite Hl in Hown. }
  assert (Hfp : findProp (chainFuel h') h' (VObj l) (toPropertyKey pvt)
                = Some (VObj n, VObj (S n)))
    by (eapply findProp_in_layer; eauto).
  assert (Hfi : findProp (chainFuel h') h' (VObj l) (toPropertyKey id) = Some (VObj n, slot))
    by (eapply findProp_in_layer; eauto).
  assert (Hnew2 : h'' !! l = Some (mkObj (VObj n) (props o) false)).
  { unfold h''. rewrite list_lookup_insert_ne by lia. exact Hnew. }
  assert (Hlay2 : h'' !! n = Some (layerObject (heap w) pvt id slot)).
  { unfold h''. rewrite list_lookup_insert_ne by lia. exact Hlay. }
  assert (Hrec2 : h'' !! S n = Some rec0).
  { unfold h''. apply list_lookup_insert_eq. now apply lookup_lt_Some in Hrec. }
  assert (Hfp2 : findProp (chainFuel h'') h'' (VObj l) (toPropertyKey pvt)
                 = Some (VObj n, VObj (S n)))
    by (eapply findProp_in_layer; eauto).
  assert (Hfi2 : findProp (chainFuel h'') h'' (VObj l) (toPropertyKey id)
                 = Some (VObj n, slot))
    by (eapply findProp_in_layer; eauto).
  assert (Hread : forall w0, PVT_DATA w0 = Some pvt -> readPVT_DATA w0 = (Ret pvt, w0)).
  { intros w0 H0. unfold readPVT_DATA. now rewrite H0. }
  assert (Hg1 : Get (VObj l) (toPropertyKey pvt) (withHeap h' w)
                = (Ret (VObj (S n)), withHeap h' w)).
  { rewrite Get_object. change (heap (withHeap h' w)) with h'. unfold getV. now rewrite Hfp. }
  assert (Hc1 : Get (VObj (S n)) (KStr "count") (withHeap h' w)
                = (Ret (VNum 1), withHeap h' w)).
  { rewrite Get_object. change (heap (withHeap h' w)) with h'.
    now rewrite (getV_own h' _ _ (KStr "count") (VNum 1) Hrec). }
  assert (Hg2 : Get (VObj l) (toPropertyKey pvt) (withHeap h'' (withHeap h' w))
                = (Ret (VObj (S n)), withHeap h'' (withHeap h' w))).
  { rewrite Get_object. change (heap (withHeap h'' (withHeap h' w))) with h''.
    unfold getV. now rewrite Hfp2. }
  assert (Hc2 : Get (VObj (S n)) (KStr "count") (withHeap h'' (withHeap h' w))
                = (Ret (VNum 0), withHeap h'' (withHeap h' w))).
  { rewrite Get_object. change (heap (withHeap h'' (withHeap h' w))) with h''.
    now rewrite (getV_own h'' _ _ (KStr "count") (VNum 0) Hrec2). }
  assert (Hput : Put (VObj (S n)) (KStr "count") (VNum 0) (withHeap h' w)
                 = (Ret tt, withHeap h'' (withHeap h' w))).
  { now rewrite (Put_plain (withHeap h' w) (S n) _ (KStr "count") (VNum 0) Hrec eq_refl). }
  split.
  - unfold disconnect. rewrite Hid.
    erewrite bind_ret_l by (apply Hread; exact Hpvt).
    erewrite bind_ret_l.
    2:{ unfold In_. change (isObject (VObj l)) with true. cbv beta iota.
        change (heap (withHeap h' w)) with h'. rewrite Hfp. reflexivity. }
    rewrite bool_decide_eq_true_2 by (now eexists). cbv iota.
    erewrite bind_ret_l.
    2:{ unfold Put. cbv zeta. change (heap (withHeap h' w)) with h'.
        rewrite Hfi. unfold isFrozenObj. rewrite Hnew, Hlay. reflexivity. }
    erewrite bind_ret_l by (apply Hread; exact Hpvt).
    erewrite bind_ret_l by exact Hg1.
    erewrite bind_ret_l by exact Hc1.
    erewrite bind_ret_l by reflexivity.
    change (numberValue (option_map Z.pred (Some 1%Z))) with (VNum 0).
    erewrite bind_ret_l by exact Hput.
    erewrite bind_ret_l by (apply Hread; exact Hpvt).
    erewrite bind_ret_l by exact Hg2.
    erewrite bind_ret_l by exact Hc2.
    change (negb (truthy (VNum 0))) with true. cbv iota.
    erewrite bind_throw_l; [reflexivity|].
    unfold readPrototype.
    change (prototype (withHeap h'' (withHeap h' w))) with (prototype w).
    now rewrite Hproto.
  - change (heap (withHeap h'' (withHeap h' w))) with h''.
    split; [unfold protoOf; now rewrite Hnew2|].
    split; [unfold getV; now rewrite Hfi2|].
    split; [now apply (getV_own h'' _ _ _ _ Hrec2)|].
    now apply (getV_own h'' _ _ _ _ Hrec2).
Qed.

Lemma disconnect_after_connect_witness :
  let w := Examples.instanceWorld in
  exists w' w'',
    connectGuarded Examples.noCall Examples.allowAll VUndef (VObj 3) (VSym 20) w = (Ret tt, w')
    /\ disconnect (VObj 3) (VSym 20) w'
       = (Throw (ReferenceError "prototype is not defined"), w'')
    /\ protoOf (heap w'') (VObj 3) = VObj 4
    /\ getV (heap w'') (VObj 3) (KSym 20) = VObj 1
    /\ getV (heap w'') (VObj 5) (KStr "count") = VNum 0
    /\ getV (heap w'') (VObj 5) (KStr "prototype") = VObj 0.
Proof.
  exact (disconnect_after_connect Examples.noCall Examples.allowAll VUndef (VSym 20)
           (VSym 10) (VBool true) 3 2 (mkObj (VObj 0) [] false)
           (Examples.plain [(KSym 20, VObj 1)]) Examples.instanceWorld
           eq_refl eq_refl eq_refl eq_refl eq_refl eq_refl
           eq_refl eq_refl ltac:(simpl; lia) eq_refl eq_refl eq_refl
           ltac:(discriminate) eq_refl eq_refl eq_refl).
Defined.

(** X20.  When connect refuses although the access check lets the caller through.
    An instance that is not a key of connections is turned away with
    TypeError "Inaccessible" and nothing changes.  A registered instance
    that is frozen cannot take the layer as its prototype: the layer and
    its record are allocated, Object.setPrototypeOf throws its own
    TypeError, and the instance and every other object of the caller are
    as they were. *)
Theorem connect_refuses
        (call : Value -> Value -> list Value -> M Value)
        (validate : Value -> Value -> M Value)
        (this id v : Value) (w : World) :
  validate this (VNum 1) w = (Ret v, w) -> truthy v = true ->
  (forall obj, wmHas (connections w) obj = false ->
               connectGuarded call validate this obj id w
               = (Throw (TypeError "Inaccessible"), w))
  /\ (forall l i o oi pvt,
        wmHas (connections w) (VObj l) = true ->
        wmGet (connections w) (VObj l) = VObj i ->
        heap w !! i = Some oi -> proto oi = VIntrinsic IObjectPrototype ->
        heap w !! l = Some o -> frozen o = true -> inStore (heap w) (proto o) ->
        PVT_DATA w = Some pvt -> Obj w = Some (VIntrinsic IObject) ->
        findProp (chainFuel (heap w)) (heap w) (VObj l) (toPropertyKey pvt) = None ->
        exists w',
          connectGuarded call validate this (VObj l) id w
          = (Throw (TypeError "#<Object> is not extensible"), w')
          /\ length (heap w') = length (heap w) + 2
          /\ forall l' o', heap w !! l' = Some o' -> heap w' !! l' = Some o').
Proof.
  intros Hv Ht. split.
  - intros obj Hreg. unfold connectGuarded. erewrite bind_ret_l by exact Hv.
    erewrite bind_ret_l by reflexivity. rewrite Ht, Hreg. reflexivity.
  - intros l i o oi pvt Hreg Hconn Hi Hpi Hl Hfz Hin Hpvt Hobj Hfind.
    eexists. split.
    { unfold connectGuarded. erewrite bind_ret_l by exact Hv.
      erewrite bind_ret_l by reflexivity. rewrite Ht, Hreg. cbn [negb orb]. cbv iota.
      eapply connectBody_frozen; eauto. }
    cbn [heap withHeap]. split.
    + rewrite length_app. reflexivity.
    + intros l' o' Ho'. now apply lookup_app_l_Some.
Qed.

Lemma connect_refuses_witness :
  let w := mkWorld [Examples.plain []; mkObj (VObj 0) [] true; Examples.plain []]
             [] [] [] [(VObj 1, VObj 2)]
             None None (Some (VSym 10)) None (Some (VIntrinsic IObject)) None in
  exists w',
    connectGuarded Examples.noCall Examples.allowAll VUndef (VObj 1) (VSym 20) w
    = (Throw (TypeError "#<Object> is not extensible"), w')
    /\ length (heap w') = length (heap w) + 2
    /\ forall l' o', heap w !! l' = Some o' -> heap w' !! l' = Some o'.
Proof.
  exact (proj2 (connect_refuses Examples.noCall Examples.allowAll VUndef (VSym 20)
                  (VBool true)
                  (mkWorld [Examples.plain []; mkObj (VObj 0) [] true; Examples.plain []]
                     [] [] [] [(VObj 1, VObj 2)]
                     None None (Some (VSym 10)) None (Some (VIntrinsic IObject)) None)
                  eq_refl eq_refl)
           1 2 (mkObj (VObj 0) [] true) (Examples.plain []) (VSym 10)
           eq_refl eq_refl eq_refl eq_refl eq_refl eq_refl ltac:(simpl; lia)
           eq_refl eq_refl eq_refl).
Defined.

(** ** What connect and disconnect count *)






















(** ** More on the placeholder registry *)

Lemma wmHas_wmSet_other (m : list (Value * Value)) (k k' v : Value) :
  wmHas m k' = true -> wmHas (wmSet m k v) k' = true.
Proof.
  unfold wmHas. intros H. apply bool_decide_eq_true in H. apply bool_decide_eq_true.
  induction m as [|[k0 v0] m IH]; simpl in *.
  - inversion H.
  - destruct (bool_decide (k0 = k)) eqn:E; simpl.
    + apply bool_decide_eq_true in E. now subst k0.
    + apply elem_of_cons in H as [->|H]; [apply list_elem_of_here|].
      apply list_elem_of_further. now apply IH.
Qed.

Lemma getInitValue_registered
      (call : Value -> Value -> list Value -> M Value) (marker : Value) (w : World) :
  wmHas (initFns w) marker = true ->
  getInitValue call marker w = invoke call (wmGet (initFns w) marker) VUndef [] w.
Proof. intros H. unfold getInitValue, bind, getWorld. now rewrite H. Qed.

(** X21.  Init and getInitValue.  init refuses what is not a function with a
    TypeError and leaves the world alone.  For a function it returns a
    marker for which getInitValue applies that function, with undefined as
    receiver and no arguments, and hands back whatever the function returns
    or throws.  For a value that is not a key of initFns getInitValue
    returns undefined and applies nothing. *)
Theorem getInitValue_after_init
        (call : Value -> Value -> list Value -> M Value)
        (PLACEHOLDER fn : Value) (w : World) :
  (typeof fn <> "function" ->
   init PLACEHOLDER fn w
   = (Throw (TypeError "Init must be passed an initialization function!"), w))
  /\ (typeof fn = "function" ->
      exists marker w1,
        init PLACEHOLDER fn w = (Ret marker, w1)
        /\ getInitValue call marker w1 = invoke call fn VUndef [] w1)
  /\ (forall v, wmHas (initFns w) v = false -> getInitValue call v w = (Ret VUndef, w)).
Proof.
  split; [|split].
  - intros Hfn. unfold init.
    destruct (String.eqb (typeof fn) "function") eqn:E; [|reflexivity].
    apply String.eqb_eq in E. contradiction.
  - intros Hfn. eexists _, _. split; [now apply init_runs|].
    rewrite getInitValue_registered by apply wmHas_wmSet.
    simpl initFns. now rewrite wmGet_wmSet_eq.
  - intros v Hv. unfold getInitValue, bind, getWorld. now rewrite Hv.
Qed.

(** X22.  Two calls of init, for the same function or for different ones, give
    two different markers; afterwards getInitValue applies for each marker
    the function it was made for, and the entries initFns held before are
    still there with their functions. *)
Theorem init_markers_independent
        (call : Value -> Value -> list Value -> M Value)
        (PLACEHOLDER fn1 fn2 : Value) (w : World) :
  typeof fn1 = "function" -> typeof fn2 = "function" ->
  exists m1 w1 m2 w2,
    init PLACEHOLDER fn1 w = (Ret m1, w1)
    /\ init PLACEHOLDER fn2 w1 = (Ret m2, w2)
    /\ m1 <> m2
    /\ getInitValue call m1 w2 = invoke call fn1 VUndef [] w2
    /\ getInitValue call m2 w2 = invoke call fn2 VUndef [] w2
    /\ (forall v, wmHas (initFns w) v = true -> v <> m1 -> v <> m2 ->
                  wmHas (initFns w2) v = true
                  /\ wmGet (initFns w2) v = wmGet (initFns w) v).
Proof.
  intros H1 H2. eexists _, _, _, _.
  split; [now apply init_runs|]. split; [now apply init_runs|].
  cbn [heap withHeap withInitFns initFns]. rewrite length_app. cbn [length].
  assert (Hne : VObj (length (heap w)) <> VObj (length (heap w) + 2))
    by (intros [= H]; lia).
  split; [exact Hne|]. split; [|split].
  - rewrite getInitValue_registered
      by (cbn [initFns withInitFns]; apply wmHas_wmSet_other, wmHas_wmSet).
    cbn [initFns withInitFns]. rewrite wmGet_wmSet_ne by exact Hne. now rewrite wmGet_wmSet_eq.
  - rewrite getInitValue_registered by (cbn [initFns withInitFns]; apply wmHas_wmSet).
    cbn [initFns withInitFns]. now rewrite wmGet_wmSet_eq.
  - intros v Hv Hv1 Hv2. split.
    + now apply wmHas_wmSet_other, wmHas_wmSet_other.
    + rewrite !wmGet_wmSet_ne by assumption. reflexivity.
Qed.

Lemma init_markers_independent_witness :
  exists m1 w1 m2 w2,
    init (VSym 9) (VFun 0) Examples.emptyWorld = (Ret m1, w1)
    /\ init (VSym 9) (VFun 0) w1 = (Ret m2, w2)
    /\ m1 <> m2
    /\ getInitValue Examples.callSeven m1 w2
       = invoke Examples.callSeven (VFun 0) VUndef [] w2
    /\ getInitValue Examples.callSeven m2 w2
       = invoke Examples.callSeven (VFun 0) VUndef [] w2
    /\ (forall v, wmHas (initFns Examples.emptyWorld) v = true -> v <> m1 -> v <> m2 ->
                  wmHas (initFns w2) v = true
                  /\ wmGet (initFns w2) v = wmGet (initFns Examples.emptyWorld) v).
Proof.
  exact (init_markers_independent Examples.callSeven (VSym 9) (VFun 0) (VFun 0)
           Examples.emptyWorld eq_refl eq_refl).
Defined.




